(** * The PST extraction engine (extract.py, class PSTAnalyzer)

    A shallow embedding of the extraction and normalisation engine: the
    folder walk, the per-message normaliser, the identity generator, the
    attachment persister, the statistics pass and the two writers, with
    the properties of the written specification stated over it.

    Python text is a sequence of code points, attribute reads on the
    decoder's objects can be present, absent or faulty, and the methods
    run in a monad that threads the analyzer object, the file system and
    the clock, can raise, and emits log records. *)

From Stdlib Require Import ZArith NArith List String Ascii Lia Bool.
From Stdlib Require Import Decimal DecimalString Sorted.
From stdpp Require Import base option list gmap.

Set Warnings "-register-all".
Local Open Scope N_scope.

(** ** Text *)

(** A [str] is a sequence of Unicode code points; [bytes] is a sequence of
    octets. Both are written as lists of [N]. *)
Abbreviation pystr := (list N).
Abbreviation pybytes := (list N).

Definition lit (s : string) : pystr :=
  List.map N_of_ascii (list_ascii_of_string s).
Arguments lit s%_string.

Definition str_of_uint (u : Decimal.uint) : pystr :=
  lit (NilEmpty.string_of_uint u).

(** [str(n)] for a natural number, as [f'{n}'] prints it. *)
Definition str_of_nat (n : nat) : pystr :=
  match n with
  | O => lit "0"
  | _ => str_of_uint (Nat.to_uint n)
  end.

(** [str(z)] for an [int]. *)
Definition str_of_Z (z : Z) : pystr :=
  match z with
  | Z0 => lit "0"
  | Zpos p => str_of_uint (Pos.to_uint p)
  | Zneg p => lit "-" ++ str_of_uint (Pos.to_uint p)
  end.

(** [n] printed in at least [w] digits, as [%0wd] does. *)
Definition zero_pad (w : nat) (n : nat) : pystr :=
  let d := str_of_nat n in
  repeat 48 (w - length d) ++ d.

Definition hex_digit (n : N) : N :=
  if n <? 10 then 48 + n else 87 + n.

Definition hex_byte (b : N) : pystr :=
  [hex_digit (b / 16); hex_digit (b mod 16)].


Definition pystr_eqb (a b : pystr) : bool := bool_decide (a = b).

(** Order of [str] under [<]: lexicographic on code points. *)
Fixpoint pystr_ltb (a b : pystr) : bool :=
  match a, b with
  | [], [] => false
  | [], _ :: _ => true
  | _ :: _, [] => false
  | x :: a', y :: b' =>
      if x <? y then true else if y <? x then false else pystr_ltb a' b'
  end.

(** [sep.join(parts)]. *)
Fixpoint join (sep : pystr) (parts : list pystr) : pystr :=
  match parts with
  | [] => []
  | [p] => p
  | p :: rest => p ++ sep ++ join sep rest
  end.

(** [s.split(c)] for a one-character separator. *)
Fixpoint split_on (c : N) (s : pystr) : list pystr :=
  match s with
  | [] => [[]]
  | x :: s' =>
      if x =? c then [] :: split_on c s'
      else match split_on c s' with
           | [] => [[x]]
           | w :: ws => (x :: w) :: ws
           end
  end.

(** *** UTF-8, as [str.encode()] produces it.  A lone surrogate cannot be
    encoded: [encode] raises [UnicodeEncodeError], here [None]. *)
Definition utf8_char (c : N) : option pybytes :=
  if c <? 0x80 then Some [c]
  else if c <? 0x800 then Some [0xC0 + c / 64; 0x80 + c mod 64]
  else if (0xD800 <=? c) && (c <=? 0xDFFF) then None
  else if c <? 0x10000 then
    Some [0xE0 + c / 4096; 0x80 + (c / 64) mod 64; 0x80 + c mod 64]
  else if c <? 0x110000 then
    Some [0xF0 + c / 262144; 0x80 + (c / 4096) mod 64;
          0x80 + (c / 64) mod 64; 0x80 + c mod 64]
  else None.

Fixpoint utf8_encode (s : pystr) : option pybytes :=
  match s with
  | [] => Some []
  | c :: s' =>
      match utf8_char c, utf8_encode s' with
      | Some b, Some bs => Some (b ++ bs)
      | _, _ => None
      end
  end.

Definition encodable (s : pystr) : bool :=
  match utf8_encode s with Some _ => true | None => false end.

(** ** MD5 (RFC 1321), as [hashlib.md5(data).hexdigest()] *)
Module MD5.

Definition w32 (x : N) : N := x mod 0x100000000.

Definition rotl (x : N) (c : N) : N :=
  w32 (N.lor (N.shiftl x c) (N.shiftr x (32 - c))).

Definition not32 (x : N) : N := N.lxor x 0xFFFFFFFF.

Definition K : list N :=
  [ 0xd76aa478; 0xe8c7b756; 0x242070db; 0xc1bdceee;
    0xf57c0faf; 0x4787c62a; 0xa8304613; 0xfd469501;
    0x698098d8; 0x8b44f7af; 0xffff5bb1; 0x895cd7be;
    0x6b901122; 0xfd987193; 0xa679438e; 0x49b40821;
    0xf61e2562; 0xc040b340; 0x265e5a51; 0xe9b6c7aa;
    0xd62f105d; 0x02441453; 0xd8a1e681; 0xe7d3fbc8;
    0x21e1cde6; 0xc33707d6; 0xf4d50d87; 0x455a14ed;
    0xa9e3e905; 0xfcefa3f8; 0x676f02d9; 0x8d2a4c8a;
    0xfffa3942; 0x8771f681; 0x6d9d6122; 0xfde5380c;
    0xa4beea44; 0x4bdecfa9; 0xf6bb4b60; 0xbebfbc70;
    0x289b7ec6; 0xeaa127fa; 0xd4ef3085; 0x04881d05;
    0xd9d4d039; 0xe6db99e5; 0x1fa27cf8; 0xc4ac5665;
    0xf4292244; 0x432aff97; 0xab9423a7; 0xfc93a039;
    0x655b59c3; 0x8f0ccc92; 0xffeff47d; 0x85845dd1;
    0x6fa87e4f; 0xfe2ce6e0; 0xa3014314; 0x4e0811a1;
    0xf7537e82; 0xbd3af235; 0x2ad7d2bb; 0xeb86d391 ].

Definition S : list N :=
  [ 7; 12; 17; 22; 7; 12; 17; 22; 7; 12; 17; 22; 7; 12; 17; 22;
    5; 9; 14; 20; 5; 9; 14; 20; 5; 9; 14; 20; 5; 9; 14; 20;
    4; 11; 16; 23; 4; 11; 16; 23; 4; 11; 16; 23; 4; 11; 16; 23;
    6; 10; 15; 21; 6; 10; 15; 21; 6; 10; 15; 21; 6; 10; 15; 21 ].

(** Little-endian bytes of a word, and back. *)
Fixpoint le_bytes (n : nat) (x : N) : pybytes :=
  match n with
  | O => []
  | Datatypes.S n' => (x mod 256) :: le_bytes n' (x / 256)
  end.

Fixpoint le_word (bs : pybytes) : N :=
  match bs with
  | [] => 0
  | b :: bs' => b + 256 * le_word bs'
  end.

Definition pad (msg : pybytes) : pybytes :=
  let len := length msg in
  let zeros := ((119 - len mod 64) mod 64)%nat in
  msg ++ [0x80] ++ repeat 0 zeros
      ++ le_bytes 8 ((8 * N.of_nat len) mod 0x10000000000000000).

Fixpoint words (n : nat) (bs : pybytes) : list N :=
  match n with
  | O => []
  | Datatypes.S n' => le_word (firstn 4 bs) :: words n' (skipn 4 bs)
  end.

Fixpoint chunks (n : nat) (bs : pybytes) : list (list N) :=
  match n with
  | O => []
  | Datatypes.S n' => words 16 (firstn 64 bs) :: chunks n' (skipn 64 bs)
  end.

Record regs := Regs { rA : N; rB : N; rC : N; rD : N }.

Definition step (M : list N) (r : regs) (i : nat) : regs :=
  let '(Regs a b c d) := r in
  let '(f, g) :=
    if (i <? 16)%nat then
      (N.lor (N.land b c) (N.land (not32 b) d), i)
    else if (i <? 32)%nat then
      (N.lor (N.land d b) (N.land (not32 d) c), ((5 * i + 1) mod 16)%nat)
    else if (i <? 48)%nat then
      (N.lxor (N.lxor b c) d, ((3 * i + 5) mod 16)%nat)
    else
      (N.lxor c (N.lor b (not32 d)), ((7 * i) mod 16)%nat) in
  let f' := w32 (f + a + nth i K 0 + nth g M 0) in
  Regs d (w32 (b + rotl f' (nth i S 0))) b c.

Definition compress (r : regs) (M : list N) : regs :=
  let r' := fold_left (step M) (seq 0 64) r in
  Regs (w32 (rA r + rA r')) (w32 (rB r + rB r'))
       (w32 (rC r + rC r')) (w32 (rD r + rD r')).

Definition init : regs :=
  Regs 0x67452301 0xefcdab89 0x98badcfe 0x10325476.

Definition digest (msg : pybytes) : pybytes :=
  let p := pad msg in
  let r := fold_left compress (chunks (length p / 64) p) init in
  le_bytes 4 (rA r) ++ le_bytes 4 (rB r)
    ++ le_bytes 4 (rC r) ++ le_bytes 4 (rD r).

Definition hexdigest (msg : pybytes) : pystr :=
  flat_map hex_byte (digest msg).

End MD5.

(** ** Values read from the store

    What an attribute of a decoded object can hold: text, raw bytes,
    numbers, flags, timestamps or nothing. *)

Record datetime := Datetime {
  year : nat; month : nat; day : nat;
  hour : nat; minute : nat; second : nat; microsecond : nat }.

Inductive pyval :=
| VNone
| VBool (b : bool)
| VInt (z : Z)
| VStr (s : pystr)
| VBytes (b : pybytes)
| VDatetime (d : datetime).

#[global] Instance datetime_eq_dec : EqDecision datetime.
Proof. solve_decision. Defined.
#[global] Instance pyval_eq_dec : EqDecision pyval.
Proof. solve_decision. Defined.

(** [dt.strftime('%Y-%m-%d %H:%M:%S')]; the year is printed in four
    digits, which is what the C library does from year 1000 on. *)
Definition strftime_canonical (d : datetime) : pystr :=
  zero_pad 4 (year d) ++ lit "-" ++ zero_pad 2 (month d) ++ lit "-"
    ++ zero_pad 2 (day d) ++ lit " " ++ zero_pad 2 (hour d) ++ lit ":"
    ++ zero_pad 2 (minute d) ++ lit ":" ++ zero_pad 2 (second d).

(** [dt.strftime('%Y%m%d_%H%M%S')]. *)
Definition strftime_compact (d : datetime) : pystr :=
  zero_pad 4 (year d) ++ zero_pad 2 (month d) ++ zero_pad 2 (day d)
    ++ lit "_" ++ zero_pad 2 (hour d) ++ zero_pad 2 (minute d)
    ++ zero_pad 2 (second d).

Definition fraction (d : datetime) : pystr :=
  match microsecond d with
  | O => []
  | us => lit "." ++ zero_pad 6 us
  end.

(** [str(dt)], that is [dt.isoformat(' ')] of a naive datetime. *)
Definition datetime_str (d : datetime) : pystr :=
  strftime_canonical d ++ fraction d.

(** [dt.isoformat()]. *)
Definition isoformat (d : datetime) : pystr :=
  zero_pad 4 (year d) ++ lit "-" ++ zero_pad 2 (month d) ++ lit "-"
    ++ zero_pad 2 (day d) ++ lit "T" ++ zero_pad 2 (hour d) ++ lit ":"
    ++ zero_pad 2 (minute d) ++ lit ":" ++ zero_pad 2 (second d)
    ++ fraction d.

(** [repr(b)] of a [bytes] value, which is also its [str]. *)
Definition bytes_repr (b : pybytes) : pystr :=
  let q := if existsb (N.eqb 39) b && negb (existsb (N.eqb 34) b)
           then 34 else 39 in
  let esc (c : N) : pystr :=
    if (c =? q) || (c =? 92) then [92; c]
    else if c =? 9 then lit "\t"
    else if c =? 10 then lit "\n"
    else if c =? 13 then lit "\r"
    else if (c <? 32) || (127 <=? c) then lit "\x" ++ hex_byte c
    else [c] in
  [98; q] ++ flat_map esc b ++ [q].

(** [str(v)], which is also what an f-string field prints. *)
Definition py_str (v : pyval) : pystr :=
  match v with
  | VNone => lit "None"
  | VBool true => lit "True"
  | VBool false => lit "False"
  | VInt z => str_of_Z z
  | VStr s => s
  | VBytes b => bytes_repr b
  | VDatetime d => datetime_str d
  end.

(** Truth value of [v] in a condition. *)
Definition truthy (v : pyval) : bool :=
  match v with
  | VNone => false
  | VBool b => b
  | VInt z => negb (z =? 0)%Z
  | VStr s => negb (bool_decide (s = []))
  | VBytes b => negb (bool_decide (b = []))
  | VDatetime _ => true
  end.

(** [a == b] as a dictionary compares keys: a flag equals the integer 0
    or 1, text never equals bytes. *)
Definition py_eqb (a b : pyval) : bool :=
  match a, b with
  | VBool x, VInt z | VInt z, VBool x => (z =? (if x then 1 else 0))%Z
  | _, _ => bool_decide (a = b)
  end.

(** ** Exceptions *)

Inductive exn :=
| AttributeError
| TypeError
| ValueError
| UnicodeEncodeError
| FileNotFoundError
| FileExistsError
| NotADirectoryError
| IsADirectoryError
| OtherError (what : string).

#[global] Instance exn_eq_dec : EqDecision exn.
Proof. solve_decision. Defined.

Inductive outcome (A : Type) :=
| Ok (a : A)
| Raise (e : exn).
Arguments Ok {A} a.
Arguments Raise {A} e.

#[global] Instance outcome_ret : MRet outcome := fun A a => Ok a.
#[global] Instance outcome_bind : MBind outcome := fun A B k o =>
  match o with
  | Ok a => k a
  | Raise e => Raise e
  end.

(** ** The decoder's objects

    Reading an attribute gives its value, finds it missing
    ([AttributeError]), or raises whatever the decoder raises. *)

Inductive attr (A : Type) :=
| Present (a : A)
| Absent
| Faulty (e : exn).
Arguments Present {A} a.
Arguments Absent {A}.
Arguments Faulty {A} e.

(** [obj.name] *)
Definition read {A} (x : attr A) : outcome A :=
  match x with
  | Present a => Ok a
  | Absent => Raise AttributeError
  | Faulty e => Raise e
  end.

(** [getattr(obj, 'name', default)]: only [AttributeError] is turned into
    the default. *)
Definition getattr {A} (x : attr A) (default : A) : outcome A :=
  match x with
  | Present a => Ok a
  | Absent | Faulty AttributeError => Ok default
  | Faulty e => Raise e
  end.

(** [hasattr(obj, 'name')] *)
Definition hasattr {A} (x : attr A) : outcome bool :=
  match x with
  | Present _ => Ok true
  | Absent | Faulty AttributeError => Ok false
  | Faulty e => Raise e
  end.

(** A sequence the decoder hands out: it yields [items] and then either
    stops or raises [fault]. *)
Record iter (A : Type) := Iter { items : list A; fault : option exn }.
Arguments Iter {A} items fault.
Arguments items {A} i.
Arguments fault {A} i.

Record Recipient := {
  rcp_name : attr pyval;
  rcp_email_address : attr pyval;
  rcp_type : attr pyval }.

Record Attachment := {
  att_name : attr pyval;
  att_size : attr pyval;
  att_attachment_type : attr pyval;
  att_data : attr pyval }.

Record Message := {
  msg_subject : attr pyval;
  msg_sender_name : attr pyval;
  msg_sender_email_address : attr pyval;
  msg_plain_text_body : attr pyval;
  msg_html_body : attr pyval;
  msg_delivery_time : attr pyval;
  msg_creation_time : attr pyval;
  msg_modification_time : attr pyval;
  msg_size : attr pyval;
  msg_message_class : attr pyval;
  msg_priority : attr pyval;
  msg_importance : attr pyval;
  msg_categories : attr pyval;
  msg_is_read : attr pyval;
  msg_recipients : attr (iter Recipient);
  msg_attachments : attr (iter Attachment);
  msg_properties : attr (iter unit) }.

Inductive Folder := MkFolder {
  name : attr pyval;
  sub_folders : attr (iter Folder);
  sub_messages : attr (iter Message) }.

Record PffFile := {
  root_folder : attr Folder;
  format_version : attr pyval;
  content_type : attr pyval;
  pff_size : attr pyval }.

(** ** Normalised records

    The dictionaries the extractor builds, one record type per dictionary
    shape, fields in the order of the dictionary literals. *)

Record recipient_data := {
  rd_name : pyval;
  rd_email : pyval;
  rd_type : pyval }.

Record attachment_data := {
  ad_email_id : pystr;
  ad_index : nat;
  ad_name : pyval;
  ad_size : pyval;
  ad_type : pyval;
  ad_saved_path : option pystr }.

Record email_data := {
  e_id : pystr;
  e_folder : pyval;
  e_subject : pyval;
  e_sender_name : pyval;
  e_sender_email : pyval;
  e_recipients : list recipient_data;
  e_delivery_time : pystr;
  e_creation_time : pystr;
  e_modification_time : pystr;
  e_size : pyval;
  e_body_plain : pyval;
  e_body_html : pyval;
  e_message_class : pystr;
  e_priority : pystr;
  e_importance : pystr;
  e_attachments : list attachment_data;
  e_categories : pystr;
  e_read_flag : pyval }.

Record contact_data := {
  c_display_name : pyval;
  c_email_address : pyval;
  c_business_phone : pystr;
  c_home_phone : pystr;
  c_mobile_phone : pystr;
  c_company : pystr;
  c_job_title : pystr;
  c_creation_time : pystr;
  c_modification_time : pystr }.

Record event_data := {
  ev_subject : pyval;
  ev_location : pystr;
  ev_start_time : pystr;
  ev_end_time : pystr;
  ev_organizer : pyval;
  ev_attendees : list pyval;
  ev_body : pyval;
  ev_importance : pyval;
  ev_creation_time : pystr }.

Record task_data := {
  t_subject : pyval;
  t_body : pyval;
  t_status : pystr;
  t_priority : pyval;
  t_due_date : pystr;
  t_start_date : pystr;
  t_completion_date : pystr;
  t_percent_complete : nat;
  t_creation_time : pystr }.

Record note_data := {
  n_subject : pyval;
  n_body : pyval;
  n_creation_time : pystr;
  n_modification_time : pystr;
  n_color : pystr;
  n_size : pyval }.

Record journal_data := {
  j_subject : pyval;
  j_body : pyval;
  j_entry_type : pystr;
  j_start_time : pystr;
  j_duration : nat;
  j_companies : pystr;
  j_contacts : pystr;
  j_creation_time : pystr }.

(** The [stats] dictionary; the two optional keys are only set on a
    corpus with emails. *)
Record statistics := {
  total_emails : nat;
  total_contacts : nat;
  total_calendar_events : nat;
  total_tasks : nat;
  total_notes : nat;
  total_journal_entries : nat;
  total_attachments : nat;
  analysis_date : pystr;
  st_pst_file : pystr;
  pst_file_size : nat;
  email_date_range : option (pystr * pystr);
  top_senders : option (list (pyval * nat)) }.

(** [self.analysis_results]; [statistics] starts as the empty
    dictionary, here [None]. *)
Record results := {
  emails : list email_data;
  contacts : list contact_data;
  calendar : list event_data;
  tasks : list task_data;
  notes : list note_data;
  journal : list journal_data;
  attachments : list attachment_data;
  stats : option statistics }.

Definition empty_results : results :=
  {| emails := []; contacts := []; calendar := []; tasks := [];
     notes := []; journal := []; attachments := []; stats := None |}.

(** One row handed to the CSV writer. *)
Record csv_row := {
  row_id : pystr;
  row_folder : pyval;
  row_subject : pyval;
  row_sender_name : pyval;
  row_sender_email : pyval;
  row_delivery_time : pystr;
  row_size : pyval;
  row_attachments_count : nat }.

(** ** Python object trees, for the JSON writer *)

Inductive obj :=
| Leaf (v : pyval)
| Tuple (xs : list obj)
| List (xs : list obj)
| Dict (kvs : list (string * obj)).

Definition ostr (s : pystr) : obj := Leaf (VStr s).
Definition onat (n : nat) : obj := Leaf (VInt (Z.of_nat n)).

Definition recipient_obj (r : recipient_data) : obj :=
  Dict [("name", Leaf (rd_name r)); ("email", Leaf (rd_email r));
        ("type", Leaf (rd_type r))]%string.

Definition attachment_obj (a : attachment_data) : obj :=
  Dict [("email_id", ostr (ad_email_id a)); ("index", onat (ad_index a));
        ("name", Leaf (ad_name a)); ("size", Leaf (ad_size a));
        ("type", Leaf (ad_type a));
        ("saved_path", match ad_saved_path a with
                       | Some p => ostr p
                       | None => Leaf VNone
                       end)]%string.

Definition email_obj (e : email_data) : obj :=
  Dict [("id", ostr (e_id e)); ("folder", Leaf (e_folder e));
        ("subject", Leaf (e_subject e));
        ("sender_name", Leaf (e_sender_name e));
        ("sender_email", Leaf (e_sender_email e));
        ("recipients", List (List.map recipient_obj (e_recipients e)));
        ("delivery_time", ostr (e_delivery_time e));
        ("creation_time", ostr (e_creation_time e));
        ("modification_time", ostr (e_modification_time e));
        ("size", Leaf (e_size e));
        ("body_plain", Leaf (e_body_plain e));
        ("body_html", Leaf (e_body_html e));
        ("message_class", ostr (e_message_class e));
        ("priority", ostr (e_priority e));
        ("importance", ostr (e_importance e));
        ("attachments", List (List.map attachment_obj (e_attachments e)));
        ("categories", ostr (e_categories e));
        ("read_flag", Leaf (e_read_flag e))]%string.

Definition contact_obj (c : contact_data) : obj :=
  Dict [("display_name", Leaf (c_display_name c));
        ("email_address", Leaf (c_email_address c));
        ("business_phone", ostr (c_business_phone c));
        ("home_phone", ostr (c_home_phone c));
        ("mobile_phone", ostr (c_mobile_phone c));
        ("company", ostr (c_company c));
        ("job_title", ostr (c_job_title c));
        ("creation_time", ostr (c_creation_time c));
        ("modification_time", ostr (c_modification_time c))]%string.

Definition event_obj (e : event_data) : obj :=
  Dict [("subject", Leaf (ev_subject e));
        ("location", ostr (ev_location e));
        ("start_time", ostr (ev_start_time e));
        ("end_time", ostr (ev_end_time e));
        ("organizer", Leaf (ev_organizer e));
        ("attendees", List (List.map Leaf (ev_attendees e)));
        ("body", Leaf (ev_body e));
        ("importance", Leaf (ev_importance e));
        ("creation_time", ostr (ev_creation_time e))]%string.

Definition task_obj (t : task_data) : obj :=
  Dict [("subject", Leaf (t_subject t)); ("body", Leaf (t_body t));
        ("status", ostr (t_status t)); ("priority", Leaf (t_priority t));
        ("due_date", ostr (t_due_date t));
        ("start_date", ostr (t_start_date t));
        ("completion_date", ostr (t_completion_date t));
        ("percent_complete", onat (t_percent_complete t));
        ("creation_time", ostr (t_creation_time t))]%string.

Definition note_obj (n : note_data) : obj :=
  Dict [("subject", Leaf (n_subject n)); ("body", Leaf (n_body n));
        ("creation_time", ostr (n_creation_time n));
        ("modification_time", ostr (n_modification_time n));
        ("color", ostr (n_color n)); ("size", Leaf (n_size n))]%string.

Definition journal_obj (j : journal_data) : obj :=
  Dict [("subject", Leaf (j_subject j)); ("body", Leaf (j_body j));
        ("entry_type", ostr (j_entry_type j));
        ("start_time", ostr (j_start_time j));
        ("duration", onat (j_duration j));
        ("companies", ostr (j_companies j));
        ("contacts", ostr (j_contacts j));
        ("creation_time", ostr (j_creation_time j))]%string.

Definition statistics_obj (st : statistics) : obj :=
  Dict ([("total_emails", onat (total_emails st));
         ("total_contacts", onat (total_contacts st));
         ("total_calendar_events", onat (total_calendar_events st));
         ("total_tasks", onat (total_tasks st));
         ("total_notes", onat (total_notes st));
         ("total_journal_entries", onat (total_journal_entries st));
         ("total_attachments", onat (total_attachments st));
         ("analysis_date", ostr (analysis_date st));
         ("pst_file", ostr (st_pst_file st));
         ("pst_file_size", onat (pst_file_size st))]%string
        ++ match email_date_range st with
           | Some (lo, hi) =>
               [("email_date_range",
                 Dict [("earliest", ostr lo); ("latest", ostr hi)])]%string
           | None => []
           end
        ++ match top_senders st with
           | Some l =>
               [("top_senders",
                 List (List.map (fun '(k, n) => Tuple [Leaf k; onat n]) l))
               ]%string
           | None => []
           end).

Definition results_obj (r : results) : obj :=
  Dict [("emails", List (List.map email_obj (emails r)));
        ("contacts", List (List.map contact_obj (contacts r)));
        ("calendar", List (List.map event_obj (calendar r)));
        ("tasks", List (List.map task_obj (tasks r)));
        ("notes", List (List.map note_obj (notes r)));
        ("journal", List (List.map journal_obj (journal r)));
        ("attachments", List (List.map attachment_obj (attachments r)));
        ("statistics", match stats r with
                       | Some st => statistics_obj st
                       | None => Dict []
                       end)]%string.

(** ** Paths and the file system *)

(** A [pathlib.Path]: whether it is anchored at the root, and its
    components. *)
Record Path := MkPath { absolute : bool; parts : list pystr }.

Definition dot : pystr := lit ".".
Definition dotdot : pystr := lit "..".

Definition is_blank_part (c : pystr) : bool :=
  bool_decide (c = []) || bool_decide (c = dot).

(** [str(path)] *)
Definition path_str (p : Path) : pystr :=
  if absolute p then lit "/" ++ join (lit "/") (parts p)
  else match parts p with
       | [] => dot
       | ps => join (lit "/") ps
       end.

(** [path / s]: the text is cut at slashes, empty and [.] components are
    dropped, and a text that starts with a slash replaces the path. *)
Definition path_div (p : Path) (s : pystr) : Path :=
  let comps := List.filter (fun c => negb (is_blank_part c)) (split_on 47 s) in
  match s with
  | 47 :: _ => MkPath true comps
  | _ => MkPath (absolute p) (parts p ++ comps)
  end.

(** [path.parent] *)
Definition path_parent (p : Path) : Path :=
  MkPath (absolute p) (removelast (parts p)).

Inductive content :=
| Data (b : pybytes)
| JsonDocument (doc : obj)
| CsvDocument (fieldnames : list string) (rows : list csv_row)
| Unfinished.

Inductive node :=
| Dir
| File (c : content).

(** The file system maps the resolved location of every existing entry,
    its components from the root, to what is there.  The root always
    exists.  There are no links. *)
Abbreviation filesystem := (gmap (list pystr) node).

Definition is_dir (fs : filesystem) (k : list pystr) : bool :=
  match k with
  | [] => true
  | _ => match fs !! k with Some Dir => true | _ => false end
  end.

Definition entry_exists (fs : filesystem) (k : list pystr) : bool :=
  match k with
  | [] => true
  | _ => match fs !! k with Some _ => true | None => false end
  end.

Definition not_a_dir_error (fs : filesystem) (k : list pystr) : exn :=
  match fs !! k with
  | Some (File _) => NotADirectoryError
  | _ => FileNotFoundError
  end.

(** Name resolution as the kernel does it: every component but the last
    is looked up in a directory, and [..] leads to the parent. *)
Fixpoint walk (fs : filesystem) (cur : list pystr) (comps : list pystr)
  : outcome (list pystr) :=
  match comps with
  | [] => Ok cur
  | c :: rest =>
      if is_blank_part c then walk fs cur rest
      else if is_dir fs cur then
        if bool_decide (c = dotdot) then walk fs (removelast cur) rest
        else walk fs (cur ++ [c]) rest
      else Raise (not_a_dir_error fs cur)
  end.

(** [path.mkdir(parents=True, exist_ok=True)]: the components are
    resolved in the same way, and the ones that are missing are made. *)
Fixpoint mkdirs (fs : filesystem) (cur : list pystr) (comps : list pystr)
  : outcome filesystem :=
  match comps with
  | [] => Ok fs
  | c :: rest =>
      if is_blank_part c then mkdirs fs cur rest
      else if is_dir fs cur then
        if bool_decide (c = dotdot) then mkdirs fs (removelast cur) rest
        else
          let nxt := cur ++ [c] in
          match fs !! nxt with
          | Some Dir => mkdirs fs nxt rest
          | Some (File _) =>
              Raise (match rest with
                     | [] => FileExistsError
                     | _ => NotADirectoryError
                     end)
          | None => mkdirs (<[nxt := Dir]> fs) nxt rest
          end
      else Raise (not_a_dir_error fs cur)
  end.

(** Where [open(path, 'w')] would create or truncate a file. *)
Definition writable_at (fs : filesystem) (cur : list pystr) (p : Path)
  : outcome (list pystr) :=
  match walk fs cur (parts p) with
  | Raise e => Raise e
  | Ok k =>
      if is_dir fs k then Raise IsADirectoryError
      else match fs !! k with
           | Some _ => Ok k
           | None =>
               if is_dir fs (removelast k) then Ok k
               else Raise (not_a_dir_error fs (removelast k))
           end
  end.

(** ** Log records *)

Inductive level := DEBUG | INFO | WARNING | ERROR.

Inductive log_arg :=
| NoArg
| ExnArg (e : exn)
| TextArg (s : pystr)
| NumArg (v : pyval).

(** One call of the logger: the level, the text of the message with [{}]
    where a value is printed, and that value. *)
Record log_record := Log { lvl : level; text : string; arg : log_arg }.

(** ** The surroundings of a run *)

Record clock_reading := {
  now : datetime;            (* datetime.datetime.now() *)
  timestamp_repr : pystr     (* f'{now.timestamp()}' *) }.

Record environment := {
  (** [c.isalnum()] for a code point beyond ASCII (the Unicode tables) *)
  unicode_isalnum : N -> bool;
  (** [b.decode('utf-8', errors='ignore')] *)
  utf8_decode_ignore : pybytes -> pystr;
  (** [s.lower()] *)
  str_lower : pystr -> pystr;
  (** successive readings of the system clock *)
  clock : nat -> clock_reading;
  (** the decoder: what [pypff.file().open] makes of a file's bytes *)
  decode_store : pybytes -> exn + PffFile;
  (** [st_size] of an entry that is not a plain byte file *)
  other_size : node -> nat;
  (** the working directory, against which relative paths are read *)
  cwd : list pystr }.

(** The analyzer object together with the world it acts on. *)
Record state := {
  pst_file_path : Path;
  output_dir : Path;
  pst_file : option PffFile;
  analysis_results : results;
  fs : filesystem;
  ticks : nat }.

Definition set_fs (f : filesystem) (s : state) : state :=
  {| pst_file_path := pst_file_path s; output_dir := output_dir s;
     pst_file := pst_file s; analysis_results := analysis_results s;
     fs := f; ticks := ticks s |}.

Definition set_ticks (n : nat) (s : state) : state :=
  {| pst_file_path := pst_file_path s; output_dir := output_dir s;
     pst_file := pst_file s; analysis_results := analysis_results s;
     fs := fs s; ticks := n |}.

Definition set_pst_file (f : option PffFile) (s : state) : state :=
  {| pst_file_path := pst_file_path s; output_dir := output_dir s;
     pst_file := f; analysis_results := analysis_results s;
     fs := fs s; ticks := ticks s |}.

Definition set_results (r : results) (s : state) : state :=
  {| pst_file_path := pst_file_path s; output_dir := output_dir s;
     pst_file := pst_file s; analysis_results := r;
     fs := fs s; ticks := ticks s |}.

(** ** The monad of methods: state, exceptions, log output *)

Definition M (A : Type) : Type :=
  state -> outcome A * state * list log_record.

#[global] Instance M_ret : MRet M := fun A a s => (Ok a, s, []).

#[global] Instance M_bind : MBind M := fun A B k m s =>
  match m s with
  | (Ok a, s1, l1) => let '(r, s2, l2) := k a s1 in (r, s2, l1 ++ l2)
  | (Raise e, s1, l1) => (Raise e, s1, l1)
  end.

Definition raise {A} (e : exn) : M A := fun s => (Raise e, s, []).

Definition lift {A} (o : outcome A) : M A := fun s => (o, s, []).

(** Run [m] inside [try]: its exception, if any, is handed over as a
    value; what it did to the state and the log stays. *)
Definition attempt {A} (m : M A) : M (outcome A) := fun s =>
  let '(r, s1, l1) := m s in (Ok r, s1, l1).

Definition logger (l : level) (t : string) (a : log_arg) : M unit :=
  fun s => (Ok tt, s, [Log l t a]).

Definition gets {A} (f : state -> A) : M A := fun s => (Ok (f s), s, []).

Definition modify (f : state -> state) : M unit :=
  fun s => (Ok tt, f s, []).

Definition result_of {A} (x : outcome A * state * list log_record)
  : outcome A := fst (fst x).
Definition state_of {A} (x : outcome A * state * list log_record)
  : state := snd (fst x).
Definition log_of {A} (x : outcome A * state * list log_record)
  : list log_record := snd x.
Arguments result_of {A} x /.
Arguments state_of {A} x /.
Arguments log_of {A} x /.

(** [for x in it: acc = body(acc, x)] inside a [try] block: the loop
    returns the accumulator as it stands when the loop ends, and the
    exception that ended it, if one did. *)
Definition for_acc {A L} (body : L -> A -> M L) (stop : option exn)
  : list A -> L -> M (L * option exn) :=
  fix go xs acc :=
    match xs with
    | [] => mret (acc, stop)
    | x :: rest =>
        r ← attempt (body acc x);
        match r with
        | Ok acc' => go rest acc'
        | Raise e => mret (acc, Some e)
        end
    end.

(** ** Character classes *)

Definition ascii_isalnum (c : N) : bool :=
  ((48 <=? c) && (c <=? 57)) || ((65 <=? c) && (c <=? 90))
  || ((97 <=? c) && (c <=? 122)).

(** White space as [str.rstrip()] and [str.isspace()] see it. *)
Definition isspace (c : N) : bool :=
  ((9 <=? c) && (c <=? 13)) || ((28 <=? c) && (c <=? 32))
  || (c =? 0x85) || (c =? 0xA0) || (c =? 0x1680)
  || ((0x2000 <=? c) && (c <=? 0x200A))
  || (c =? 0x2028) || (c =? 0x2029) || (c =? 0x202F)
  || (c =? 0x205F) || (c =? 0x3000).

Fixpoint lstrip (s : pystr) : pystr :=
  match s with
  | [] => []
  | c :: s' => if isspace c then lstrip s' else s
  end.

(** [s.rstrip()] *)
Definition rstrip (s : pystr) : pystr := rev (lstrip (rev s)).

Definition ascii_lower (c : N) : N :=
  if (65 <=? c) && (c <=? 90) then c + 32 else c.

(** ** Helpers of the statistics pass *)

(** [senders[sender] = senders.get(sender, 0) + 1] on a dictionary kept
    in insertion order. *)
Fixpoint bump (sender : pyval) (senders : list (pyval * nat))
  : list (pyval * nat) :=
  match senders with
  | [] => [(sender, 1%nat)]
  | (k, n) :: rest =>
      if py_eqb k sender then (k, S n) :: rest
      else (k, n) :: bump sender rest
  end.

Definition count_senders (es : list email_data) : list (pyval * nat) :=
  fold_left (fun senders email => bump (e_sender_email email) senders) es [].

(** [sorted(items, key=lambda x: x[1], reverse=True)]: a stable sort, the
    larger count first, equal counts in their original order. *)
Fixpoint insert_desc (x : pyval * nat) (l : list (pyval * nat))
  : list (pyval * nat) :=
  match l with
  | [] => [x]
  | y :: rest =>
      if (snd y <=? snd x)%nat then x :: y :: rest
      else y :: insert_desc x rest
  end.

Definition sorted_desc (l : list (pyval * nat)) : list (pyval * nat) :=
  foldr insert_desc [] l.

(** [min(dates)] and [max(dates)] of a non-empty list, first of equals. *)
Definition str_min (d : pystr) (ds : list pystr) : pystr :=
  fold_left (fun m x => if pystr_ltb x m then x else m) ds d.

Definition str_max (d : pystr) (ds : list pystr) : pystr :=
  fold_left (fun m x => if pystr_ltb m x then x else m) ds d.

(** The [stats] dictionary that [generate_statistics] builds from the
    corpus, the time, and the path and size of the store file. *)
Definition make_statistics (r : results) (t : datetime) (p : Path)
    (size : nat) : statistics :=
  let dates :=
    List.filter (fun d => negb (bool_decide (d = [])))
                (List.map e_delivery_time (emails r)) in
  let senders := count_senders (emails r) in
  {| total_emails := length (emails r);
     total_contacts := length (contacts r);
     total_calendar_events := length (calendar r);
     total_tasks := length (tasks r);
     total_notes := length (notes r);
     total_journal_entries := length (journal r);
     total_attachments := length (attachments r);
     analysis_date := isoformat t;
     st_pst_file := path_str p;
     pst_file_size := size;
     email_date_range :=
       match emails r, dates with
       | _ :: _, d :: ds => Some (str_min d ds, str_max d ds)
       | _, _ => None
       end;
     top_senders :=
       match emails r, senders with
       | _ :: _, _ :: _ => Some (take 10 (sorted_desc senders))
       | _, _ => None
       end |}.

(** ** Helpers of the writers *)

(** [_clean_for_json], but for its [bytes] case, which needs the
    decoder of the surroundings. *)
Fixpoint clean_with (decode : pybytes -> pystr) (data : obj) : obj :=
  match data with
  | Leaf (VBytes b) => Leaf (VStr (decode b))
  | Dict kvs => Dict (List.map (fun '(k, v) => (k, clean_with decode v)) kvs)
  | List xs => List (List.map (clean_with decode) xs)
  | other => other
  end.

(** What stops [json.dump(data, f, ensure_ascii=False)], if anything
    does: the first value, in document order, that has no JSON form or
    cannot be written as UTF-8. *)
Definition leaf_error (v : pyval) : option exn :=
  match v with
  | VBytes _ | VDatetime _ => Some TypeError
  | VStr s => if encodable s then None else Some UnicodeEncodeError
  | _ => None
  end.

Fixpoint dump_error (data : obj) : option exn :=
  match data with
  | Leaf v => leaf_error v
  | Tuple xs | List xs =>
      (fix first (xs : list obj) : option exn :=
         match xs with
         | [] => None
         | x :: rest =>
             match dump_error x with
             | Some e => Some e
             | None => first rest
             end
         end) xs
  | Dict kvs =>
      (fix first (kvs : list (string * obj)) : option exn :=
         match kvs with
         | [] => None
         | (_, x) :: rest =>
             match dump_error x with
             | Some e => Some e
             | None => first rest
             end
         end) kvs
  end.

(** What the CSV writer prints for a value. *)
Definition csv_cell (v : pyval) : pystr :=
  match v with
  | VNone => []
  | _ => py_str v
  end.

Definition fieldnames_of_emails : list string :=
  ["id"; "folder"; "subject"; "sender_name"; "sender_email";
   "delivery_time"; "size"; "attachments_count"]%string.

Definition csv_row_of (email : email_data) : csv_row :=
  {| row_id := e_id email;
     row_folder := e_folder email;
     row_subject := e_subject email;
     row_sender_name := e_sender_name email;
     row_sender_email := e_sender_email email;
     row_delivery_time := e_delivery_time email;
     row_size := e_size email;
     row_attachments_count := length (e_attachments email) |}.

Definition row_encodable (r : csv_row) : bool :=
  encodable (row_id r) && encodable (csv_cell (row_folder r))
  && encodable (csv_cell (row_subject r))
  && encodable (csv_cell (row_sender_name r))
  && encodable (csv_cell (row_sender_email r))
  && encodable (row_delivery_time r) && encodable (csv_cell (row_size r)).

(** [f'{v:,}'] in a log message. *)
Definition format_thousands (v : pyval) : outcome log_arg :=
  match v with
  | VInt _ | VBool _ => Ok (NumArg v)
  | VDatetime _ => Ok (TextArg (lit ","))
  | VStr _ => Raise ValueError
  | VNone | VBytes _ => Raise TypeError
  end.

(** A decoder object on which [open] has not succeeded. *)
Definition unopened : PffFile :=
  {| root_folder := Faulty (OtherError "OSError");
     format_version := Faulty (OtherError "OSError");
     content_type := Faulty (OtherError "OSError");
     pff_size := Faulty (OtherError "OSError") |}.

Definition update_results (f : results -> results) : M unit :=
  modify (fun s => set_results (f (analysis_results s)) s).

Section Engine.

Context (E : environment).

(** [c.isalnum()] *)
Definition isalnum (c : N) : bool :=
  if c <? 128 then ascii_isalnum c else unicode_isalnum E c.

(** [s.lower()] *)
Definition lower (s : pystr) : pystr :=
  if forallb (fun c => c <? 128) s then List.map ascii_lower s
  else str_lower E s.

(** [datetime.datetime.now()] *)
Definition datetime_now : M clock_reading := fun s =>
  (Ok (clock E (ticks s)), set_ticks (S (ticks s)) s, []).

(** Where name resolution starts for [p]. *)
Definition origin (p : Path) : list pystr :=
  if absolute p then [] else cwd E.

(** [path.exists()] *)
Definition path_exists (p : Path) : M bool :=
  f ← gets fs;
  match walk f (origin p) (parts p) with
  | Ok k => mret (entry_exists f k)
  | Raise _ => mret false
  end.

(** [path.stat().st_size] *)
Definition st_size (p : Path) : M nat :=
  f ← gets fs;
  k ← lift (walk f (origin p) (parts p));
  match k, f !! k with
  | [], _ => mret (other_size E Dir)
  | _, Some (File (Data b)) => mret (length b)
  | _, Some n => mret (other_size E n)
  | _, None => raise FileNotFoundError
  end.

(** [path.mkdir(parents=True, exist_ok=True)] *)
Definition mkdir_parents (p : Path) : M unit :=
  f ← gets fs;
  f' ← lift (mkdirs f (origin p) (parts p));
  modify (set_fs f').

(** [open(path, 'w')]: the file is created or emptied; the result is
    its resolved location, which stands for the file object. *)
Definition open_for_writing (p : Path) (initial : content)
  : M (list pystr) :=
  f ← gets fs;
  k ← lift (writable_at f (origin p) p);
  modify (set_fs (<[k := File initial]> f));;
  mret k.

(** What is in the file when the [with] block is left normally. *)
Definition write_file (k : list pystr) (c : content) : M unit :=
  f ← gets fs;
  modify (set_fs (<[k := File c]> f)).

(** *** Helper methods *)

(** [_generate_email_id] *)
Definition _generate_email_id (message : Message) : M pystr :=
  r ← attempt (
    subject ← lift (getattr (msg_subject message) (VStr []));
    sender ← lift (getattr (msg_sender_email_address message) (VStr []));
    created ← lift (getattr (msg_creation_time message) (VStr []));
    let content := py_str subject ++ py_str sender ++ py_str created in
    match utf8_encode content with
    | Some data => mret (take 16 (MD5.hexdigest data))
    | None => raise UnicodeEncodeError
    end);
  match r with
  | Ok email_id => mret email_id
  | Raise _ =>
      t ← datetime_now;
      mret (lit "email_" ++ timestamp_repr t)
  end.

(** [_format_datetime] *)
Definition _format_datetime (dt : pyval) : pystr :=
  match dt with
  | VNone => []
  | VDatetime d => strftime_canonical d
  | _ => py_str dt
  end.

(** [x.decode('utf-8', errors='ignore')] when [x] is [bytes]. *)
Definition decoded (v : pyval) : pyval :=
  match v with
  | VBytes b => VStr (utf8_decode_ignore E b)
  | _ => v
  end.

(** [body[:1000] if body else ''] *)
Definition preview (body : pyval) : outcome pyval :=
  if truthy body then
    match body with
    | VStr s => Ok (VStr (take 1000 s))
    | VBytes b => Ok (VBytes (take 1000 b))
    | _ => Raise TypeError
    end
  else Ok (VStr []).

(** [_extract_recipients] *)
Definition _extract_recipients (message : Message)
  : M (list recipient_data) :=
  r ← attempt (
    has ← lift (hasattr (msg_recipients message));
    if has : bool return M (list recipient_data * option exn) then
      it ← lift (read (msg_recipients message));
      for_acc (fun recipients recipient =>
                 n ← lift (getattr (rcp_name recipient) (VStr []));
                 a ← lift (getattr (rcp_email_address recipient) (VStr []));
                 t ← lift (getattr (rcp_type recipient) (VStr []));
                 mret (recipients
                         ++ [{| rd_name := n; rd_email := a;
                                rd_type := t |}]))
              (fault it) (items it) []
    else mret ([], None));
  match r with
  | Ok (recipients, None) => mret recipients
  | Ok (recipients, Some e) =>
      logger DEBUG "Alıcı bilgisi çıkarılamadı: {}" (ExnArg e);;
      mret recipients
  | Raise e =>
      logger DEBUG "Alıcı bilgisi çıkarılamadı: {}" (ExnArg e);;
      mret []
  end.

(** The file name [_save_attachment] derives from the declared one. *)
Definition keep_char (c : N) : bool :=
  isalnum c || (c =? 32) || (c =? 45) || (c =? 95) || (c =? 46).

Definition safe_filename (filename : pystr) (index : nat) : pystr :=
  let kept := rstrip (List.filter keep_char filename) in
  match kept with
  | [] => lit "attachment_" ++ str_of_nat index
  | _ => kept
  end.

(** The characters the generator expression walks over: text gives its
    code points; empty [bytes] gives nothing; non-empty [bytes] gives
    integers, which have no [isalnum]; anything else is not iterable. *)
Definition filename_chars (v : pyval) : outcome pystr :=
  match v with
  | VStr s => Ok s
  | VBytes [] => Ok []
  | VBytes _ => Raise AttributeError
  | _ => Raise TypeError
  end.

(** [_save_attachment] *)
Definition _save_attachment (attachment : Attachment) (email_id : pystr)
    (index : nat) : M (option Path) :=
  r ← attempt (
    out ← gets output_dir;
    let attachments_dir :=
      path_div (path_div out (lit "attachments")) email_id in
    mkdir_parents attachments_dir;;
    filename ← lift (getattr (att_name attachment)
                       (VStr (lit "attachment_" ++ str_of_nat index)));
    chars ← lift (filename_chars filename);
    let file_path := path_div attachments_dir (safe_filename chars index) in
    has ← lift (hasattr (att_data attachment));
    if has : bool return M (option Path) then
      data ← lift (read (att_data attachment));
      if truthy data return M (option Path) then
        f ← open_for_writing file_path (Data []);
        match data with
        | VBytes b => write_file f (Data b);; mret (Some file_path)
        | _ => raise TypeError
        end
      else mret None
    else mret None);
  match r with
  | Ok saved => mret saved
  | Raise e =>
      logger WARNING "Ek dosya kaydetme hatası: {}" (ExnArg e);;
      mret None
  end.

Definition append_attachment (a : attachment_data) (s : state) : state :=
  let r := analysis_results s in
  set_results
    {| emails := emails r; contacts := contacts r; calendar := calendar r;
       tasks := tasks r; notes := notes r; journal := journal r;
       attachments := attachments r ++ [a]; stats := stats r |} s.

(** [_extract_attachments] *)
Definition _extract_attachments (message : Message) (email_id : pystr)
  : M (list attachment_data) :=
  r ← attempt (
    has ← lift (hasattr (msg_attachments message));
    if has : bool return M (list attachment_data * option exn) then
      it ← lift (read (msg_attachments message));
      for_acc (fun found '(i, attachment) =>
                 n ← lift (getattr (att_name attachment)
                             (VStr (lit "attachment_" ++ str_of_nat i)));
                 sz ← lift (getattr (att_size attachment) (VInt 0));
                 ty ← lift (getattr (att_attachment_type attachment)
                              (VStr []));
                 saved_path ← _save_attachment attachment email_id i;
                 let attachment_data :=
                   {| ad_email_id := email_id; ad_index := i;
                      ad_name := n; ad_size := sz; ad_type := ty;
                      ad_saved_path := path_str <$> saved_path |} in
                 modify (append_attachment attachment_data);;
                 mret (found ++ [attachment_data]))
              (fault it)
              (zip (seq 0 (length (items it))) (items it)) []
    else mret ([], None));
  match r with
  | Ok (found, None) => mret found
  | Ok (found, Some e) =>
      logger DEBUG "Ek dosya çıkarma hatası: {}" (ExnArg e);;
      mret found
  | Raise e =>
      logger DEBUG "Ek dosya çıkarma hatası: {}" (ExnArg e);;
      mret []
  end.

(** *** The email normaliser and the folder walk *)

(** [_extract_single_email] *)
Definition _extract_single_email (message : Message) (folder_path : pyval)
  : M (option email_data) :=
  r ← attempt (
    email_id ← _generate_email_id message;
    subject ← lift (getattr (msg_subject message) (VStr []));
    sender_name ← lift (getattr (msg_sender_name message) (VStr []));
    sender_email ←
      lift (getattr (msg_sender_email_address message) (VStr []));
    body_plain ← lift (getattr (msg_plain_text_body message) (VStr []));
    body_html ← lift (getattr (msg_html_body message) (VStr []));
    recipients ← _extract_recipients message;
    delivery ← lift (getattr (msg_delivery_time message) VNone);
    creation ← lift (getattr (msg_creation_time message) VNone);
    modification ← lift (getattr (msg_modification_time message) VNone);
    size ← lift (getattr (msg_size message) (VInt 0));
    plain ← lift (preview (decoded body_plain));
    html ← lift (preview (decoded body_html));
    message_class ← lift (getattr (msg_message_class message) (VStr []));
    priority ← lift (getattr (msg_priority message) (VStr []));
    importance ← lift (getattr (msg_importance message) (VStr []));
    found ← _extract_attachments message email_id;
    categories ← lift (getattr (msg_categories message) (VStr []));
    read_flag ← lift (getattr (msg_is_read message) (VBool false));
    mret {| e_id := email_id;
            e_folder := folder_path;
            e_subject := decoded subject;
            e_sender_name := decoded sender_name;
            e_sender_email := decoded sender_email;
            e_recipients := recipients;
            e_delivery_time := _format_datetime delivery;
            e_creation_time := _format_datetime creation;
            e_modification_time := _format_datetime modification;
            e_size := size;
            e_body_plain := plain;
            e_body_html := html;
            e_message_class := py_str message_class;
            e_priority := py_str priority;
            e_importance := py_str importance;
            e_attachments := found;
            e_categories := py_str categories;
            e_read_flag := read_flag |});
  match r with
  | Ok email_data => mret (Some email_data)
  | Raise e =>
      logger WARNING "E-posta veri çıkarma hatası: {}" (ExnArg e);;
      mret None
  end.

(** The body of the message loop of [extract_emails]. *)
Definition visit_message (parent_path : pyval) (emails : list email_data)
    (message : Message) : M (list email_data) :=
  r ← attempt (_extract_single_email message parent_path);
  match r with
  | Ok (Some email_data) => mret (emails ++ [email_data])
  | Ok None => mret emails
  | Raise e =>
      logger WARNING "E-posta işlenirken hata: {}" (ExnArg e);;
      mret emails
  end.

(** [f'{parent_path}/{name}' if parent_path else name] *)
Definition child_path (parent_path : pyval) (name : pyval) : pyval :=
  if truthy parent_path
  then VStr (py_str parent_path ++ lit "/" ++ py_str name)
  else name.

(** [extract_emails(folder, parent_path)] on a given folder.  The
    [try] block hands back the list as far as it got. *)
Fixpoint extract_emails_at (folder : Folder) (parent_path : pyval)
  : M (list email_data) :=
  r ← (match sub_folders folder with
       | Absent => mret ([], Some AttributeError)
       | Faulty e => mret ([], Some e)
       | Present subs =>
           '(emails, err) ←
             for_acc (fun emails sub_folder =>
                        nm ← lift (read (name sub_folder));
                        let folder_path := child_path parent_path nm in
                        logger INFO "Klasör işleniyor: {}"
                               (TextArg (py_str folder_path));;
                        more ← extract_emails_at sub_folder folder_path;
                        mret (emails ++ more))
                     (fault subs) (items subs) [];
           match err with
           | Some e => mret (emails, Some e)
           | None =>
               match read (sub_messages folder) with
               | Raise e => mret (emails, Some e)
               | Ok msgs =>
                   for_acc (visit_message parent_path)
                           (fault msgs) (items msgs) emails
               end
           end
       end : M (list email_data * option exn));
  match r with
  | (emails, None) => mret emails
  | (emails, Some e) =>
      logger ERROR "E-posta çıkarma hatası: {}" (ExnArg e);;
      mret emails
  end.

(** [self.pst_file.root_folder] *)
Definition the_root_folder : M Folder :=
  pf ← gets pst_file;
  match pf with
  | Some f => lift (read (root_folder f))
  | None => raise AttributeError
  end.

(** [extract_emails] *)
Definition extract_emails (folder : option Folder) (parent_path : pyval)
  : M (list email_data) :=
  match folder with
  | Some f => extract_emails_at f parent_path
  | None =>
      r ← attempt the_root_folder;
      match r with
      | Ok root =>
          logger INFO "E-posta çıkarma işlemi başlatıldı..." NoArg;;
          extract_emails_at root parent_path
      | Raise e =>
          logger ERROR "E-posta çıkarma hatası: {}" (ExnArg e);;
          mret []
      end
  end.

(** *** The other item kinds *)

(** [except (AttributeError, TypeError): pass] *)
Definition swallow {A} (o : outcome A) (fallback : A) : outcome A :=
  match o with
  | Raise AttributeError | Raise TypeError => Ok fallback
  | _ => o
  end.

(** The first [try] of [_find_folder_by_name]: is this the folder?  A
    value without [lower] raises [AttributeError], which is passed
    over; [bytes] never equal text. *)
Definition name_matches (folder_name : pystr) (folder : Folder)
  : outcome bool :=
  swallow (v ← getattr (name folder) (VStr []);
           if truthy v then
             match v with
             | VStr s => Ok (bool_decide (lower s = lower folder_name))
             | VBytes _ => Ok false
             | _ => Raise AttributeError
             end
           else Ok false) false.

(** [_find_folder_by_name(folder_name, folder)] *)
Fixpoint _find_folder_by_name (folder_name : pystr) (folder : Folder)
  : outcome (option Folder) :=
  match name_matches folder_name folder with
  | Raise e => Raise e
  | Ok true => Ok (Some folder)
  | Ok false =>
      swallow
        match sub_folders folder with
        | Absent => Raise AttributeError
        | Faulty e => Raise e
        | Present subs =>
            (fix go (xs : list Folder) : outcome (option Folder) :=
               match xs with
               | [] => match fault subs with
                       | Some e => Raise e
                       | None => Ok None
                       end
               | sub_folder :: rest =>
                   match _find_folder_by_name folder_name sub_folder with
                   | Ok (Some found) => Ok (Some found)
                   | Ok None => go rest
                   | Raise e => Raise e
                   end
               end) (items subs)
        end None
  end.

(** [if hasattr(message, 'properties'): for prop in ...: pass] *)
Definition scan_properties (message : Message) : outcome unit :=
  has ← hasattr (msg_properties message);
  if has : bool then
    it ← read (msg_properties message);
    match fault it with
    | Some e => Raise e
    | None => Ok tt
    end
  else Ok tt.

(** The shape shared by [extract_contacts], [extract_calendar],
    [extract_tasks], [extract_notes] and [extract_journal]: find the
    folder by name from the root, and turn each of its messages into a
    record, passing over the ones that fail. *)
Definition extract_named {R} (starting : string) (folder_name : string)
    (missing : string) (item_failed : string) (failed : string)
    (make : Message -> outcome R) : M (list R) :=
  logger INFO starting NoArg;;
  r ← attempt (
    root ← the_root_folder;
    found ← lift (_find_folder_by_name (lit folder_name) root);
    match found return M (list R * option exn) with
    | None => logger WARNING missing NoArg;; mret ([], None)
    | Some folder =>
        msgs ← lift (read (sub_messages folder));
        for_acc (fun acc message =>
                   match make message with
                   | Ok record => mret (acc ++ [record])
                   | Raise e =>
                       logger WARNING item_failed (ExnArg e);; mret acc
                   end)
                (fault msgs) (items msgs) []
    end);
  match r with
  | Ok (found, None) => mret found
  | Ok (found, Some e) => logger ERROR failed (ExnArg e);; mret found
  | Raise e => logger ERROR failed (ExnArg e);; mret []
  end.

Definition contact_of (message : Message) : outcome contact_data :=
  display_name ← getattr (msg_subject message) (VStr []);
  email_address ← getattr (msg_sender_email_address message) (VStr []);
  creation ← getattr (msg_creation_time message) VNone;
  modification ← getattr (msg_modification_time message) VNone;
  scan_properties message;;
  Ok {| c_display_name := display_name; c_email_address := email_address;
        c_business_phone := []; c_home_phone := []; c_mobile_phone := [];
        c_company := []; c_job_title := [];
        c_creation_time := _format_datetime creation;
        c_modification_time := _format_datetime modification |}.

(** [extract_contacts] *)
Definition extract_contacts : M (list contact_data) :=
  extract_named "Kişi bilgileri çıkarılıyor..." "Contacts"
    "Contacts klasörü bulunamadı" "Kişi işleme hatası: {}"
    "Kişi çıkarma hatası: {}" contact_of.

Definition event_of (message : Message) : outcome event_data :=
  subject ← getattr (msg_subject message) (VStr []);
  start ← getattr (msg_creation_time message) VNone;
  organizer ← getattr (msg_sender_name message) (VStr []);
  body ← getattr (msg_plain_text_body message) (VStr []);
  importance ← getattr (msg_importance message) (VStr []);
  creation ← getattr (msg_creation_time message) VNone;
  scan_properties message;;
  Ok {| ev_subject := subject; ev_location := [];
        ev_start_time := _format_datetime start; ev_end_time := [];
        ev_organizer := organizer; ev_attendees := []; ev_body := body;
        ev_importance := importance;
        ev_creation_time := _format_datetime creation |}.

(** [extract_calendar] *)
Definition extract_calendar : M (list event_data) :=
  extract_named "Takvim kayıtları çıkarılıyor..." "Calendar"
    "Calendar klasörü bulunamadı" "Takvim kaydı işleme hatası: {}"
    "Takvim çıkarma hatası: {}" event_of.

Definition task_of (message : Message) : outcome task_data :=
  subject ← getattr (msg_subject message) (VStr []);
  body ← getattr (msg_plain_text_body message) (VStr []);
  priority ← getattr (msg_priority message) (VStr []);
  creation ← getattr (msg_creation_time message) VNone;
  Ok {| t_subject := subject; t_body := body; t_status := [];
        t_priority := priority; t_due_date := []; t_start_date := [];
        t_completion_date := []; t_percent_complete := 0;
        t_creation_time := _format_datetime creation |}.

(** [extract_tasks] *)
Definition extract_tasks : M (list task_data) :=
  extract_named "Görevler çıkarılıyor..." "Tasks"
    "Tasks klasörü bulunamadı" "Görev işleme hatası: {}"
    "Görev çıkarma hatası: {}" task_of.

Definition note_of (message : Message) : outcome note_data :=
  subject ← getattr (msg_subject message) (VStr []);
  body ← getattr (msg_plain_text_body message) (VStr []);
  creation ← getattr (msg_creation_time message) VNone;
  modification ← getattr (msg_modification_time message) VNone;
  size ← getattr (msg_size message) (VInt 0);
  Ok {| n_subject := subject; n_body := body;
        n_creation_time := _format_datetime creation;
        n_modification_time := _format_datetime modification;
        n_color := []; n_size := size |}.

(** [extract_notes] *)
Definition extract_notes : M (list note_data) :=
  extract_named "Notlar çıkarılıyor..." "Notes"
    "Notes klasörü bulunamadı" "Not işleme hatası: {}"
    "Not çıkarma hatası: {}" note_of.

Definition journal_of (message : Message) : outcome journal_data :=
  subject ← getattr (msg_subject message) (VStr []);
  body ← getattr (msg_plain_text_body message) (VStr []);
  start ← getattr (msg_creation_time message) VNone;
  creation ← getattr (msg_creation_time message) VNone;
  Ok {| j_subject := subject; j_body := body; j_entry_type := [];
        j_start_time := _format_datetime start; j_duration := 0;
        j_companies := []; j_contacts := [];
        j_creation_time := _format_datetime creation |}.

(** [extract_journal] *)
Definition extract_journal : M (list journal_data) :=
  extract_named "Günlük kayıtları çıkarılıyor..." "Journal"
    "Journal klasörü bulunamadı" "Günlük kaydı işleme hatası: {}"
    "Günlük çıkarma hatası: {}" journal_of.

(** *** Statistics *)

(** [generate_statistics] *)
Definition generate_statistics : M unit :=
  r ← gets analysis_results;
  t ← datetime_now;
  p ← gets pst_file_path;
  there ← path_exists p;
  size ← (if there : bool then st_size p else mret 0%nat);
  update_results (fun r' =>
    {| emails := emails r'; contacts := contacts r';
       calendar := calendar r'; tasks := tasks r'; notes := notes r';
       journal := journal r'; attachments := attachments r';
       stats := Some (make_statistics r (now t) p size) |}).

(** *** Writers *)

(** [_clean_for_json] *)
Definition _clean_for_json (data : obj) : obj :=
  clean_with (utf8_decode_ignore E) data.

(** [_save_csv_results] *)
Definition _save_csv_results (timestamp : pystr) : M unit :=
  r ← gets analysis_results;
  match emails r with
  | [] => mret tt
  | _ =>
      out ← gets output_dir;
      let csv_file :=
        path_div out (lit "emails_" ++ timestamp ++ lit ".csv") in
      f ← open_for_writing csv_file Unfinished;
      let rows := List.map csv_row_of (emails r) in
      (if forallb row_encodable rows
       then write_file f (CsvDocument fieldnames_of_emails rows)
       else raise UnicodeEncodeError);;
      logger INFO "E-posta CSV kaydedildi: {}" (TextArg (path_str csv_file))
  end.

(** [save_results] *)
Definition save_results (format_type : pystr) : M (option Path) :=
  t ← datetime_now;
  let timestamp := strftime_compact (now t) in
  output_file ←
    (if bool_decide (lower format_type = lit "json")
       return M (option Path)
     then
       out ← gets output_dir;
       let output_file :=
         path_div out (lit "pst_analysis_" ++ timestamp ++ lit ".json") in
       r ← gets analysis_results;
       let clean_results := _clean_for_json (results_obj r) in
       f ← open_for_writing output_file Unfinished;
       match dump_error clean_results with
       | Some e => raise e
       | None => write_file f (JsonDocument clean_results)
       end;;
       logger INFO "JSON sonuçları kaydedildi: {}"
              (TextArg (path_str output_file));;
       mret (Some output_file)
     else mret None);
  _save_csv_results timestamp;;
  mret output_file.

(** *** Opening, closing, and the whole run *)

(** [pypff.file().open(str(path))] *)
Definition pypff_open (p : Path) : M PffFile :=
  f ← gets fs;
  k ← lift (walk f (origin p) (parts p));
  match f !! k with
  | Some (File (Data b)) =>
      match decode_store E b with
      | inl e => raise e
      | inr store => mret store
      end
  | Some _ => raise (OtherError "OSError")
  | None => raise (OtherError "OSError")
  end.

Definition log_store_info (store : PffFile) : M unit :=
  has_version ← lift (hasattr (format_version store));
  (if has_version : bool then
     v ← lift (read (format_version store));
     logger INFO "PST dosya formatı: {}" (TextArg (py_str v))
   else mret tt);;
  has_type ← lift (hasattr (content_type store));
  (if has_type : bool then
     v ← lift (read (content_type store));
     logger INFO "PST dosya türü: {}" (TextArg (py_str v))
   else mret tt);;
  has_size ← lift (hasattr (pff_size store));
  (if has_size : bool then
     v ← lift (read (pff_size store));
     a ← lift (format_thousands v);
     logger INFO "PST dosya boyutu: {} byte" a
   else mret tt).

(** [open_pst_file] *)
Definition open_pst_file : M bool :=
  r ← attempt (
    p ← gets pst_file_path;
    there ← path_exists p;
    if there : bool return M bool then
      modify (set_pst_file (Some unopened));;
      store ← pypff_open p;
      modify (set_pst_file (Some store));;
      logger INFO "PST dosyası başarıyla açıldı: {}"
             (TextArg (path_str p));;
      info ← attempt (log_store_info store);
      match info with
      | Ok _ => mret tt
      | Raise e => logger DEBUG "PST dosya bilgisi alınamadı: {}" (ExnArg e)
      end;;
      mret true
    else
      logger ERROR "PST dosyası bulunamadı: {}" (TextArg (path_str p));;
      mret false);
  match r with
  | Ok opened => mret opened
  | Raise e =>
      logger ERROR "PST dosyası açılamadı: {}" (ExnArg e);;
      mret false
  end.

(** [close_pst_file] *)
Definition close_pst_file : M unit :=
  pf ← gets pst_file;
  match pf with
  | Some _ => logger INFO "PST dosyası kapatıldı" NoArg
  | None => mret tt
  end.

Definition set_emails (x : list email_data) (r : results) : results :=
  {| emails := x; contacts := contacts r; calendar := calendar r;
     tasks := tasks r; notes := notes r; journal := journal r;
     attachments := attachments r; stats := stats r |}.
Definition set_contacts (x : list contact_data) (r : results) : results :=
  {| emails := emails r; contacts := x; calendar := calendar r;
     tasks := tasks r; notes := notes r; journal := journal r;
     attachments := attachments r; stats := stats r |}.
Definition set_calendar (x : list event_data) (r : results) : results :=
  {| emails := emails r; contacts := contacts r; calendar := x;
     tasks := tasks r; notes := notes r; journal := journal r;
     attachments := attachments r; stats := stats r |}.
Definition set_tasks (x : list task_data) (r : results) : results :=
  {| emails := emails r; contacts := contacts r; calendar := calendar r;
     tasks := x; notes := notes r; journal := journal r;
     attachments := attachments r; stats := stats r |}.
Definition set_notes (x : list note_data) (r : results) : results :=
  {| emails := emails r; contacts := contacts r; calendar := calendar r;
     tasks := tasks r; notes := x; journal := journal r;
     attachments := attachments r; stats := stats r |}.
Definition set_journal (x : list journal_data) (r : results) : results :=
  {| emails := emails r; contacts := contacts r; calendar := calendar r;
     tasks := tasks r; notes := notes r; journal := x;
     attachments := attachments r; stats := stats r |}.

(** The extraction step of the run: the six collections, in order. *)
Definition extract_everything : M unit :=
  es ← extract_emails None (VStr []);
  update_results (set_emails es);;
  cs ← extract_contacts;
  update_results (set_contacts cs);;
  evs ← extract_calendar;
  update_results (set_calendar evs);;
  ts ← extract_tasks;
  update_results (set_tasks ts);;
  ns ← extract_notes;
  update_results (set_notes ns);;
  js ← extract_journal;
  update_results (set_journal js).

(** [perform_full_analysis] *)
Definition perform_full_analysis : M bool :=
  r ← attempt (
    logger INFO "=== PST DOSYASI TAM ANALİZİ BAŞLATILIYOR ===" NoArg;;
    opened ← open_pst_file;
    if opened : bool return M bool then
      extract_everything;;
      generate_statistics;;
      save_results (lit "json");;
      close_pst_file;;
      logger INFO "=== ANALİZ TAMAMLANDI ===" NoArg;;
      out ← gets output_dir;
      logger INFO "Çıktı dosyaları: {}" (TextArg (path_str out));;
      mret true
    else mret false);
  match r with
  | Ok done => mret done
  | Raise e =>
      logger ERROR "Analiz hatası: {}" (ExnArg e);;
      close_pst_file;;
      mret false
  end.

(** [Path(text)] *)
Definition path_of (text : pystr) : Path := path_div (MkPath false []) text.

(** [_setup_logging]: the clock is read for the name of the log file,
    and the file handler opens the file for appending, which makes
    it when it is not there.  What is logged afterwards is the log
    output of the methods; the text of the file is not followed. *)
Definition _setup_logging (out : Path) (f : filesystem) (n : nat)
  : outcome filesystem :=
  let log_file :=
    path_div out (lit "pst_analysis_"
                    ++ strftime_compact (now (clock E n)) ++ lit ".log") in
  k ← writable_at f (origin log_file) log_file;
  Ok match f !! k with
     | Some _ => f
     | None => <[k := File Unfinished]> f
     end.

(** [PSTAnalyzer(pst_file_path, output_dir)]: the output directory is
    made, logging is set up, and the results start empty. *)
Definition new_analyzer (pst_path : pystr) (out_dir : option pystr)
    (f : filesystem) (n : nat) : outcome state :=
  let p := path_of pst_path in
  let out :=
    match out_dir with
    | Some d => if bool_decide (d = [])
                then path_div (path_parent p) (lit "pst_analysis")
                else path_of d
    | None => path_div (path_parent p) (lit "pst_analysis")
    end in
  f' ← mkdirs f (origin out) (parts out);
  f'' ← _setup_logging out f' n;
  Ok {| pst_file_path := p; output_dir := out; pst_file := None;
        analysis_results := empty_results; fs := f''; ticks := S n |}.

(** [analyze_pst_file] *)
Definition analyze_pst_file (pst_path : pystr) (out_dir : option pystr)
    (f : filesystem) (n : nat)
  : outcome (outcome bool * state * list log_record) :=
  analyzer ← new_analyzer pst_path out_dir f n;
  Ok (perform_full_analysis analyzer).

End Engine.

(** ** Notions used in the statements *)

Section Notions.

Context (E : environment).

(** The body of the sub-folder loop of [extract_emails]. *)
Definition visit_sub_folder (parent_path : pyval)
    (emails : list email_data) (sub_folder : Folder)
  : M (list email_data) :=
  nm ← lift (read (name sub_folder));
  let folder_path := child_path parent_path nm in
  logger INFO "Klasör işleniyor: {}" (TextArg (py_str folder_path));;
  more ← extract_emails_at E sub_folder folder_path;
  mret (emails ++ more).

(** The items a sequence yields when it can be read. *)
Definition listed {A} (x : attr (iter A)) : list A :=
  match x with
  | Present it => items it
  | _ => []
  end.

Definition listed_name (folder : Folder) : pyval :=
  match name folder with
  | Present v => v
  | _ => VNone
  end.

(** A store presented as a tree: every folder lists its sub-folders
    and its messages without failing, and every sub-folder has a
    readable name. *)
Fixpoint well_listed (folder : Folder) : bool :=
  match sub_folders folder, sub_messages folder with
  | Present (Iter subs None), Present (Iter _ None) =>
      forallb (fun sub =>
                 match name sub with
                 | Present _ => well_listed sub
                 | _ => false
                 end) subs
  | _, _ => false
  end.

(** Depth-first pre-order, as the specification words it: a folder's
    own messages, then its sub-folders in the order listed.  Each
    message comes with the path of its folder. *)
Fixpoint preorder (folder : Folder) (parent_path : pyval)
  : list (Message * pyval) :=
  List.map (fun m => (m, parent_path)) (listed (sub_messages folder))
    ++ match sub_folders folder with
       | Present subs =>
           flat_map (fun sub =>
                       preorder sub
                                (child_path parent_path (listed_name sub)))
                    (items subs)
       | _ => []
       end.

(** Depth-first post-order: the sub-folders in the order listed, then
    the folder's own messages. *)
Fixpoint postorder (folder : Folder) (parent_path : pyval)
  : list (Message * pyval) :=
  match sub_folders folder with
  | Present subs =>
      flat_map (fun sub =>
                  postorder sub (child_path parent_path (listed_name sub)))
               (items subs)
  | _ => []
  end
    ++ List.map (fun m => (m, parent_path)) (listed (sub_messages folder)).

(** Normalising a sequence of messages one after the other, each under
    its folder path, as the message loop does. *)
Fixpoint normalise_all (todo : list (Message * pyval))
    (emails : list email_data) : M (list email_data) :=
  match todo with
  | [] => mret emails
  | (message, path) :: rest =>
      emails' ← visit_message E path emails message;
      normalise_all rest emails'
  end.



(** The run from [s] gets as far as the writers: extraction and
    aggregation end normally, in the state [aggregated], and the run
    ends the way [save_results] ends from there. *)
Definition reaches_serialization (s : state) : Prop :=
  exists aggregated,
    let opened := state_of (open_pst_file E s) in
    let work := extract_everything E;; generate_statistics E in
    result_of (work opened) = Ok tt
    /\ state_of (work opened) = aggregated
    /\ stats (analysis_results aggregated) <> None
    /\ let written := save_results E (lit "json") aggregated in
       state_of (perform_full_analysis E s) = state_of written
       /\ result_of (perform_full_analysis E s)
          = Ok (match result_of written with
                | Ok _ => true
                | Raise _ => false
                end).

(** [m] run from [s] appends [new] to the list it is given and ends
    in [s']. *)
Definition yields (m : list email_data -> M (list email_data))
    (s : state) (new : list email_data) (s' : state) : Prop :=
  forall acc, result_of (m acc s) = Ok (acc ++ new)
              /\ state_of (m acc s) = s'.

(** The walk of [folder] gives what normalising its messages in
    post-order gives, and leaves the same state. *)
Definition walked (folder : Folder) : Prop :=
  forall path s, well_listed folder = true ->
    exists new s',
      result_of (extract_emails_at E folder path s) = Ok new
      /\ state_of (extract_emails_at E folder path s) = s'
      /\ yields (normalise_all (postorder folder path)) s new s'.

End Notions.

(** A path component that names an entry: not empty, not [.] or [..],
    and without a slash. *)
Definition plain_component (c : pystr) : Prop :=
  c <> [] /\ c <> dot /\ c <> dotdot /\ 47 ∉ c.

(** The number of attachment records owned by [email_id]. *)
Definition owned_by (email_id : pystr) (records : list attachment_data)
  : nat :=
  length (List.filter (fun a => bool_decide (ad_email_id a = email_id))
                      records).

(** The counts of a sender list never go up. *)
Definition descending (l : list (pyval * nat)) : Prop :=
  forall i j a b, (i < j)%nat -> l !! i = Some a -> l !! j = Some b ->
                  (snd b <= snd a)%nat.

(** ** Notions used in the proofs *)

(** A computation that always ends normally. *)
Definition total {A} (m : M A) : Prop :=
  forall s, exists a, result_of (m s) = Ok a.

(** A computation that leaves a view [f] of the state as it was. *)
Definition preserves {A X} (f : state -> X) (m : M A) : Prop :=
  forall s, f (state_of (m s)) = f s.

(** The disk [f'] is [f] with some new directories. *)
Definition grows (f f' : filesystem) : Prop :=
  forall k, f' !! k = f !! k \/ (f !! k = None /\ f' !! k = Some Dir).

(** The order of the sender list: the count of [a] is not below that of
    [b]. *)
Definition at_least (a b : pyval * nat) : Prop := (snd b <= snd a)%nat.

(** Text made of ASCII characters only. *)
Definition ascii_text (s : pystr) : Prop := Forall (fun c => c < 128) s.

(** The corpus of a run that found nothing, once the statistics are in. *)
Definition with_stats (st : statistics) : results :=
  {| emails := []; contacts := []; calendar := []; tasks := [];
     notes := []; journal := []; attachments := []; stats := Some st |}.

(** Is this file a tabular export? *)
Definition is_csv (n : node) : bool :=
  match n with
  | File (CsvDocument _ _) => true
  | _ => false
  end.

(** ** Sample stores *)

Module Sample.

Definition ticking (n : nat) : clock_reading :=
  {| now := Datetime 2024 1 2 3 4 (n mod 60) 0;
     timestamp_repr := lit "1704164640." ++ str_of_nat n |}.

Definition created : datetime := Datetime 2024 1 2 3 4 5 0.

Definition blank : Message :=
  {| msg_subject := Absent; msg_sender_name := Absent;
     msg_sender_email_address := Absent; msg_plain_text_body := Absent;
     msg_html_body := Absent; msg_delivery_time := Absent;
     msg_creation_time := Absent; msg_modification_time := Absent;
     msg_size := Absent; msg_message_class := Absent;
     msg_priority := Absent; msg_importance := Absent;
     msg_categories := Absent; msg_is_read := Absent;
     msg_recipients := Absent; msg_attachments := Absent;
     msg_properties := Absent |}.

Definition file (declared : string) : Attachment :=
  {| att_name := Present (VStr (lit declared)); att_size := Present (VInt 3);
     att_attachment_type := Absent; att_data := Present (VBytes [1; 2; 3]) |}.

(** A message with a subject, a sender, a creation time and attachments. *)
Definition mail (subject : string) (files : list Attachment) : Message :=
  {| msg_subject := Present (VStr (lit subject));
     msg_sender_name := Present (VStr (lit "X"));
     msg_sender_email_address := Present (VStr (lit "x@y.z"));
     msg_plain_text_body := Present (VBytes (lit "hello"));
     msg_html_body := Absent;
     msg_delivery_time := Present (VDatetime created);
     msg_creation_time := Present (VDatetime created);
     msg_modification_time := Absent;
     msg_size := Present (VInt 5); msg_message_class := Absent;
     msg_priority := Absent; msg_importance := Absent;
     msg_categories := Absent; msg_is_read := Present (VBool true);
     msg_recipients := Absent;
     msg_attachments := Present (Iter files None);
     msg_properties := Absent |}.

Definition oserror : exn := OtherError "OSError".

(** A message on which every attribute read raises. *)
Definition broken : Message :=
  {| msg_subject := Faulty oserror; msg_sender_name := Faulty oserror;
     msg_sender_email_address := Faulty oserror;
     msg_plain_text_body := Faulty oserror; msg_html_body := Faulty oserror;
     msg_delivery_time := Faulty oserror;
     msg_creation_time := Faulty oserror;
     msg_modification_time := Faulty oserror; msg_size := Faulty oserror;
     msg_message_class := Faulty oserror; msg_priority := Faulty oserror;
     msg_importance := Faulty oserror; msg_categories := Faulty oserror;
     msg_is_read := Faulty oserror; msg_recipients := Faulty oserror;
     msg_attachments := Faulty oserror; msg_properties := Faulty oserror |}.

(** A message whose subject holds a lone surrogate. *)
Definition unencodable : Message :=
  {| msg_subject := Present (VStr [0xD800]);
     msg_sender_name := Absent;
     msg_sender_email_address := Present (VStr (lit "x@y.z"));
     msg_plain_text_body := Absent; msg_html_body := Absent;
     msg_delivery_time := Absent;
     msg_creation_time := Present (VDatetime created);
     msg_modification_time := Absent; msg_size := Absent;
     msg_message_class := Absent; msg_priority := Absent;
     msg_importance := Absent; msg_categories := Absent;
     msg_is_read := Absent; msg_recipients := Absent;
     msg_attachments := Absent; msg_properties := Absent |}.

(** A message with one attachment whose [categories] cannot be read. *)
Definition half_read : Message :=
  {| msg_subject := Present (VStr (lit "report"));
     msg_sender_name := Absent;
     msg_sender_email_address := Present (VStr (lit "x@y.z"));
     msg_plain_text_body := Absent; msg_html_body := Absent;
     msg_delivery_time := Absent;
     msg_creation_time := Present (VDatetime created);
     msg_modification_time := Absent; msg_size := Absent;
     msg_message_class := Absent; msg_priority := Absent;
     msg_importance := Absent; msg_categories := Faulty oserror;
     msg_is_read := Absent; msg_recipients := Absent;
     msg_attachments := Present (Iter [file "report.pdf"] None);
     msg_properties := Absent |}.

Definition folder (nm : string) (subs : list Folder) (msgs : list Message)
  : Folder :=
  MkFolder (Present (VStr (lit nm))) (Present (Iter subs None))
           (Present (Iter msgs None)).

(** root -> [A, B], A -> [A1]; one message in each of A, A1 and B. *)
Definition tree : Folder :=
  folder "" [folder "A" [folder "A1" [] [mail "a1" []]] [mail "a" []];
             folder "B" [] [mail "b" []]] [].

Definition store_of (root : Folder) : PffFile :=
  {| root_folder := Present root; format_version := Absent;
     content_type := Absent; pff_size := Present (VInt 1024) |}.

Definition nothing : Folder := folder "" [] [].

(** Two copies of one message, each with one attachment. *)
Definition twins : Folder :=
  folder "" [] [mail "hello" [file "a.txt"]; mail "hello" [file "b.txt"]].

(** Three messages, the second one broken. *)
Definition three : Folder :=
  folder "" [] [mail "first" []; broken; mail "third" []].

Definition orphaned : Folder := folder "" [] [half_read].

Definition sent_by (sender : string) : Message :=
  {| msg_subject := Absent; msg_sender_name := Absent;
     msg_sender_email_address := Present (VStr (lit sender));
     msg_plain_text_body := Absent; msg_html_body := Absent;
     msg_delivery_time := Absent; msg_creation_time := Absent;
     msg_modification_time := Absent; msg_size := Absent;
     msg_message_class := Absent; msg_priority := Absent;
     msg_importance := Absent; msg_categories := Absent;
     msg_is_read := Absent; msg_recipients := Absent;
     msg_attachments := Absent; msg_properties := Absent |}.

(** Fifteen messages from twelve senders. *)
Definition crowd : Folder :=
  folder "" []
    (List.map sent_by
       ["a"; "b"; "c"; "d"; "c"; "e"; "f"; "g"; "a"; "h"; "i"; "j"; "c";
        "k"; "l"]%string).

(** The decoder of the samples tells the stores apart by the first
    byte of the file. *)
Definition decode (b : pybytes) : exn + PffFile :=
  match b with
  | 1 :: _ => inr (store_of tree)
  | 2 :: _ => inr (store_of nothing)
  | 3 :: _ => inr (store_of twins)
  | 4 :: _ => inr (store_of three)
  | 5 :: _ => inr (store_of orphaned)
  | _ => inl oserror
  end.

Definition env : environment :=
  {| unicode_isalnum := fun _ => false;
     utf8_decode_ignore := fun b => b;
     str_lower := fun s => s;
     clock := ticking;
     decode_store := decode;
     other_size := fun _ => 4096%nat;
     cwd := [] |}.

(** A disk with [/data/<n>.pst] for the five stores and an empty
    [/out]. *)
Definition disk : filesystem :=
  {[ [lit "data"] := Dir;
     [lit "data"; lit "1.pst"] := File (Data [1]);
     [lit "data"; lit "2.pst"] := File (Data [2]);
     [lit "data"; lit "3.pst"] := File (Data [3]);
     [lit "data"; lit "4.pst"] := File (Data [4]);
     [lit "data"; lit "5.pst"] := File (Data [5]);
     [lit "out"] := Dir ]}.

(** An analyzer that has opened [root], with nothing extracted yet. *)
Definition opened (root : Folder) : state :=
  {| pst_file_path := MkPath true [lit "data"; lit "1.pst"];
     output_dir := MkPath true [lit "out"];
     pst_file := Some (store_of root);
     analysis_results := empty_results;
     fs := disk;
     ticks := 1 |}.

(** A new analyzer for the store file [n].pst. *)
Definition fresh (n : string) : state :=
  {| pst_file_path := MkPath true [lit "data"; lit n ++ lit ".pst"];
     output_dir := MkPath true [lit "out"];
     pst_file := None;
     analysis_results := empty_results;
     fs := disk;
     ticks := 1 |}.

End Sample.

(** ** Notions used in the further properties *)

(** The folders of a tree in the order [_find_folder_by_name] looks at
    them: a folder, then the trees of its sub-folders. *)
Fixpoint folders_preorder (folder : Folder) : list Folder :=
  folder :: match sub_folders folder with
            | Present subs => flat_map folders_preorder (items subs)
            | _ => []
            end.

(** The results of [f] on the items up to the first one on which it
    raises. *)
Fixpoint gathered {A B} (f : A -> outcome B) (xs : list A) : list B :=
  match xs with
  | [] => []
  | x :: rest =>
      match f x with
      | Ok b => b :: gathered f rest
      | Raise _ => []
      end
  end.

(** The results of [f] on the items on which it does not raise. *)
Definition readable {A B} (f : A -> outcome B) (xs : list A) : list B :=
  omap (fun x => match f x with Ok b => Some b | Raise _ => None end) xs.

(** The number of emails sent by [k], senders compared the way
    dictionary keys are. *)
Definition sent_count (k : pyval) (es : list email_data) : nat :=
  length (List.filter (fun e => py_eqb k (e_sender_email e)) es).

(** The delivery times that [generate_statistics] looks at. *)
Definition delivery_dates (es : list email_data) : list pystr :=
  List.filter (fun d => negb (bool_decide (d = [])))
              (List.map e_delivery_time es).

(** No [bytes] value in a dictionary or list position. *)
Fixpoint no_bytes (data : obj) : bool :=
  match data with
  | Leaf (VBytes _) => false
  | Leaf _ | Tuple _ => true
  | List xs => forallb no_bytes xs
  | Dict kvs => forallb (fun '(_, v) => no_bytes v) kvs
  end.

(** [senders.get(k)] on the dictionary kept in insertion order. *)
Fixpoint sender_count (k : pyval) (senders : list (pyval * nat))
  : option nat :=
  match senders with
  | [] => None
  | (k', n) :: rest => if py_eqb k' k then Some n else sender_count k rest
  end.

(** The keys of a dictionary differ from one another. *)
Fixpoint distinct_keys (senders : list (pyval * nat)) : Prop :=
  match senders with
  | [] => True
  | (k, _) :: rest =>
      Forall (fun kn => py_eqb k (fst kn) = false) rest /\ distinct_keys rest
  end.

(** The dictionary [_extract_recipients] builds for one recipient. *)
Definition recipient_record (recipient : Recipient) : outcome recipient_data :=
  n ← getattr (rcp_name recipient) (VStr []);
  a ← getattr (rcp_email_address recipient) (VStr []);
  t ← getattr (rcp_type recipient) (VStr []);
  Ok {| rd_name := n; rd_email := a; rd_type := t |}.

(** The loop of [_find_folder_by_name] over the sub-folders: the first
    sub-folder in which [find] finds something ends it. *)
Fixpoint search_in (find : Folder -> outcome (option Folder))
    (stop : option exn) (xs : list Folder) : outcome (option Folder) :=
  match xs with
  | [] => match stop with
          | Some e => Raise e
          | None => Ok None
          end
  | sub_folder :: rest =>
      match find sub_folder with
      | Ok (Some found) => Ok (Some found)
      | Ok None => search_in find stop rest
      | Raise e => Raise e
      end
  end.

Section Names.

Context (E : environment).

(** The folder passes the name test of [_find_folder_by_name]. *)
Definition named (folder_name : pystr) (folder : Folder) : bool :=
  match name_matches E folder_name folder with
  | Ok true => true
  | _ => false
  end.

End Names.

Section Found.

Context (E : environment).

(** The messages of the folder that [_find_folder_by_name] finds from
    the root under the name [folder_name]; none when there is no open
    store, no such folder, or no readable message list. *)
Definition found_messages (folder_name : string) (s : state)
  : list Message :=
  match result_of (the_root_folder s) with
  | Ok root =>
      match _find_folder_by_name E (lit folder_name) root with
      | Ok (Some folder) => listed (sub_messages folder)
      | _ => []
      end
  | Raise _ => []
  end.

End Found.

(** The record [_extract_attachments] builds for the attachment at
    position [i], before the attachment is saved. *)
Definition attachment_record (email_id : pystr)
    (numbered : nat * Attachment) : outcome attachment_data :=
  let '(i, attachment) := numbered in
  n ← getattr (att_name attachment)
              (VStr (lit "attachment_" ++ str_of_nat i));
  sz ← getattr (att_size attachment) (VInt 0);
  ty ← getattr (att_attachment_type attachment) (VStr []);
  Ok {| ad_email_id := email_id; ad_index := i; ad_name := n;
        ad_size := sz; ad_type := ty; ad_saved_path := None |}.

(** A record without its [saved_path]. *)
Definition unsaved (a : attachment_data) : attachment_data :=
  {| ad_email_id := ad_email_id a; ad_index := ad_index a;
     ad_name := ad_name a; ad_size := ad_size a; ad_type := ad_type a;
     ad_saved_path := None |}.

(** [enumerate(xs)] *)
Definition enumerate {A} (xs : list A) : list (nat * A) :=
  zip (seq 0 (length xs)) xs.

(** The number of messages the folders of a tree list. *)
Definition message_count (folder : Folder) : nat :=
  list_sum (List.map (fun f => length (listed (sub_messages f)))
                     (folders_preorder folder)).

(** A date and time of the calendar, from the year 1000 on. *)
Definition calendar_datetime (d : datetime) : Prop :=
  (1000 <= Z.of_nat (year d) <= 9999)%Z
  /\ (1 <= month d <= 12 /\ 1 <= day d <= 31
      /\ hour d < 24 /\ minute d < 60 /\ second d < 60)%nat.

(** [a] is before [b], to the second. *)
Definition before (a b : datetime) : bool :=
  if (year a <? year b)%nat then true
  else if (year b <? year a)%nat then false
  else if (month a <? month b)%nat then true
  else if (month b <? month a)%nat then false
  else if (day a <? day b)%nat then true
  else if (day b <? day a)%nat then false
  else if (hour a <? hour b)%nat then true
  else if (hour b <? hour a)%nat then false
  else if (minute a <? minute b)%nat then true
  else if (minute b <? minute a)%nat then false
  else (second a <? second b)%nat.

(** The [w] decimal digits of [n], the most significant first. *)
Fixpoint digits (w n : nat) : pystr :=
  match w with
  | O => []
  | S w' => digits w' (n / 10) ++ [N.of_nat (48 + n mod 10)]
  end.

(** ** Notions used for the empty store *)

(** A store none of whose folders lists a message. *)
Definition empty_store (store : PffFile) : Prop :=
  forall root, root_folder store = Present root -> message_count root = 0%nat.

(** Every tabular export on [f'] was on [f] already, unchanged. *)
Definition csv_kept (f f' : filesystem) : Prop :=
  forall k n, f' !! k = Some n -> is_csv n = true -> f !! k = Some n.

(** From [s] to [s'] the output directory has stayed where it was and
    no tabular export has been written. *)
Definition quiet (s s' : state) : Prop :=
  output_dir s' = output_dir s /\ csv_kept (fs s) (fs s').

(** A computation that writes no tabular export. *)
Definition writes_no_csv {A} (m : M A) : Prop :=
  forall s, quiet s (state_of (m s)).

(** A sample store of empty folders. *)
Module Hollow.

(** root -> [Inbox, Contacts], Inbox -> [Old]; no folder lists a
    message. *)
Definition tree : Folder :=
  Sample.folder "" [Sample.folder "Inbox" [Sample.folder "Old" [] []] [];
                    Sample.folder "Contacts" [] []] [].

(** The surroundings of the samples, with a decoder that reads every
    store file as this tree. *)
Definition env : environment :=
  {| unicode_isalnum := unicode_isalnum Sample.env;
     utf8_decode_ignore := utf8_decode_ignore Sample.env;
     str_lower := str_lower Sample.env;
     clock := clock Sample.env;
     decode_store := fun _ => inr (Sample.store_of tree);
     other_size := other_size Sample.env;
     cwd := cwd Sample.env |}.

End Hollow.


(** * Properties *)

(** ** Checks of the text and hash functions against known values *)

Example md5_abc :
  MD5.hexdigest (lit "abc") = lit "900150983cd24fb0d6963f7d28e17f72".
Proof. vm_compute. reflexivity. Qed.

Example md5_empty :
  MD5.hexdigest [] = lit "d41d8cd98f00b204e9800998ecf8427e".
Proof. vm_compute. reflexivity. Qed.

Example md5_two_blocks :
  MD5.hexdigest (repeat 97 70) = lit "0f5c6c4e740bfcc08c3c26ccb2673d46".
Proof. vm_compute. reflexivity. Qed.

Example bytes_repr_quotes :
  bytes_repr (lit "a'b") = [98; 34; 97; 39; 98; 34]
  /\ bytes_repr [97; 39; 34; 0; 92; 10; 255]
     = [98; 39; 97; 92; 39; 34] ++ lit "\x00\\\n\xff" ++ [39].
Proof. vm_compute. split; reflexivity. Qed.

Create HintDb total.
Arguments visit_sub_folder : simpl never.
Arguments visit_message : simpl never.
Arguments extract_emails_at : simpl never.
Arguments _extract_single_email : simpl never.

Ltac prj := cbn [fst snd result_of state_of log_of].

(** ** Running monadic code *)

Lemma run_bind {A B} (m : M A) (k : A -> M B) s :
  (m ≫= k) s =
  match m s with
  | (Ok a, s1, l1) =>
      (result_of (k a s1), state_of (k a s1), l1 ++ log_of (k a s1))
  | (Raise e, s1, l1) => (Raise e, s1, l1)
  end.
Proof.
  unfold mbind, M_bind. destruct (m s) as [[[a|e] s1] l1]; [|reflexivity].
  destruct (k a s1) as [[r s2] l2]. reflexivity.
Qed.

Lemma run_eta {A} (x : outcome A * state * list log_record) :
  (result_of x, state_of x, log_of x) = x.
Proof. destruct x as [[? ?] ?]. reflexivity. Qed.

Lemma run_pure {A B} (a : A) (k : A -> M B) s : (mret a ≫= k) s = k a s.
Proof. rewrite run_bind. simpl. apply run_eta. Qed.

Lemma run_lift_ok {A B} (a : A) (k : A -> M B) s :
  (lift (Ok a) ≫= k) s = k a s.
Proof. rewrite run_bind. simpl. apply run_eta. Qed.

Lemma run_lift_raise {A B} e (k : A -> M B) s :
  (lift (Raise e) ≫= k) s = (Raise e, s, []).
Proof. rewrite run_bind. reflexivity. Qed.

Lemma ret_run {A} (a : A) s : (mret a : M A) s = (Ok a, s, []).
Proof. reflexivity. Qed.

Lemma raise_run {A} e s : @raise A e s = (Raise e, s, []).
Proof. reflexivity. Qed.

Lemma run_raise {A B} e (k : A -> M B) s :
  (raise e ≫= k) s = (Raise e, s, []).
Proof. rewrite run_bind. reflexivity. Qed.

Lemma run_gets {A B} (f : state -> A) (k : A -> M B) s :
  (gets f ≫= k) s = k (f s) s.
Proof. rewrite run_bind. simpl. apply run_eta. Qed.

Lemma run_modify {B} (f : state -> state) (k : unit -> M B) s :
  (modify f ≫= k) s = k tt (f s).
Proof. rewrite run_bind. simpl. apply run_eta. Qed.

Lemma run_logger {B} l t a (k : unit -> M B) s :
  (logger l t a ≫= k) s =
  (result_of (k tt s), state_of (k tt s), Log l t a :: log_of (k tt s)).
Proof. rewrite run_bind. reflexivity. Qed.

Lemma run_attempt {A B} (m : M A) (k : outcome A -> M B) s :
  (attempt m ≫= k) s =
  let x := k (result_of (m s)) (state_of (m s)) in
  (result_of x, state_of x, log_of (m s) ++ log_of x).
Proof.
  rewrite run_bind. unfold attempt.
  destruct (m s) as [[r s1] l1]. reflexivity.
Qed.

Lemma run_assoc {A B C} (m : M A) (k : A -> M B) (h : B -> M C) s :
  ((m ≫= k) ≫= h) s = (m ≫= (fun a => k a ≫= h)) s.
Proof.
  rewrite !run_bind. destruct (m s) as [[[a|e] s1] l1]; [|reflexivity].
  rewrite run_bind. destruct (k a s1) as [[[b|e] s2] l2];
    unfold result_of, state_of, log_of; simpl; [|reflexivity].
  destruct (h b s2) as [[r s3] l3]; simpl. rewrite app_assoc. reflexivity.
Qed.

Lemma total_bind {A B} (m : M A) (k : A -> M B) :
  total m -> (forall a, total (k a)) -> total (m ≫= k).
Proof.
  intros Hm Hk s. rewrite run_bind. destruct (Hm s) as [a Ha].
  destruct (m s) as [[[a'|e] s1] l1]; simpl in Ha; [|discriminate].
  destruct (Hk a' s1) as [b Hb]. exists b. exact Hb.
Qed.

Lemma total_ret {A} (a : A) : total (mret a).
Proof. intros s. exists a. reflexivity. Qed.

Lemma total_logger l t a : total (logger l t a).
Proof. intros s. exists tt. reflexivity. Qed.

Lemma total_gets {A} (f : state -> A) : total (gets f).
Proof. intros s. eexists. reflexivity. Qed.

Lemma total_modify f : total (modify f).
Proof. intros s. exists tt. reflexivity. Qed.

Lemma total_attempt {A} (m : M A) : total (attempt m).
Proof. intros s. unfold attempt. destruct (m s) as [[r s1] l1]. eexists. reflexivity. Qed.

Lemma total_for_acc {A L} (body : L -> A -> M L) stop xs :
  forall acc, total (for_acc body stop xs acc).
Proof.
  induction xs as [|x xs IH]; intros acc; simpl.
  - apply total_ret.
  - apply total_bind; [apply total_attempt|].
    intros [acc'|e]; [apply IH | apply total_ret].
Qed.

#[local] Hint Resolve total_ret total_logger total_gets total_modify
  total_attempt total_for_acc : total.

Ltac total_step :=
  first [ apply total_ret | apply total_logger | apply total_gets
        | apply total_modify | apply total_attempt | apply total_for_acc
        | apply total_bind; [|intros ?] ].

Lemma preserves_bind {A B X} (f : state -> X) (m : M A) (k : A -> M B) :
  preserves f m -> (forall a, preserves f (k a)) -> preserves f (m ≫= k).
Proof.
  intros Hm Hk s. rewrite run_bind. specialize (Hm s).
  destruct (m s) as [[[a|e] s1] l1]; prj; cbn [state_of fst snd] in Hm.
  - rewrite <- Hm. apply Hk.
  - exact Hm.
Qed.

Lemma preserves_ret {A X} (f : state -> X) (a : A) : preserves f (mret a).
Proof. intros s. reflexivity. Qed.

Lemma preserves_lift {A X} (f : state -> X) (o : outcome A) :
  preserves f (lift o).
Proof. intros s. reflexivity. Qed.

Lemma preserves_raise {A X} (f : state -> X) e : preserves f (@raise A e).
Proof. intros s. reflexivity. Qed.

Lemma preserves_logger {X} (f : state -> X) l t a : preserves f (logger l t a).
Proof. intros s. reflexivity. Qed.

Lemma preserves_gets {A X} (f : state -> X) (g : state -> A) :
  preserves f (gets g).
Proof. intros s. reflexivity. Qed.

Lemma preserves_modify {X} (f : state -> X) g :
  (forall s, f (g s) = f s) -> preserves f (modify g).
Proof. intros H s. apply H. Qed.

Lemma preserves_attempt {A X} (f : state -> X) (m : M A) :
  preserves f m -> preserves f (attempt m).
Proof.
  intros H s. specialize (H s). unfold attempt.
  destruct (m s) as [[r s1] l1]. exact H.
Qed.

Lemma preserves_for_acc {A L X} (f : state -> X) (body : L -> A -> M L)
    stop xs :
  (forall acc x, preserves f (body acc x)) ->
  forall acc, preserves f (for_acc body stop xs acc).
Proof.
  intros Hb. induction xs as [|x xs IH]; intros acc; cbn [for_acc].
  - apply preserves_ret.
  - apply preserves_bind; [apply preserves_attempt, Hb|].
    intros [acc'|e]; [apply IH | apply preserves_ret].
Qed.

Ltac frame_step :=
  lazymatch goal with
  | |- preserves _ (mret _) => apply preserves_ret
  | |- preserves _ (lift _) => apply preserves_lift
  | |- preserves _ (raise _) => apply preserves_raise
  | |- preserves _ (logger _ _ _) => apply preserves_logger
  | |- preserves _ (gets _) => apply preserves_gets
  | |- preserves _ (attempt _) => apply preserves_attempt
  | |- preserves _ (for_acc _ _ _ _) => apply preserves_for_acc; intros ? ?
  | |- preserves _ (modify _) => apply preserves_modify; intros ?
  | |- preserves _ (mbind _ _) => apply preserves_bind; [|intros ?]
  | |- preserves _ (match ?x with _ => _ end) => destruct x
  end.

Ltac frame := repeat frame_step.

Section Totality.
Context (E : environment).

Lemma total_datetime_now : total (datetime_now E).
Proof. intros s. eexists. reflexivity. Qed.

Lemma total_generate_email_id m : total (_generate_email_id E m).
Proof.
  unfold _generate_email_id. apply total_bind; [apply total_attempt|].
  intros [id|e]; [apply total_ret|].
  apply total_bind; [apply total_datetime_now|]. intros; apply total_ret.
Qed.

Lemma total_extract_single_email m p : total (_extract_single_email E m p).
Proof.
  unfold _extract_single_email. apply total_bind; [apply total_attempt|].
  intros [e|e]; repeat total_step.
Qed.

Lemma total_visit_message p acc m : total (visit_message E p acc m).
Proof.
  unfold visit_message. apply total_bind; [apply total_attempt|].
  intros [[e|]|e]; repeat total_step.
Qed.

Lemma extract_emails_at_unfold folder path :
  extract_emails_at E folder path =
  (r ← (match sub_folders folder with
        | Absent => mret ([], Some AttributeError)
        | Faulty e => mret ([], Some e)
        | Present subs =>
            '(emails, err) ← for_acc (visit_sub_folder E path)
                                     (fault subs) (items subs) [];
            match err with
            | Some e => mret (emails, Some e)
            | None =>
                match read (sub_messages folder) with
                | Raise e => mret (emails, Some e)
                | Ok msgs => for_acc (visit_message E path)
                                     (fault msgs) (items msgs) emails
                end
            end
        end : M (list email_data * option exn));
   match r with
   | (emails, None) => mret emails
   | (emails, Some e) =>
       logger ERROR "E-posta çıkarma hatası: {}" (ExnArg e);; mret emails
   end).
Proof. destruct folder. reflexivity. Qed.

Lemma total_extract_emails_at folder path : total (extract_emails_at E folder path).
Proof.
  rewrite extract_emails_at_unfold. apply total_bind.
  - destruct (sub_folders folder) as [subs| |e]; try apply total_ret.
    apply total_bind; [apply total_for_acc|]. intros [emails [e|]]; [apply total_ret|].
    destruct (read (sub_messages folder)); [apply total_for_acc | apply total_ret].
  - intros [emails [e|]]; repeat total_step.
Qed.

Lemma total_extract_emails folder path : total (extract_emails E folder path).
Proof.
  destruct folder as [f|]; simpl; [apply total_extract_emails_at|].
  apply total_bind; [apply total_attempt|].
  intros [root|e]; repeat total_step. apply total_extract_emails_at.
Qed.

Lemma total_extract_named {R} a b c d e (make : Message -> outcome R) :
  total (extract_named E a b c d e make).
Proof.
  unfold extract_named. apply total_bind; [apply total_logger|]. intros _.
  apply total_bind; [apply total_attempt|].
  intros [[found [x|]]|x]; repeat total_step.
Qed.
End Totality.

(** ** Induction on folder trees *)

Lemma Folder_tree_ind (P : Folder -> Prop) :
  (forall folder, Forall P (listed (sub_folders folder)) -> P folder) ->
  forall folder, P folder.
Proof.
  intros step. fix IH 1. intros folder. apply step.
  destruct folder as [nm subs msgs]. simpl.
  destruct subs as [[its flt]| |e]; simpl; try constructor.
  induction its as [|sub its IHits]; constructor; [apply IH | exact IHits].
Qed.

Section Order.
Context (E : environment).

Lemma visit_message_yields p m s :
  exists new, yields (fun acc => visit_message E p acc m) s new
                     (state_of (_extract_single_email E m p s)).
Proof.
  unfold yields, visit_message.
  destruct (total_extract_single_email E m p s) as [r Hr].
  exists (match r with Some e => [e] | None => [] end). intros acc.
  rewrite run_attempt, Hr. destruct r as [e|]; simpl.
  - split; reflexivity.
  - rewrite app_nil_r. split; reflexivity.
Qed.

Lemma normalise_all_yields todo :
  forall s, exists new s', yields (normalise_all E todo) s new s'.
Proof.
  induction todo as [|[m p] rest IH]; intros s; simpl.
  - exists [], s. intros acc. rewrite app_nil_r. split; reflexivity.
  - destruct (visit_message_yields p m s) as [n1 H1].
    destruct (IH (state_of (_extract_single_email E m p s))) as (n2 & s2 & H2).
    exists (n1 ++ n2), s2. intros acc. rewrite run_bind.
    destruct (H1 acc) as [Hr Hs].
    destruct (visit_message E p acc m s) as [[[a|e] s1] l1];
      simpl in Hr, Hs; [|discriminate].
    injection Hr as ->. subst s1. unfold result_of, state_of; simpl.
    destruct (H2 (acc ++ n1)) as [Hr2 Hs2].
    rewrite app_assoc. split; assumption.
Qed.

Lemma normalise_all_app a b s n1 s1 n2 s2 :
  yields (normalise_all E a) s n1 s1 ->
  yields (normalise_all E b) s1 n2 s2 ->
  yields (normalise_all E (a ++ b)) s (n1 ++ n2) s2.
Proof.
  revert s n1 s1. induction a as [|[m p] a IH]; intros s n1 s1 Ha Hb acc.
  - destruct (Ha []) as [Hr Hs]. simpl in Hr, Hs. injection Hr as <-. subst s1.
    simpl. apply Hb.
  - simpl. rewrite run_bind.
    destruct (visit_message_yields p m s) as [n0 H0].
    pose proof (Ha acc) as Hacc. simpl in Hacc. rewrite run_bind in Hacc.
    destruct (H0 acc) as [Hr0 Hs0].
    destruct (visit_message E p acc m s) as [[[x|e] sx] lx];
      simpl in Hr0, Hs0; [|discriminate].
    injection Hr0 as ->. unfold result_of, state_of in *; simpl in *.
    destruct (normalise_all_yields a sx) as (na & sa & Hna).
    assert (n1 = n0 ++ na /\ s1 = sa) as [-> ->].
    { destruct (Hna (acc ++ n0)) as [R1 R2]. destruct Hacc as [Q1 Q2].
      unfold result_of, state_of in *. rewrite R1 in Q1. rewrite R2 in Q2.
      injection Q1 as Q1. rewrite <- app_assoc in Q1.
      apply app_inv_head in Q1. auto. }
    destruct (IH sx na sa Hna Hb (acc ++ n0)) as [R1 R2].
    unfold result_of, state_of in *.
    rewrite R1, R2. rewrite !app_assoc. auto.
Qed.

Lemma message_loop_yields p stop msgs s :
  exists new s',
    yields (normalise_all E (List.map (fun m => (m, p)) msgs)) s new s'
    /\ forall acc,
        result_of (for_acc (visit_message E p) stop msgs acc s)
        = Ok (acc ++ new, stop)
        /\ state_of (for_acc (visit_message E p) stop msgs acc s) = s'.
Proof.
  revert s. induction msgs as [|m msgs IH]; intros s.
  - exists [], s. split; intros acc; simpl; rewrite app_nil_r; auto.
  - destruct (visit_message_yields p m s) as [n0 H0].
    destruct (IH (state_of (_extract_single_email E m p s)))
      as (n1 & s1 & Hy & Hl).
    exists (n0 ++ n1), s1. split.
    + change (List.map (fun m => (m, p)) (m :: msgs))
        with ([(m, p)] ++ List.map (fun m => (m, p)) msgs).
      eapply normalise_all_app; [|exact Hy].
      intros acc. simpl. rewrite run_bind. destruct (H0 acc) as [R1 R2].
      destruct (visit_message E p acc m s) as [[[x|e] sx] lx];
        simpl in R1, R2; [|discriminate].
      injection R1 as ->. subst. auto.
    + intros acc. simpl. rewrite run_attempt. destruct (H0 acc) as [R1 R2].
      rewrite R1, R2. destruct (Hl (acc ++ n0)) as [Q1 Q2].
      unfold result_of, state_of in *; simpl. rewrite Q1, Q2.
      rewrite app_assoc. auto.
Qed.

Lemma visit_sub_folder_run path acc sub s nm n0 s0 :
  name sub = Present nm ->
  result_of (extract_emails_at E sub (child_path path nm) s) = Ok n0 ->
  state_of (extract_emails_at E sub (child_path path nm) s) = s0 ->
  result_of (visit_sub_folder E path acc sub s) = Ok (acc ++ n0)
  /\ state_of (visit_sub_folder E path acc sub s) = s0.
Proof.
  intros Hname R1 R2. unfold visit_sub_folder. rewrite Hname. simpl.
  rewrite run_lift_ok, run_logger. simpl. rewrite run_bind.
  destruct (extract_emails_at E sub (child_path path nm) s)
    as [[[x|e] sx] lx]; simpl in R1, R2; [|discriminate].
  injection R1 as ->. subst sx. simpl. auto.
Qed.

Lemma sub_folder_loop_yields path subs :
  Forall (walked E) subs ->
  forallb (fun sub => match name sub with
                      | Present _ => well_listed sub
                      | _ => false
                      end) subs = true ->
  forall s, exists new s',
    yields (normalise_all E
              (flat_map (fun sub =>
                           postorder sub (child_path path (listed_name sub)))
                        subs)) s new s'
    /\ forall acc,
        result_of (for_acc (visit_sub_folder E path) None subs acc s)
        = Ok (acc ++ new, None)
        /\ state_of (for_acc (visit_sub_folder E path) None subs acc s) = s'.
Proof.
  induction 1 as [|sub subs Hsub _ IH]; intros Hwl s.
  - exists [], s. split; intros acc; simpl; rewrite app_nil_r; auto.
  - simpl in Hwl. apply andb_true_iff in Hwl as [Hn Hrest].
    destruct (name sub) as [nm| |] eqn:Hname; try discriminate.
    destruct (Hsub (child_path path nm) s Hn) as (n0 & s0 & R1 & R2 & Hy0).
    destruct (IH Hrest s0) as (n1 & s1 & Hy1 & Hl1).
    exists (n0 ++ n1), s1. split.
    + simpl. unfold listed_name at 1. rewrite Hname.
      eapply normalise_all_app; eassumption.
    + intros acc. simpl. rewrite run_attempt.
      destruct (visit_sub_folder_run path acc sub s nm n0 s0 Hname R1 R2)
        as [V1 V2].
      rewrite V1, V2. simpl. rewrite app_assoc. exact (Hl1 (acc ++ n0)).
Qed.

Lemma extract_emails_at_walked folder : walked E folder.
Proof.
  induction folder as [folder IH] using Folder_tree_ind.
  intros path s Hwl. rewrite extract_emails_at_unfold.
  destruct folder as [nm subs msgs]. simpl in *.
  destruct subs as [[its [e|]]| |e]; try discriminate.
  destruct msgs as [[ms [e|]]| |e]; try discriminate. simpl in *.
  destruct (sub_folder_loop_yields path its IH Hwl s) as (n0 & s0 & Hy0 & Hl0).
  destruct (message_loop_yields path None ms s0) as (n1 & s1 & Hy1 & Hl1).
  exists (n0 ++ n1), s1.
  destruct (Hl0 []) as [Q1 Q2]. destruct (Hl1 n0) as [Q3 Q4].
  rewrite run_bind, run_bind.
  destruct (for_acc (visit_sub_folder E path) None its [] s)
    as [[[x|e] sx] lx]; simpl in Q1, Q2; [|discriminate].
  injection Q1 as ->. subst sx. unfold result_of, state_of, log_of in *. simpl.
  destruct (for_acc (visit_message E path) None ms n0 s0)
    as [[[y|e] sy] ly]; simpl in Q3, Q4; [|discriminate].
  injection Q3 as ->. subst sy. simpl.
  split; [reflexivity|]. split; [reflexivity|].
  eapply normalise_all_app; eassumption.
Qed.

End Order.

(** ** The run *)

Section Run.
Context (E : environment).

Lemma path_exists_run p s :
  exists b, path_exists E p s = (Ok b, s, []).
Proof.
  unfold path_exists. rewrite run_gets.
  destruct (walk (fs s) (origin E p) (parts p)); eexists; reflexivity.
Qed.

Lemma st_size_run p s :
  path_exists E p s = (Ok true, s, []) ->
  exists n, st_size E p s = (Ok n, s, []).
Proof.
  unfold path_exists, st_size. rewrite !run_gets.
  destruct (walk (fs s) (origin E p) (parts p)) as [k|e]; [|discriminate].
  rewrite run_lift_ok. unfold mret, M_ret. intros H.
  injection H as H. destruct k as [|c k]; [eexists; reflexivity|].
  simpl in H. destruct (fs s !! (c :: k)) as [[|[b| | |]]|];
    try discriminate; eexists; reflexivity.
Qed.

Lemma generate_statistics_run s :
  exists size,
    generate_statistics E s
    = (Ok tt,
       set_results
         (let r := analysis_results s in
          {| emails := emails r; contacts := contacts r;
             calendar := calendar r; tasks := tasks r; notes := notes r;
             journal := journal r; attachments := attachments r;
             stats := Some (make_statistics r (now (clock E (ticks s)))
                                            (pst_file_path s) size) |})
         (set_ticks (S (ticks s)) s),
       []).
Proof.
  unfold generate_statistics. rewrite run_gets, run_bind. simpl.
  rewrite run_gets. simpl. rewrite run_bind.
  destruct (path_exists_run (pst_file_path s) (set_ticks (S (ticks s)) s))
    as [b Hb]. rewrite Hb. simpl.
  destruct b.
  - destruct (st_size_run _ _ Hb) as [n Hn]. exists n.
    rewrite run_bind, Hn. reflexivity.
  - exists 0%nat. rewrite run_pure. reflexivity.
Qed.

Lemma total_generate_statistics : total (generate_statistics E).
Proof.
  intros s. destruct (generate_statistics_run s) as [n ->]. eexists; reflexivity.
Qed.

Lemma total_extract_everything : total (extract_everything E).
Proof.
  unfold extract_everything, extract_contacts, extract_calendar,
    extract_tasks, extract_notes, extract_journal.
  repeat first [ apply total_extract_emails | apply total_extract_named
               | apply total_modify
               | apply total_bind; [|intros ?] ].
Qed.

Lemma total_open_pst_file : total (open_pst_file E).
Proof.
  unfold open_pst_file. apply total_bind; [apply total_attempt|].
  intros [b|e]; repeat total_step.
Qed.

Lemma total_close_pst_file : total close_pst_file.
Proof.
  unfold close_pst_file. apply total_bind; [apply total_gets|].
  intros [f|]; repeat total_step.
Qed.

(** The state does not change when the store is only logged about. *)
Lemma close_pst_file_state s : state_of (close_pst_file s) = s.
Proof.
  unfold close_pst_file. rewrite run_gets. destruct (pst_file s); reflexivity.
Qed.

Lemma perform_after_open s :
  result_of (open_pst_file E s) = Ok true -> reaches_serialization E s.
Proof.
  intros Hopen. unfold reaches_serialization.
  set (opened := state_of (open_pst_file E s)).
  set (work := extract_everything E;; generate_statistics E).
  assert (Hwork : exists agg, result_of (work opened) = Ok tt
                              /\ state_of (work opened) = agg
                              /\ stats (analysis_results agg) <> None).
  { unfold work. rewrite run_bind.
    destruct (total_extract_everything opened) as [[] Hx].
    destruct (extract_everything E opened) as [[[[]|e] s1] l1];
      simpl in Hx; [|discriminate].
    destruct (generate_statistics_run s1) as [n ->]. prj.
    eexists. split; [reflexivity|]. split; [reflexivity|]. discriminate. }
  destruct Hwork as (agg & W1 & W2 & W3). exists agg.
  split; [exact W1|]. split; [exact W2|]. split; [exact W3|].
  unfold perform_full_analysis. rewrite run_attempt.
  rewrite run_logger. rewrite run_bind.
  fold opened.
  destruct (open_pst_file E s) as [[[b|e] so] lo] eqn:Ho; simpl in Hopen;
    [|discriminate]. injection Hopen as ->. simpl in opened. subst opened.
  simpl. rewrite run_bind.
  destruct (extract_everything E so) as [[[[]|e] s1] l1] eqn:Hx.
  2:{ unfold work in W1. rewrite run_bind, Hx in W1. discriminate. }
  simpl. rewrite run_bind.
  unfold work in W1, W2. rewrite run_bind, Hx in W1, W2. simpl in W1, W2.
  destruct (generate_statistics E s1) as [[[[]|e] s2] l2] eqn:Hg;
    simpl in W1, W2; [|discriminate]. subst s2. prj.
  rewrite run_bind.
  destruct (save_results E (lit "json") agg) as [[[o|e] s3] l3] eqn:Hs; prj.
  - rewrite run_bind.
    pose proof (close_pst_file_state s3) as Hc.
    destruct (total_close_pst_file s3) as [[] Hct].
    destruct (close_pst_file s3) as [[[[]|e] s4] l4]; simpl in Hc, Hct;
      [|discriminate]. subst s4. prj.
    rewrite run_logger, run_gets, run_logger. prj. auto.
  - rewrite run_logger. prj. rewrite run_bind.
    pose proof (close_pst_file_state s3) as Hc.
    destruct (total_close_pst_file s3) as [[] Hct].
    destruct (close_pst_file s3) as [[[[]|e'] s4] l4]; simpl in Hc, Hct;
      [|discriminate]. subst s4. prj. auto.
Qed.

End Run.

(** ** Failures of one message *)



Section Containment.
Context (E : environment).





End Containment.

Section Folder_level.
Context (E : environment).


(** Opening touches nothing but the handle. *)
Lemma open_pst_file_frame {X} (f : state -> X) :
  (forall h s, f (set_pst_file h s) = f s) ->
  preserves f (open_pst_file E).
Proof.
  intros Hf. unfold open_pst_file, path_exists, pypff_open, log_store_info.
  frame; rewrite ?Hf; reflexivity.
Qed.

Lemma perform_open_failed s :
  result_of (open_pst_file E s) = Ok false ->
  result_of (perform_full_analysis E s) = Ok false
  /\ state_of (perform_full_analysis E s) = state_of (open_pst_file E s).
Proof.
  intros H. unfold perform_full_analysis.
  rewrite run_attempt, run_logger, run_bind.
  destruct (open_pst_file E s) as [[[b|e] so] lo]; cbn [result_of fst] in H;
    [|discriminate].
  injection H as ->. split; reflexivity.
Qed.

Lemma open_fails_when_missing s :
  result_of (path_exists E (pst_file_path s) s) = Ok false ->
  result_of (open_pst_file E s) = Ok false.
Proof.
  intros H. unfold open_pst_file. rewrite run_attempt, run_gets, run_bind.
  destruct (path_exists_run E (pst_file_path s) s) as [b Hb].
  rewrite Hb in H |- *. injection H as ->. cbv beta iota.
  rewrite run_logger. reflexivity.
Qed.

Lemma open_fails_when_unreadable s e :
  result_of (pypff_open E (pst_file_path s) s) = Raise e ->
  result_of (open_pst_file E s) = Ok false.
Proof.
  intros H. unfold open_pst_file. rewrite run_attempt, run_gets, run_bind.
  destruct (path_exists_run E (pst_file_path s) s) as [b Hb].
  rewrite Hb. destruct b; cbv beta iota.
  - rewrite run_modify, run_bind.
    assert (Hsame : pypff_open E (pst_file_path s)
                               (set_pst_file (Some unopened) s)
                    = (Raise e, set_pst_file (Some unopened) s, [])).
    { revert H. unfold pypff_open. rewrite !run_gets.
      change (fs (set_pst_file (Some unopened) s)) with (fs s).
      destruct (walk (fs s) (origin E (pst_file_path s))
                     (parts (pst_file_path s))) as [k|e'];
        [rewrite !run_lift_ok | rewrite !run_lift_raise].
      - destruct (fs s !! k) as [[|[b| | |]]|];
          try (unfold raise; cbn [result_of fst]; congruence).
        destruct (decode_store E b);
          unfold raise, mret, M_ret; cbn [result_of fst]; congruence.
      - cbn [result_of fst]. congruence. }
    rewrite Hsame. reflexivity.
  - rewrite run_logger. reflexivity.
Qed.

End Folder_level.

(** ** The identity generator *)








Section Identity.
Context (E : environment).


End Identity.

(** ** The file-name sanitiser *)

Lemma lstrip_split s :
  exists ws, s = ws ++ lstrip s /\ Forall (fun c => isspace c = true) ws.
Proof.
  induction s as [|c s (ws & Hs & Hws)]; simpl.
  - exists []. split; [reflexivity | constructor].
  - destruct (isspace c) eqn:Hc.
    + exists (c :: ws). split; [simpl; congruence | constructor; assumption].
    + exists []. split; [reflexivity | constructor].
Qed.

Lemma lstrip_head s c : head (lstrip s) = Some c -> isspace c = false.
Proof.
  induction s as [|x s IH]; simpl; [discriminate|].
  destruct (isspace x) eqn:Hx; [exact IH|]. simpl. congruence.
Qed.

Lemma rstrip_split s :
  exists ws, s = rstrip s ++ ws /\ Forall (fun c => isspace c = true) ws.
Proof.
  destruct (lstrip_split (rev s)) as (ws & Hs & Hws).
  exists (rev ws). split.
  - unfold rstrip. rewrite <- rev_app_distr, <- Hs, rev_involutive. reflexivity.
  - apply Forall_rev. exact Hws.
Qed.

Lemma rstrip_last s c : last (rstrip s) = Some c -> isspace c = false.
Proof.
  unfold rstrip. intros H. apply (lstrip_head (rev s)).
  destruct (lstrip (rev s)) as [|x l]; simpl in *; [discriminate|].
  rewrite last_snoc in H. exact H.
Qed.

Lemma rstrip_elem s c : c ∈ rstrip s -> c ∈ s.
Proof.
  destruct (rstrip_split s) as (ws & Hs & _). intros H.
  rewrite Hs. apply elem_of_app. left. exact H.
Qed.

(** ** The ten largest senders *)

Lemma insert_desc_elem x l y : y ∈ insert_desc x l -> y = x \/ y ∈ l.
Proof.
  induction l as [|z l IH]; simpl.
  - intros H. apply list_elem_of_singleton in H. auto.
  - destruct (snd z <=? snd x)%nat.
    + intros H. apply elem_of_cons in H as [->|H]; auto.
    + intros H. apply elem_of_cons in H as [->|H].
      * right. apply elem_of_cons. auto.
      * destruct (IH H) as [->|H']; auto. right. apply elem_of_cons. auto.
Qed.

Lemma insert_desc_sorted x l :
  StronglySorted at_least l -> StronglySorted at_least (insert_desc x l).
Proof.
  induction 1 as [|z l Hl IH Hz]; simpl.
  - repeat constructor.
  - destruct (Nat.leb_spec (snd z) (snd x)) as [Hle|Hgt].
    + constructor; [constructor; assumption|].
      constructor; [exact Hle|].
      eapply Forall_impl; [exact Hz|]. unfold at_least. intros; lia.
    + constructor; [exact IH|].
      apply Forall_forall. intros y Hy. apply insert_desc_elem in Hy as [->|Hy].
      * unfold at_least. lia.
      * rewrite Forall_forall in Hz. apply Hz, Hy.
Qed.

Lemma sorted_desc_sorted l : StronglySorted at_least (sorted_desc l).
Proof.
  induction l as [|x l IH]; simpl; [constructor | apply insert_desc_sorted, IH].
Qed.

Lemma StronglySorted_take {A} (R : A -> A -> Prop) n l :
  StronglySorted R l -> StronglySorted R (take n l).
Proof.
  intros H. revert n. induction H as [|x l Hl IH Hx]; intros [|n]; simpl;
    try constructor; [apply IH|].
  apply Forall_take. exact Hx.
Qed.

Lemma StronglySorted_descending l : StronglySorted at_least l -> descending l.
Proof.
  induction 1 as [|x l Hl IH Hx]; intros i j a b Hij Hi Hj.
  - rewrite lookup_nil in Hi. discriminate.
  - destruct j as [|j]; [lia|]. simpl in Hj. destruct i as [|i].
    + simpl in Hi. injection Hi as <-.
      rewrite Forall_forall in Hx. apply Hx. eapply list_elem_of_lookup_2, Hj.
    + simpl in Hi. eapply IH; [|exact Hi|exact Hj]. lia.
Qed.

Lemma top_ten_descending l :
  (length (take 10 (sorted_desc l)) <= 10)%nat
  /\ descending (take 10 (sorted_desc l)).
Proof.
  split.
  - rewrite length_take. lia.
  - apply StronglySorted_descending, StronglySorted_take, sorted_desc_sorted.
Qed.

(** ** The file system *)

Lemma snoc_ne_self {A} (l : list A) x : l ++ [x] <> l.
Proof.
  intros H. apply (f_equal length) in H. rewrite length_app in H. simpl in H. lia.
Qed.

Lemma is_dir_spec (f : filesystem) k :
  is_dir f k = true <-> k = [] \/ f !! k = Some Dir.
Proof.
  unfold is_dir. destruct k as [|c k]; [tauto|].
  destruct (f !! (c :: k)) as [[|x]|]; split; intros H; auto;
    try discriminate; destruct H as [H|H]; congruence.
Qed.

Lemma grows_refl f : grows f f.
Proof. intros k. auto. Qed.

Lemma grows_trans f1 f2 f3 : grows f1 f2 -> grows f2 f3 -> grows f1 f3.
Proof.
  intros H12 H23 k.
  destruct (H12 k) as [E12|[A B]], (H23 k) as [E23|[A' B']].
  - left. congruence.
  - right. split; congruence.
  - right. split; congruence.
  - congruence.
Qed.

Lemma grows_insert (f : filesystem) k : f !! k = None -> grows f (<[k := Dir]> f).
Proof.
  intros Hk k'. destruct (decide (k = k')) as [->|N].
  - right. rewrite lookup_insert_eq. auto.
  - left. apply lookup_insert_ne. exact N.
Qed.

Lemma grows_is_dir f f' k : grows f f' -> is_dir f k = true -> is_dir f' k = true.
Proof.
  intros G. rewrite !is_dir_spec. intros [->|H]; [auto|]. right.
  destruct (G k) as [Eq|[A B]]; congruence.
Qed.

Lemma mkdirs_grows comps : forall f cur f',
  mkdirs f cur comps = Ok f' -> grows f f'.
Proof.
  induction comps as [|c rest IH]; intros f cur f' H; simpl in H.
  - injection H as <-. apply grows_refl.
  - destruct (is_blank_part c); [eapply IH, H|].
    destruct (is_dir f cur); [|discriminate].
    destruct (bool_decide (c = dotdot)); [eapply IH, H|].
    destruct (f !! (cur ++ [c])) as [[|x]|] eqn:Hl; [eapply IH, H|discriminate|].
    eapply grows_trans; [apply grows_insert, Hl | eapply IH, H].
Qed.

Lemma walk_more_dirs comps : forall (f f' : filesystem) cur d,
  (forall k, is_dir f k = true -> is_dir f' k = true) ->
  walk f cur comps = Ok d -> walk f' cur comps = Ok d.
Proof.
  induction comps as [|c rest IH]; intros f f' cur d G H; simpl in H |- *;
    [exact H|].
  destruct (is_blank_part c); [eapply IH; eassumption|].
  destruct (is_dir f cur) eqn:Hd; [|discriminate].
  rewrite (G _ Hd).
  destruct (bool_decide (c = dotdot)); eapply IH; eassumption.
Qed.

Lemma walk_grows comps f f' cur d :
  grows f f' -> walk f cur comps = Ok d -> walk f' cur comps = Ok d.
Proof.
  intros G. apply walk_more_dirs. intros k. apply grows_is_dir, G.
Qed.

Lemma walk_app a : forall f cur b,
  walk f cur (a ++ b)
  = match walk f cur a with
    | Ok d => walk f d b
    | Raise e => Raise e
    end.
Proof.
  induction a as [|c a IH]; intros f cur b; simpl; [reflexivity|].
  destruct (is_blank_part c); [apply IH|].
  destruct (is_dir f cur); [|reflexivity].
  destruct (bool_decide (c = dotdot)); apply IH.
Qed.

Lemma mkdirs_app a : forall f cur b f',
  mkdirs f cur (a ++ b) = Ok f' ->
  exists f1 d, mkdirs f cur a = Ok f1 /\ walk f1 cur a = Ok d
               /\ mkdirs f1 d b = Ok f'.
Proof.
  induction a as [|c a IH]; intros f cur b f' H; simpl in H |- *.
  - exists f, cur. auto.
  - destruct (is_blank_part c); [apply IH, H|].
    destruct (is_dir f cur) eqn:Hd; [|discriminate].
    destruct (bool_decide (c = dotdot)).
    + destruct (IH _ _ _ _ H) as (f1 & d & M1 & W1 & M2).
      exists f1, d. rewrite (grows_is_dir _ _ _ (mkdirs_grows _ _ _ _ M1) Hd). auto.
    + destruct (f !! (cur ++ [c])) as [[|x]|] eqn:Hl; [|discriminate|].
      * destruct (IH _ _ _ _ H) as (f1 & d & M1 & W1 & M2).
        exists f1, d.
        rewrite (grows_is_dir _ _ _ (mkdirs_grows _ _ _ _ M1) Hd). auto.
      * destruct (IH _ _ _ _ H) as (f1 & d & M1 & W1 & M2).
        exists f1, d. split; [exact M1|]. split; [|exact M2].
        assert (G : grows f f1).
        { eapply grows_trans; [apply grows_insert, Hl | eapply mkdirs_grows, M1]. }
        rewrite (grows_is_dir _ _ _ G Hd). exact W1.
Qed.

Lemma is_blank_plain c : plain_component c -> is_blank_part c = false.
Proof.
  intros (H1 & H2 & _). unfold is_blank_part.
  rewrite !bool_decide_eq_false_2 by assumption. reflexivity.
Qed.

Lemma not_dotdot_plain c : plain_component c -> bool_decide (c = dotdot) = false.
Proof. intros (_ & _ & H & _). apply bool_decide_eq_false_2, H. Qed.

(** Making a directory whose name is plain leaves it in place. *)
Lemma mkdirs_one f d c f' :
  plain_component c -> mkdirs f d [c] = Ok f' ->
  is_dir f' d = true /\ f' !! (d ++ [c]) = Some Dir
  /\ walk f' d [c] = Ok (d ++ [c]) /\ grows f f'.
Proof.
  intros Hc H. pose proof (mkdirs_grows _ _ _ _ H) as G. simpl in H |- *.
  rewrite (is_blank_plain c Hc) in H |- *.
  destruct (is_dir f d) eqn:Hd; [|discriminate].
  rewrite (grows_is_dir _ _ _ G Hd).
  rewrite (not_dotdot_plain c Hc) in H |- *.
  destruct (f !! (d ++ [c])) as [[|x]|] eqn:Hl; try discriminate;
    injection H as <-; repeat split; auto.
  apply lookup_insert_eq.
Qed.

(** ** Paths *)

Lemma split_on_no_separator c s : c ∉ s -> split_on c s = [s].
Proof.
  induction s as [|x s IH]; intros H; simpl; [reflexivity|].
  apply not_elem_of_cons in H as [Hx Hs].
  destruct (N.eqb_spec x c) as [->|_]; [congruence|].
  rewrite (IH Hs). reflexivity.
Qed.

Lemma path_div_one p c :
  47 ∉ c -> c <> [] -> c <> dot ->
  path_div p c = MkPath (absolute p) (parts p ++ [c]).
Proof.
  intros Hs Hn Hd. unfold path_div. rewrite (split_on_no_separator _ _ Hs).
  simpl. unfold is_blank_part.
  rewrite !bool_decide_eq_false_2 by assumption. simpl.
  destruct c as [|x c]; [congruence|].
  destruct (N.eqb_spec x 47) as [->|Hx].
  - exfalso. apply Hs. apply elem_of_cons. auto.
  - destruct x as [|px]; [reflexivity|].
    repeat (destruct px as [px|px|]; try reflexivity); exfalso; apply Hx; reflexivity.
Qed.

Lemma absolute_path_div p c : 47 ∉ c -> absolute (path_div p c) = absolute p.
Proof.
  intros Hs. unfold path_div. destruct c as [|x c]; [reflexivity|].
  destruct (N.eqb_spec x 47) as [->|Hx].
  - exfalso. apply Hs. apply elem_of_cons. auto.
  - destruct x as [|px]; [reflexivity|].
    repeat (destruct px as [px|px|]; try reflexivity); exfalso; apply Hx; reflexivity.
Qed.

Lemma path_div_dot p : path_div p dot = MkPath (absolute p) (parts p ++ []).
Proof. reflexivity. Qed.

Lemma str_of_uint_digits u :
  Forall (fun c => 48 <= c <= 57) (str_of_uint u).
Proof.
  unfold str_of_uint, lit.
  induction u; simpl; [constructor|..];
    (constructor; [vm_compute; split; intros H; discriminate H | assumption]).
Qed.

Lemma str_of_nat_digits n : Forall (fun c => 48 <= c <= 57) (str_of_nat n).
Proof.
  destruct n; [|apply str_of_uint_digits].
  change (str_of_nat 0) with [48]. constructor; [lia | constructor].
Qed.

Lemma component_cases c :
  47 ∉ c -> c <> [] -> c = dot \/ c = dotdot \/ plain_component c.
Proof.
  intros Hs Hn. destruct (decide (c = dot)) as [|Hd]; [auto|].
  destruct (decide (c = dotdot)) as [|Hdd]; [auto|].
  right. right. repeat split; assumption.
Qed.

Section Persister.
Context (E : environment).

Lemma keep_char_no_slash : keep_char E 47 = false.
Proof. reflexivity. Qed.

Lemma safe_filename_shape chars index :
  (47 ∉ safe_filename E chars index)
  /\ safe_filename E chars index <> [].
Proof.
  unfold safe_filename.
  destruct (rstrip (List.filter (keep_char E) chars)) as [|c kept] eqn:Hk.
  - split; [|discriminate]. intros H. apply elem_of_app in H as [H|H].
    + revert H. apply (bool_decide_unpack (47 ∉ lit "attachment_")).
      vm_compute. exact I.
    + pose proof (str_of_nat_digits index) as D. rewrite Forall_forall in D.
      specialize (D _ H). lia.
  - split; [|discriminate]. rewrite <- Hk. intros H.
    apply rstrip_elem in H. apply list_elem_of_In, filter_In in H as [_ H].
    rewrite keep_char_no_slash in H. discriminate.
Qed.

Lemma mkdir_parents_run p s :
  mkdir_parents E p s
  = match mkdirs (fs s) (origin E p) (parts p) with
    | Ok f' => (Ok tt, set_fs f' s, [])
    | Raise e => (Raise e, s, [])
    end.
Proof.
  unfold mkdir_parents. rewrite run_gets.
  destruct (mkdirs (fs s) (origin E p) (parts p));
    [rewrite run_lift_ok | rewrite run_lift_raise]; reflexivity.
Qed.

Lemma open_for_writing_run p c s :
  open_for_writing E p c s
  = match writable_at (fs s) (origin E p) p with
    | Ok k => (Ok k, set_fs (<[k := File c]> (fs s)) s, [])
    | Raise e => (Raise e, s, [])
    end.
Proof.
  unfold open_for_writing. rewrite run_gets.
  destruct (writable_at (fs s) (origin E p) p);
    [rewrite run_lift_ok, run_modify | rewrite run_lift_raise]; reflexivity.
Qed.

Lemma write_file_run k c s :
  write_file k c s = (Ok tt, set_fs (<[k := File c]> (fs s)) s, []).
Proof. unfold write_file. rewrite run_gets. reflexivity. Qed.

Lemma owner_dir_path out email_id :
  plain_component email_id ->
  path_div (path_div out (lit "attachments")) email_id
  = MkPath (absolute out) (parts out ++ [lit "attachments"; email_id]).
Proof.
  intros (H1 & H2 & H3 & H4).
  rewrite (path_div_one out (lit "attachments")).
  - rewrite path_div_one by assumption. simpl. rewrite <- app_assoc. reflexivity.
  - apply (bool_decide_unpack (47 ∉ lit "attachments")). vm_compute. exact I.
  - discriminate.
  - discriminate.
Qed.

Lemma mkdirs_owner f o base a id f' :
  plain_component id ->
  mkdirs f o (base ++ [a; id]) = Ok f' ->
  exists d1,
    is_dir f' d1 = true /\ f' !! (d1 ++ [id]) = Some Dir
    /\ walk f' o (base ++ [a; id]) = Ok (d1 ++ [id]) /\ grows f f'.
Proof.
  intros Hid H. pose proof (mkdirs_grows _ _ _ _ H) as G.
  change (base ++ [a; id]) with (base ++ [a] ++ [id]) in H |- *.
  rewrite app_assoc in H |- *.
  destruct (mkdirs_app _ _ _ _ _ H) as (f1 & d1 & M1 & W1 & M2).
  destruct (mkdirs_one _ _ _ _ Hid M2) as (D1 & L1 & W2 & G2).
  exists d1. repeat split; try assumption.
  rewrite walk_app, (walk_grows _ _ _ _ _ G2 W1). exact W2.
Qed.

(** Where a file can be written under a directory [d] that exists
    together with its parent: only directly in [d], under a plain
    name. *)
Lemma writable_in_directory (f : filesystem) o a base d name k :
  walk f o base = Ok d -> is_dir f d = true ->
  is_dir f (removelast d) = true ->
  (47 ∉ name) -> name <> [] ->
  writable_at f o (path_div (MkPath a base) name) = Ok k ->
  plain_component name /\ k = d ++ [name]
  /\ path_div (MkPath a base) name = MkPath a (base ++ [name])
  /\ is_dir f k = false.
Proof.
  intros W D P Hs Hn H.
  destruct (component_cases name Hs Hn) as [->|[->|Hp]].
  - exfalso. rewrite path_div_dot in H. unfold writable_at in H. simpl in H.
    rewrite app_nil_r, W, D in H. discriminate.
  - exfalso. rewrite path_div_one in H by (assumption || discriminate).
    unfold writable_at in H. simpl in H. rewrite walk_app, W in H.
    simpl in H. rewrite D in H. simpl in H. rewrite P in H. discriminate.
  - destruct Hp as (H1 & H2 & H3 & H4).
    rewrite path_div_one in H |- * by assumption.
    unfold writable_at in H. simpl in H. rewrite walk_app, W in H.
    simpl in H.
    rewrite (is_blank_plain name), D, (not_dotdot_plain name) in H
      by (repeat split; assumption).
    destruct (is_dir f (d ++ [name])) eqn:Dk; [discriminate|].
    assert (k = d ++ [name]) as ->.
    { destruct (f !! (d ++ [name])); [congruence|].
      destruct (is_dir f (removelast (d ++ [name]))); congruence. }
    repeat split; assumption.
Qed.

Lemma save_attachment_effect attachment email_id index s :
  plain_component email_id ->
  let out := output_dir s in
  let owner := parts out ++ [lit "attachments"; email_id] in
  let x := _save_attachment E attachment email_id index s in
  (result_of x = Ok None
   \/ exists declared chars,
        getattr (att_name attachment)
                (VStr (lit "attachment_" ++ str_of_nat index)) = Ok declared
        /\ filename_chars declared = Ok chars
        /\ plain_component (safe_filename E chars index)
        /\ result_of x
           = Ok (Some (MkPath (absolute out)
                              (owner ++ [safe_filename E chars index]))))
  /\ (fs (state_of x) = fs s
      \/ exists f',
           grows (fs s) f'
           /\ (fs (state_of x) = f'
               \/ exists declared chars d c,
                    getattr (att_name attachment)
                            (VStr (lit "attachment_" ++ str_of_nat index))
                    = Ok declared
                    /\ filename_chars declared = Ok chars
                    /\ walk f' (origin E out) owner = Ok d
                    /\ is_dir f' d = true
                    /\ plain_component (safe_filename E chars index)
                    /\ is_dir f' (d ++ [safe_filename E chars index])
                       = false
                    /\ fs (state_of x)
                       = <[d ++ [safe_filename E chars index] := File c]>
                           f')).
Proof.
  intros Hid out owner x. subst x. unfold _save_attachment.
  rewrite run_attempt, run_gets. fold out. cbv zeta.
  rewrite (owner_dir_path out email_id Hid). fold owner.
  rewrite run_bind, mkdir_parents_run.
  change (origin E (MkPath (absolute out) owner)) with (origin E out).
  change (parts (MkPath (absolute out) owner)) with owner.
  destruct (mkdirs (fs s) (origin E out) owner) as [f'|e] eqn:Hmk.
  2:{ prj. rewrite run_logger. prj. auto. }
  destruct (mkdirs_owner _ _ _ _ _ _ Hid Hmk) as (d1 & D1 & L1 & W1 & G).
  assert (Dd : is_dir f' (d1 ++ [email_id]) = true).
  { apply is_dir_spec. auto. }
  assert (Dp : is_dir f' (removelast (d1 ++ [email_id])) = true).
  { rewrite removelast_last. exact D1. }
  prj. cbv beta iota.
  assert (Hnone : forall (l : list log_record) (r : outcome (option Path)),
             (r = Ok None \/ exists e, r = Raise e) ->
             let y := (match r with
                       | Ok saved => mret saved
                       | Raise e =>
                           logger WARNING "Ek dosya kaydetme hatası: {}"
                                  (ExnArg e);; mret None
                       end) (set_fs f' s) in
             result_of y = Ok None /\ fs (state_of y) = f').
  { intros l r [->|[e ->]]; cbv zeta; [|rewrite run_logger]; split; reflexivity. }
  destruct (getattr (att_name attachment)
                    (VStr (lit "attachment_" ++ str_of_nat index)))
    as [declared|e] eqn:Hname.
  2:{ rewrite run_lift_raise. prj.
      destruct (Hnone [] (Raise e)) as [R1 R2]; [eauto|].
      split; [left; exact R1|]. right. exists f'. split; [exact G|]. left. exact R2. }
  rewrite run_lift_ok.
  destruct (filename_chars declared) as [chars|e] eqn:Hchars.
  2:{ rewrite run_lift_raise. prj.
      destruct (Hnone [] (Raise e)) as [R1 R2]; [eauto|].
      split; [left; exact R1|]. right. exists f'. split; [exact G|]. left. exact R2. }
  rewrite run_lift_ok. cbv zeta.
  destruct (hasattr (att_data attachment)) as [[]|e] eqn:Hhas.
  3:{ rewrite run_lift_raise. prj.
      destruct (Hnone [] (Raise e)) as [R1 R2]; [eauto|].
      split; [left; exact R1|]. right. exists f'. split; [exact G|]. left. exact R2. }
  2:{ rewrite run_lift_ok. prj.
      destruct (Hnone [] (Ok None)) as [R1 R2]; [eauto|].
      split; [left; exact R1|]. right. exists f'. split; [exact G|]. left. exact R2. }
  rewrite run_lift_ok. cbv beta iota.
  destruct (read (att_data attachment)) as [data|e] eqn:Hdata.
  2:{ rewrite run_lift_raise. prj.
      destruct (Hnone [] (Raise e)) as [R1 R2]; [eauto|].
      split; [left; exact R1|]. right. exists f'. split; [exact G|]. left. exact R2. }
  rewrite run_lift_ok.
  destruct (truthy data) eqn:Htruthy.
  2:{ prj.
      destruct (Hnone [] (Ok None)) as [R1 R2]; [eauto|].
      split; [left; exact R1|]. right. exists f'. split; [exact G|]. left. exact R2. }
  rewrite run_bind, open_for_writing_run.
  change (fs (set_fs f' s)) with f'.
  destruct (safe_filename_shape chars index) as [Hs Hn].
  set (file_path := path_div (MkPath (absolute out) owner)
                             (safe_filename E chars index)).
  assert (Ho : origin E file_path = origin E out).
  { unfold origin, file_path. rewrite absolute_path_div by exact Hs.
    reflexivity. }
  rewrite Ho.
  destruct (writable_at f' (origin E out) file_path) as [k|e] eqn:Hw.
  2:{ prj.
      destruct (Hnone [] (Raise e)) as [R1 R2]; [eauto|].
      split; [left; exact R1|]. right. exists f'. split; [exact G|]. left. exact R2. }
  destruct (writable_in_directory _ _ _ _ _ _ _ W1 Dd Dp Hs Hn Hw)
    as (Hp & -> & Hfp & Hk).
  assert (Hk' : is_dir f' (d1 ++ [email_id]
                              ++ [safe_filename E chars index]) = false).
  { rewrite app_assoc. exact Hk. }
  prj. destruct data as [|bb|z|t|b|t]; try discriminate.
  1, 2, 3, 5:
    rewrite raise_run; prj; rewrite run_logger; prj;
    (split; [left; reflexivity|]);
    right; exists f'; (split; [exact G|]); right;
    exists declared, chars, (d1 ++ [email_id]), (Data []);
    (split; [reflexivity|]); (split; [exact Hchars|]);
    (split; [exact W1|]); (split; [exact Dd|]); (split; [exact Hp|]);
    (split; [exact Hk|]); reflexivity.
  rewrite run_bind, write_file_run.
  prj. rewrite !ret_run. prj. cbv beta iota. rewrite !ret_run. prj. split.
  - right. exists declared, chars. split; [reflexivity|].
    split; [exact Hchars|]. split; [exact Hp|].
    exact (f_equal (fun p => Ok (Some p)) Hfp).
  - right. exists f'. split; [exact G|]. right.
    exists declared, chars, (d1 ++ [email_id]), (Data b).
    split; [reflexivity|]. split; [exact Hchars|].
    split; [exact W1|]. split; [exact Dd|]. split; [exact Hp|].
    split; [exact Hk|].
    cbn [fs set_fs]. rewrite insert_insert_eq. reflexivity.
Qed.

Lemma save_attachment_frame {X} (f : state -> X) attachment email_id index :
  (forall g s, f (set_fs g s) = f s) ->
  preserves f (_save_attachment E attachment email_id index).
Proof.
  intros Hf. unfold _save_attachment, mkdir_parents, open_for_writing,
    write_file.
  frame; rewrite ?Hf; reflexivity.
Qed.

Lemma total_save_attachment attachment email_id index :
  total (_save_attachment E attachment email_id index).
Proof.
  unfold _save_attachment. apply total_bind; [apply total_attempt|].
  intros [r|e]; repeat total_step.
Qed.

End Persister.

(** ** Attachment records and their owners *)

Lemma for_acc_invariant {A L} (P : L -> state -> Prop)
    (body : L -> A -> M L) stop xs :
  (forall acc x s, P acc s ->
     match body acc x s with
     | (Ok acc', s', _) => P acc' s'
     | (Raise _, s', _) => P acc s'
     end) ->
  forall acc s, P acc s ->
    exists acc' o,
      result_of (for_acc body stop xs acc s) = Ok (acc', o)
      /\ P acc' (state_of (for_acc body stop xs acc s)).
Proof.
  intros Hb. induction xs as [|x xs IH]; intros acc s HP; cbn [for_acc].
  - exists acc, stop. split; [reflexivity | exact HP].
  - rewrite run_attempt. specialize (Hb acc x s HP).
    destruct (body acc x s) as [[[acc'|e] s1] l1]; prj; cbv beta iota.
    + destruct (IH acc' s1 Hb) as (a & o & R & Q). exists a, o. auto.
    + exists acc, (Some e). split; [reflexivity | exact Hb].
Qed.

Lemma owned_by_all email_id records :
  Forall (fun a => ad_email_id a = email_id) records ->
  owned_by email_id records = length records.
Proof.
  unfold owned_by. induction 1 as [|a l Ha _ IH]; simpl; [reflexivity|].
  rewrite bool_decide_eq_true_2 by exact Ha. simpl. rewrite IH. reflexivity.
Qed.

Section Owners.
Context (E : environment).

(** What attachment extraction does to the corpus: the records it
    returns all carry the id it was given, and the same records, in
    the same order, are added at the end of the corpus-wide list. *)
Lemma extract_attachments_effect message email_id s :
  let x := _extract_attachments E message email_id s in
  exists found,
    result_of x = Ok found
    /\ Forall (fun a => ad_email_id a = email_id) found
    /\ attachments (analysis_results (state_of x))
       = attachments (analysis_results s) ++ found.
Proof.
  cbv zeta. unfold _extract_attachments. rewrite run_attempt.
  set (P := fun (found : list attachment_data) (s' : state) =>
              Forall (fun a => ad_email_id a = email_id) found
              /\ attachments (analysis_results s')
                 = attachments (analysis_results s) ++ found).
  assert (P0 : P [] s).
  { split; [constructor | rewrite app_nil_r; reflexivity]. }
  destruct (hasattr (msg_attachments message)) as [[]|e].
  3:{ rewrite run_lift_raise. prj. rewrite run_logger. prj.
      exists []. split; [reflexivity|]. exact P0. }
  2:{ rewrite run_lift_ok. prj. exists []. split; [reflexivity|]. exact P0. }
  rewrite run_lift_ok.
  destruct (read (msg_attachments message)) as [it|e].
  2:{ rewrite run_lift_raise. prj. rewrite run_logger. prj.
      exists []. split; [reflexivity|]. exact P0. }
  rewrite run_lift_ok.
  match goal with
  | |- context [for_acc ?b ?st ?xs [] s] =>
      destruct (for_acc_invariant P b st xs) with (acc := @nil attachment_data) (s := s)
        as (found & o & R & Q1 & Q2)
  end.
  - intros acc [i attachment] s0 [HF HA].
    destruct (getattr (att_name attachment) _) as [n|e];
      [rewrite run_lift_ok | rewrite run_lift_raise; split; assumption].
    destruct (getattr (att_size attachment) _) as [sz|e];
      [rewrite run_lift_ok | rewrite run_lift_raise; split; assumption].
    destruct (getattr (att_attachment_type attachment) _) as [ty|e];
      [rewrite run_lift_ok | rewrite run_lift_raise; split; assumption].
    rewrite run_bind.
    pose proof (save_attachment_frame E analysis_results attachment
                  email_id i (fun _ _ => eq_refl) s0) as Hfr.
    destruct (total_save_attachment E attachment email_id i s0) as [sp Hsp].
    destruct (_save_attachment E attachment email_id i s0)
      as [[[sp'|e] s1] l1]; cbn [result_of state_of fst snd] in Hfr, Hsp;
      [|discriminate].
    prj. cbv zeta. rewrite run_modify, ret_run. prj. split.
    + apply Forall_app. split; [exact HF|]. constructor; [reflexivity|constructor].
    + cbn. rewrite Hfr, HA, <- app_assoc. reflexivity.
  - exact P0.
  - rewrite R. destruct o as [e|]; [rewrite run_logger|]; prj;
      exists found; (split; [reflexivity|]); split; assumption.
Qed.

Lemma extract_single_email_owned m p s e :
  result_of (_extract_single_email E m p s) = Ok (Some e) ->
  Forall (fun a => ad_email_id a = e_id e) (e_attachments e).
Proof.
  unfold _extract_single_email. rewrite run_attempt, run_bind.
  destruct (_generate_email_id E m s) as [[[email_id|x] s0] l0]; prj;
    [|rewrite run_logger; prj; discriminate].
  repeat
    (match goal with
     | |- context [ (lift ?o ≫= _) _ ] =>
         destruct o;
         [rewrite run_lift_ok
         |rewrite run_lift_raise; prj; rewrite run_logger; prj; discriminate]
     end).
  rewrite run_bind.
  destruct (_extract_recipients m s0) as [[[rc|x] s1] l1]; prj;
    [|rewrite run_logger; prj; discriminate].
  repeat
    (match goal with
     | |- context [ (lift ?o ≫= _) _ ] =>
         destruct o;
         [rewrite run_lift_ok
         |rewrite run_lift_raise; prj; rewrite run_logger; prj; discriminate]
     end).
  rewrite run_bind.
  destruct (extract_attachments_effect m email_id s1) as (found & R & HF & _).
  destruct (_extract_attachments E m email_id s1) as [[[fd|x] s2] l2];
    cbn [result_of fst] in R; [|discriminate].
  injection R as ->. prj.
  repeat
    (match goal with
     | |- context [ (lift ?o ≫= _) _ ] =>
         destruct o;
         [rewrite run_lift_ok
         |rewrite run_lift_raise; prj; rewrite run_logger; prj; discriminate]
     end).
  rewrite ret_run. prj. rewrite ret_run. prj.
  intros H. injection H as <-. exact HF.
Qed.

End Owners.

(** ** Text that can always be written *)

Lemma encodable_ascii s : ascii_text s -> encodable s = true.
Proof.
  unfold encodable. induction 1 as [|c s Hc _ IH]; simpl; [reflexivity|].
  unfold utf8_char. destruct (N.ltb_spec c 128); [|lia].
  destruct (utf8_encode s); [reflexivity | discriminate].
Qed.

Lemma ascii_text_app a b : ascii_text a -> ascii_text b -> ascii_text (a ++ b).
Proof. intros Ha Hb. apply Forall_app. auto. Qed.

Lemma ascii_text_lit_closed (s : pystr) :
  forallb (fun c => c <? 128) s = true -> ascii_text s.
Proof.
  intros H. apply Forall_forall. intros c Hc.
  rewrite forallb_forall in H. apply N.ltb_lt, H, list_elem_of_In, Hc.
Qed.

Lemma ascii_text_str_of_nat n : ascii_text (str_of_nat n).
Proof.
  eapply Forall_impl; [apply str_of_nat_digits|]. intros c Hc. simpl in Hc. lia.
Qed.

Lemma ascii_text_zero_pad w n : ascii_text (zero_pad w n).
Proof.
  unfold zero_pad. apply ascii_text_app; [|apply ascii_text_str_of_nat].
  apply Forall_forall. intros c Hc. apply list_elem_of_In, repeat_spec in Hc.
  subst c. lia.
Qed.

Lemma ascii_text_fraction d : ascii_text (fraction d).
Proof.
  unfold fraction. destruct (microsecond d); [constructor|].
  apply ascii_text_app; [apply ascii_text_lit_closed; reflexivity|].
  apply ascii_text_zero_pad.
Qed.

Lemma ascii_text_isoformat d : ascii_text (isoformat d).
Proof.
  unfold isoformat.
  repeat (apply ascii_text_app;
          [first [apply ascii_text_zero_pad
                 | apply ascii_text_lit_closed; reflexivity]|]).
  apply ascii_text_fraction.
Qed.

(** ** The run on a store without messages *)

Lemma set_results_same s : set_results (analysis_results s) s = s.
Proof. destruct s. reflexivity. Qed.

Section Empty_run.
Context (E : environment).

Lemma dump_empty_corpus t p size :
  encodable (path_str p) = true ->
  dump_error (_clean_for_json E
                (results_obj (with_stats (make_statistics empty_results
                                                          t p size))))
  = None.
Proof.
  intros Hp. cbn. rewrite Hp, (encodable_ascii _ (ascii_text_isoformat t)).
  reflexivity.
Qed.

Lemma datetime_now_run s :
  datetime_now E s = (Ok (clock E (ticks s)), set_ticks (S (ticks s)) s, []).
Proof. reflexivity. Qed.

Lemma lower_json : lower E (lit "json") = lit "json".
Proof. reflexivity. Qed.

End Empty_run.

(** ** The CSV writer *)

Section Csv.
Context (E : environment).

Lemma save_csv_rows ts s :
  emails (analysis_results s) <> [] ->
  result_of (_save_csv_results E ts s) = Ok tt ->
  exists k,
    fs (state_of (_save_csv_results E ts s))
    = <[k := File (CsvDocument fieldnames_of_emails
                     (List.map csv_row_of (emails (analysis_results s))))]>
        (fs s).
Proof.
  intros Hne. unfold _save_csv_results. rewrite run_gets.
  destruct (emails (analysis_results s)) as [|e es] eqn:He; [congruence|].
  rewrite run_gets, run_bind, open_for_writing_run.
  destruct (writable_at (fs s) _ _) as [k|x]; [|discriminate].
  prj. rewrite run_bind.
  destruct (forallb row_encodable (List.map csv_row_of (e :: es))).
  - rewrite write_file_run. prj. intros _. exists k.
    cbn [fs set_fs]. rewrite insert_insert_eq. reflexivity.
  - rewrite raise_run. prj. discriminate.
Qed.

End Csv.

Lemma count_senders_nonempty es : es <> [] -> count_senders es <> [].
Proof.
  assert (Hb : forall k l, bump k l <> []).
  { intros k [|[k' n] l]; simpl; [discriminate|]. destruct (py_eqb k' k); discriminate. }
  assert (Hf : forall es acc, acc <> [] ->
             fold_left (fun senders email => bump (e_sender_email email) senders)
                       es acc <> []).
  { induction es0 as [|e es0 IH]; intros acc Hacc; simpl; [exact Hacc|].
    apply IH, Hb. }
  destruct es as [|e es]; [congruence|]. intros _. unfold count_senders.
  cbn [fold_left]. apply Hf, Hb.
Qed.

Lemma filter_sublist {A} (f : A -> bool) l : List.filter f l `sublist_of` l.
Proof.
  induction l as [|x l IH]; simpl; [constructor|].
  destruct (f x); [apply sublist_skip | apply sublist_cons]; exact IH.
Qed.

(** * The claims *)

(** ** Traversal order *)

(** C1, as amended.  The email sequence is in depth-first post-order:
    for a store presented as a tree, [extract_emails] returns exactly
    the items obtained by normalising, one after the other, the
    messages listed by [postorder], which lists the messages of a
    folder's sub-folders, in the order the store presents them, before
    the folder's own messages; the state it leaves is the same too.
    For a root with sub-folders [A, B] where A contains [A1], the
    messages of A1 come first, then those of A, then those of B, then
    those of the root. *)
Theorem extract_emails_postorder E folder path s :
  well_listed folder = true ->
  (exists emails,
     result_of (extract_emails E (Some folder) path s) = Ok emails
     /\ result_of (normalise_all E (postorder folder path) [] s) = Ok emails
     /\ state_of (extract_emails E (Some folder) path s)
        = state_of (normalise_all E (postorder folder path) [] s))
  /\ forall nA nA1 nB inA inA1 inB inRoot,
      let leaf n msgs :=
        MkFolder (Present n) (Present (Iter [] None))
                 (Present (Iter msgs None)) in
      let A := MkFolder (Present nA) (Present (Iter [leaf nA1 inA1] None))
                        (Present (Iter inA None)) in
      let root := MkFolder Absent (Present (Iter [A; leaf nB inB] None))
                           (Present (Iter inRoot None)) in
      let under p := List.map (fun m => (m, p)) in
      postorder root path
      = under (child_path (child_path path nA) nA1) inA1
          ++ under (child_path path nA) inA
          ++ under (child_path path nB) inB
          ++ under path inRoot.
Proof.
  intros Hwl. split.
  - destruct (extract_emails_at_walked E folder path s Hwl)
      as (new & s' & R & S & Y).
    destruct (Y []) as [R' S']. exists new.
    split; [exact R|]. split; [exact R'|].
    cbn [extract_emails]. rewrite S. symmetry. exact S'.
  - intros. cbn. rewrite !app_nil_r, <- !app_assoc. reflexivity.
Qed.

Lemma extract_emails_postorder_witness :
  well_listed Sample.tree = true
  /\ exists emails,
      result_of (extract_emails Sample.env (Some Sample.tree) (VStr [])
                                (Sample.opened Sample.tree)) = Ok emails
      /\ result_of (normalise_all Sample.env
                                  (postorder Sample.tree (VStr [])) []
                                  (Sample.opened Sample.tree)) = Ok emails
      /\ state_of (extract_emails Sample.env (Some Sample.tree) (VStr [])
                                  (Sample.opened Sample.tree))
         = state_of (normalise_all Sample.env
                                   (postorder Sample.tree (VStr [])) []
                                   (Sample.opened Sample.tree)).
Proof.
  split; [reflexivity|].
  exact (proj1 (extract_emails_postorder Sample.env Sample.tree (VStr [])
                  (Sample.opened Sample.tree) eq_refl)).
Defined.

(** C1 as stated fails: on the tree root -> [A, B], A -> [A1], with one
    message in each of A, A1 and B, the message of A1 comes out before
    the message of A, so the sequence is not the pre-order one. *)
Lemma extract_emails_not_preorder :
  let found :=
    result_of (extract_emails Sample.env (Some Sample.tree) (VStr [])
                              (Sample.opened Sample.tree)) in
  let preordered :=
    result_of (normalise_all Sample.env (preorder Sample.tree (VStr [])) []
                             (Sample.opened Sample.tree)) in
  (exists emails, found = Ok emails
                  /\ List.map e_subject emails
                     = [VStr (lit "a1"); VStr (lit "a"); VStr (lit "b")])
  /\ (exists emails, preordered = Ok emails
                     /\ List.map e_subject emails
                        = [VStr (lit "a"); VStr (lit "a1"); VStr (lit "b")])
  /\ found <> preordered.
Proof.
  cbv zeta.
  assert (H1 : exists emails,
             result_of (extract_emails Sample.env (Some Sample.tree) (VStr [])
                                       (Sample.opened Sample.tree)) = Ok emails
             /\ List.map e_subject emails
                = [VStr (lit "a1"); VStr (lit "a"); VStr (lit "b")]).
  { eexists. split; vm_compute; reflexivity. }
  assert (H2 : exists emails,
             result_of (normalise_all Sample.env
                                      (preorder Sample.tree (VStr [])) []
                                      (Sample.opened Sample.tree)) = Ok emails
             /\ List.map e_subject emails
                = [VStr (lit "a"); VStr (lit "a1"); VStr (lit "b")]).
  { eexists. split; vm_compute; reflexivity. }
  split; [exact H1|]. split; [exact H2|].
  destruct H1 as (e1 & -> & S1), H2 as (e2 & -> & S2).
  intros H. injection H as ->. rewrite S1 in S2. discriminate.
Qed.

(** ** The empty store *)

(** The claim on the empty store rests on properties of the writers and
    of the folder search that are proved further on; it is settled
    after them, in the part on the run on a store without emails. *)

(** ** The identity generator *)




(** ** Attachment counts in the tabular export *)

(** C4, as amended.  The CSV file holds one row per email of the corpus,
    built by [csv_row_of] when the file is written; for every email the
    normaliser produces, the [attachments_count] of its row is the
    length of that email's attachment sequence, and it equals the
    number of records of that sequence whose owning id is the email's
    id, which is all of them.  (The corpus-wide sequence can hold more
    records with that id, when another message has the same subject,
    sender and creation time.) *)
Theorem attachments_count_is_own_length E :
  (forall ts s,
     emails (analysis_results s) <> [] ->
     result_of (_save_csv_results E ts s) = Ok tt ->
     exists k,
       fs (state_of (_save_csv_results E ts s))
       = <[k := File (CsvDocument
                        fieldnames_of_emails
                        (List.map csv_row_of (emails (analysis_results s))))]>
           (fs s))
  /\ (forall m path s email,
        result_of (_extract_single_email E m path s) = Ok (Some email) ->
        row_attachments_count (csv_row_of email)
        = length (e_attachments email)
        /\ row_attachments_count (csv_row_of email)
           = owned_by (e_id email) (e_attachments email)).
Proof.
  split.
  - intros ts s. apply save_csv_rows.
  - intros m path s email H. split; [reflexivity|].
    cbn [row_attachments_count csv_row_of]. symmetry.
    apply owned_by_all, (extract_single_email_owned E m path s email H).
Qed.

Lemma attachments_count_is_own_length_witness :
  exists email,
    result_of (_extract_single_email
                 Sample.env (Sample.mail "hello" [Sample.file "a.txt"])
                 (VStr []) (Sample.opened Sample.twins)) = Ok (Some email)
    /\ row_attachments_count (csv_row_of email) = 1%nat
    /\ row_attachments_count (csv_row_of email)
       = owned_by (e_id email) (e_attachments email).
Proof.
  eexists. split; [vm_compute; reflexivity|]. split; [reflexivity|].
  apply (proj2 (attachments_count_is_own_length Sample.env)
               (Sample.mail "hello" [Sample.file "a.txt"]) (VStr [])
               (Sample.opened Sample.twins)).
  vm_compute. reflexivity.
Defined.

(** C4 as stated fails in its last part: with two copies of one message
    in the store, each with one attachment, both rows have
    [attachments_count] 1, while two attachment records of the corpus
    are owned by their common id. *)
Lemma attachments_count_not_corpus_count :
  let x := extract_emails Sample.env (Some Sample.twins) (VStr [])
                          (Sample.opened Sample.twins) in
  let corpus := attachments (analysis_results (state_of x)) in
  exists first second,
    result_of x = Ok [first; second]
    /\ e_id first = e_id second
    /\ row_attachments_count (csv_row_of first) = 1%nat
    /\ owned_by (e_id first) corpus = 2%nat
    /\ row_attachments_count (csv_row_of first)
       <> owned_by (e_id first) corpus.
Proof.
  cbv zeta. eexists. eexists.
  split; [vm_compute; reflexivity|].
  split; [vm_compute; reflexivity|].
  split; [vm_compute; reflexivity|].
  split; vm_compute; [reflexivity | discriminate].
Qed.

(** ** File names *)

(** C5.  The name [_save_attachment] writes under is made from the
    declared one like this: the characters that are alphanumeric or one
    of space, hyphen, underscore and dot are kept, in their order, and
    every other character is dropped; the white space at the end of
    what is kept is cut off; and when nothing remains the name is
    [attachment_<index>].  So ["a:b*c.txt"] gives ["abc.txt"], and a
    name made of dropped characters only gives [attachment_<index>]. *)
Theorem safe_filename_sanitises E filename index :
  let kept := List.filter (keep_char E) filename in
  (forall c, keep_char E c = true
             <-> isalnum E c = true \/ c ∈ [32; 45; 95; 46])
  /\ kept `sublist_of` filename
  /\ (forall c, c ∈ kept <-> c ∈ filename /\ keep_char E c = true)
  /\ (exists spaces,
        kept = rstrip kept ++ spaces
        /\ Forall (fun c => isspace c = true) spaces)
  /\ (forall c, last (rstrip kept) = Some c -> isspace c = false)
  /\ safe_filename E filename index
     = (if decide (rstrip kept = [])
        then lit "attachment_" ++ str_of_nat index
        else rstrip kept)
  /\ safe_filename E (lit "a:b*c.txt") index = lit "abc.txt"
  /\ (Forall (fun c => keep_char E c = false) filename ->
      safe_filename E filename index = lit "attachment_" ++ str_of_nat index).
Proof.
  intros kept. split.
  { intros c. unfold keep_char. rewrite !orb_true_iff, !N.eqb_eq.
    rewrite !elem_of_cons, elem_of_nil. tauto. }
  split; [apply filter_sublist|]. split.
  { intros c. unfold kept. rewrite !list_elem_of_In. apply filter_In. }
  split; [apply rstrip_split|]. split; [apply rstrip_last|]. split.
  { unfold safe_filename. fold kept.
    destruct (rstrip kept); destruct (decide _); congruence. }
  split; [reflexivity|].
  intros Hall. unfold safe_filename.
  assert (Hnone : List.filter (keep_char E) filename = []).
  { induction Hall as [|c l Hc _ IH]; simpl; [reflexivity|].
    rewrite Hc. exact IH. }
  rewrite Hnone. reflexivity.
Qed.

Lemma safe_filename_sanitises_witness :
  safe_filename Sample.env (lit ":*?/") 7 = lit "attachment_7"
  /\ safe_filename Sample.env (lit "my report .pdf  ") 0
     = lit "my report .pdf".
Proof.
  split.
  - apply (safe_filename_sanitises Sample.env (lit ":*?/") 7).
    repeat constructor.
  - vm_compute. reflexivity.
Defined.

(** ** Fault isolation *)



(** ** The ten largest senders *)

(** C7.  [generate_statistics] always ends normally and stores the
    statistics; their [top_senders] entry, present exactly when the
    corpus has emails, has at most 10 entries, and the counts of its
    entries never go up along the list. *)
Theorem top_senders_bounded_sorted E s :
  exists st,
    result_of (generate_statistics E s) = Ok tt
    /\ stats (analysis_results (state_of (generate_statistics E s))) = Some st
    /\ match top_senders st with
       | Some l =>
           (length l <= 10)%nat /\ descending l
           /\ emails (analysis_results s) <> []
       | None => emails (analysis_results s) = []
       end.
Proof.
  destruct (generate_statistics_run E s) as [size ->].
  eexists. split; [reflexivity|]. split; [reflexivity|].
  cbn [top_senders make_statistics].
  destruct (emails (analysis_results s)) as [|e es] eqn:He; [reflexivity|].
  destruct (count_senders (e :: es)) as [|c cs] eqn:Hc.
  - exfalso. revert Hc. apply count_senders_nonempty. discriminate.
  - destruct (top_ten_descending (c :: cs)) as [H1 H2].
    split; [exact H1|]. split; [exact H2 | discriminate].
Qed.

Lemma top_senders_bounded_sorted_witness :
  let s := state_of (extract_everything Sample.env
                                        (Sample.opened Sample.crowd)) in
  exists st,
    stats (analysis_results (state_of (generate_statistics Sample.env s)))
    = Some st
    /\ (List.map (fun '(k, n) => (py_str k, n)) <$> top_senders st)
       = Some [(lit "c", 3); (lit "a", 2); (lit "b", 1); (lit "d", 1);
               (lit "e", 1); (lit "f", 1); (lit "g", 1); (lit "h", 1);
               (lit "i", 1); (lit "j", 1)]%nat.
Proof.
  cbv zeta.
  destruct (top_senders_bounded_sorted
              Sample.env
              (state_of (extract_everything Sample.env
                                            (Sample.opened Sample.crowd))))
    as (st & _ & S & _).
  exists st. split; [exact S|].
  vm_compute in S. injection S as <-. vm_compute. reflexivity.
Defined.

(** ** Opening the store *)

(** C8.  When the store file is missing, or the decoder cannot read it,
    [open_pst_file] returns false; and when it returns false the run
    returns false and has done nothing else: the disk, the corpus and
    the clock are as before, so no file was written and neither the
    extraction, nor the statistics, nor the writers ran.  When it
    returns true the run gets as far as the writers whatever the
    extraction meets. *)
Theorem open_failure_is_fatal E s :
  (result_of (path_exists E (pst_file_path s) s) = Ok false ->
   result_of (open_pst_file E s) = Ok false)
  /\ (forall e, result_of (pypff_open E (pst_file_path s) s) = Raise e ->
                result_of (open_pst_file E s) = Ok false)
  /\ (result_of (open_pst_file E s) = Ok false ->
      let x := perform_full_analysis E s in
      result_of x = Ok false
      /\ fs (state_of x) = fs s
      /\ analysis_results (state_of x) = analysis_results s
      /\ ticks (state_of x) = ticks s)
  /\ (result_of (open_pst_file E s) = Ok true -> reaches_serialization E s).
Proof.
  split; [apply open_fails_when_missing|].
  split; [apply open_fails_when_unreadable|].
  split; [|apply perform_after_open].
  intros H. destruct (perform_open_failed E s H) as [R S]. cbv zeta.
  rewrite R, S. split; [reflexivity|].
  split; [apply (open_pst_file_frame E fs (fun _ _ => eq_refl))|].
  split; [apply (open_pst_file_frame E analysis_results (fun _ _ => eq_refl))|].
  apply (open_pst_file_frame E ticks (fun _ _ => eq_refl)).
Qed.

Lemma open_failure_is_fatal_witness :
  let missing := Sample.fresh "9" in
  let corrupt :=
    set_fs (<[[lit "data"; lit "9.pst"] := File (Data [9])]> Sample.disk)
           (Sample.fresh "9") in
  (result_of (perform_full_analysis Sample.env missing) = Ok false
   /\ fs (state_of (perform_full_analysis Sample.env missing)) = fs missing)
  /\ (result_of (perform_full_analysis Sample.env corrupt) = Ok false
      /\ fs (state_of (perform_full_analysis Sample.env corrupt)) = fs corrupt)
  /\ reaches_serialization Sample.env (Sample.fresh "1").
Proof.
  cbv zeta. split; [|split].
  - destruct (open_failure_is_fatal Sample.env (Sample.fresh "9"))
      as (Hmiss & _ & Hfatal & _).
    destruct (Hfatal (Hmiss eq_refl)) as (R & F & _). split; assumption.
  - destruct (open_failure_is_fatal Sample.env
                (set_fs (<[[lit "data"; lit "9.pst"] := File (Data [9])]>
                           Sample.disk) (Sample.fresh "9")))
      as (_ & Hbad & Hfatal & _).
    destruct (Hfatal (Hbad Sample.oserror eq_refl)) as (R & F & _).
    split; assumption.
  - apply (open_failure_is_fatal Sample.env (Sample.fresh "1")).
    vm_compute. reflexivity.
Defined.

(** ** Where attachments are written *)

(** C9.  For an owner id that is a plain path component: when
    [_save_attachment] returns a path, that path is
    [<output_dir>/attachments/<owner id>/<sanitised name>], the
    sanitised name being a plain component; every entry of the disk that
    the call changes is either a directory that did not exist before
    (made on the way to the owner directory) or the one file named by
    the sanitised name directly inside the owner directory; and for a
    declared name whose sanitised form is [.] or [..] nothing is
    returned and no file at all is written or changed. *)
Theorem saved_path_under_owner_directory E attachment email_id index s :
  plain_component email_id ->
  let out := output_dir s in
  let owner := parts out ++ [lit "attachments"; email_id] in
  let declared :=
    getattr (att_name attachment)
            (VStr (lit "attachment_" ++ str_of_nat index)) in
  let x := _save_attachment E attachment email_id index s in
  (forall p, result_of x = Ok (Some p) ->
     exists v chars,
       declared = Ok v /\ filename_chars v = Ok chars
       /\ plain_component (safe_filename E chars index)
       /\ p = MkPath (absolute out) (owner ++ [safe_filename E chars index]))
  /\ (forall k, fs (state_of x) !! k <> fs s !! k ->
        (fs s !! k = None /\ fs (state_of x) !! k = Some Dir)
        \/ exists v chars d c,
             declared = Ok v /\ filename_chars v = Ok chars
             /\ walk (fs (state_of x)) (origin E out) owner = Ok d
             /\ k = d ++ [safe_filename E chars index]
             /\ fs (state_of x) !! k = Some (File c))
  /\ (forall v chars,
        declared = Ok v -> filename_chars v = Ok chars ->
        safe_filename E chars index = dot
        \/ safe_filename E chars index = dotdot ->
        result_of x = Ok None
        /\ forall k, fs (state_of x) !! k <> fs s !! k ->
                     fs s !! k = None /\ fs (state_of x) !! k = Some Dir).
Proof.
  intros Hid out owner declared x.
  destruct (save_attachment_effect E attachment email_id index s Hid)
    as [Hres Hfs].
  fold out owner x declared in Hres, Hfs.
  assert (Hchanges : forall k, fs (state_of x) !! k <> fs s !! k ->
            (fs s !! k = None /\ fs (state_of x) !! k = Some Dir)
            \/ exists v chars d c,
                 declared = Ok v /\ filename_chars v = Ok chars
                 /\ plain_component (safe_filename E chars index)
                 /\ walk (fs (state_of x)) (origin E out) owner = Ok d
                 /\ k = d ++ [safe_filename E chars index]
                 /\ fs (state_of x) !! k = Some (File c)).
  { intros k Hk. destruct Hfs as [Heq|(f' & G & [Heq|Hfile])].
    - rewrite Heq in Hk. congruence.
    - rewrite Heq in Hk |- *. destruct (G k) as [Hsame|Hnew]; [congruence|auto].
    - destruct Hfile as (v & chars & d & c & Hv & Hc & W & D & Hp & Hn & Heq).
      rewrite Heq in Hk |- *.
      destruct (decide (d ++ [safe_filename E chars index] = k)) as [<-|Hne].
      + right. exists v, chars, d, c. split; [exact Hv|]. split; [exact Hc|].
        split; [exact Hp|]. split; [|split; [reflexivity|apply lookup_insert_eq]].
        apply (walk_more_dirs owner f'); [|exact W].
        intros q. rewrite !is_dir_spec. intros [->|Hq]; [auto|]. right.
        rewrite lookup_insert_ne; [exact Hq|].
        intros <-.
        assert (is_dir f' (d ++ [safe_filename E chars index]) = true)
          by (apply is_dir_spec; auto).
        congruence.
      + rewrite lookup_insert_ne in Hk |- * by exact Hne.
        destruct (G k) as [Hsame|Hnew]; [congruence|auto]. }
  split; [|split].
  - intros p Hp. destruct Hres as [Hnone|(v & chars & Hv & Hc & Hplain & Hsome)].
    + rewrite Hnone in Hp. discriminate.
    + rewrite Hsome in Hp. injection Hp as <-. exists v, chars. auto.
  - intros k Hk. destruct (Hchanges k Hk) as [Hdir|Hfile]; [auto|]. right.
    destruct Hfile as (v & chars & d & c & Hv & Hc & _ & W & -> & Hl).
    exists v, chars, d, c. auto.
  - intros v chars Hv Hc Hdots.
    assert (Hnot : ~ plain_component (safe_filename E chars index)).
    { intros (_ & H1 & H2 & _). destruct Hdots; contradiction. }
    split.
    + destruct Hres as [Hnone|(v' & chars' & Hv' & Hc' & Hplain & _)];
        [exact Hnone|].
      rewrite Hv in Hv'. injection Hv' as <-. rewrite Hc in Hc'.
      injection Hc' as <-. contradiction.
    + intros k Hk. destruct (Hchanges k Hk) as [Hdir|Hfile]; [exact Hdir|].
      destruct Hfile as (v' & chars' & d & c & Hv' & Hc' & Hplain & _).
      rewrite Hv in Hv'. injection Hv' as <-. rewrite Hc in Hc'.
      injection Hc' as <-. contradiction.
Qed.

Lemma saved_path_under_owner_directory_witness :
  let owner_id := lit "a1266062141ed6f7" in
  let s := Sample.opened Sample.tree in
  plain_component owner_id
  /\ result_of (_save_attachment Sample.env (Sample.file "a:b*c.txt")
                                 owner_id 0 s)
     = Ok (Some (MkPath true [lit "out"; lit "attachments"; owner_id;
                              lit "abc.txt"]))
  /\ result_of (_save_attachment Sample.env (Sample.file "..") owner_id 0 s)
     = Ok None
  /\ forall k,
       fs (state_of (_save_attachment Sample.env (Sample.file "..")
                                      owner_id 0 s)) !! k <> fs s !! k ->
       fs s !! k = None.
Proof.
  cbv zeta.
  assert (Hid : plain_component (lit "a1266062141ed6f7")).
  { repeat split; try discriminate.
    apply (bool_decide_unpack (47 ∉ lit "a1266062141ed6f7")).
    vm_compute. exact I. }
  split; [exact Hid|].
  destruct (saved_path_under_owner_directory
              Sample.env (Sample.file "a:b*c.txt") (lit "a1266062141ed6f7") 0
              (Sample.opened Sample.tree) Hid) as (Hpath & _ & _).
  destruct (saved_path_under_owner_directory
              Sample.env (Sample.file "..") (lit "a1266062141ed6f7") 0
              (Sample.opened Sample.tree) Hid) as (_ & _ & Hdots).
  split; [vm_compute; reflexivity|].
  destruct (Hdots (VStr (lit "..")) (lit "..") eq_refl eq_refl
                  (or_intror eq_refl)) as [Hnone Hdirs].
  split; [exact Hnone|].
  intros k Hk. exact (proj1 (Hdirs k Hk)).
Defined.

(** ** Attachment records without an email *)

(** C10 does not hold of the code.  A message with one attachment whose
    [categories] cannot be read is dropped after its attachment has
    been saved and recorded: the extraction returns no email, yet the
    corpus-wide attachment sequence holds one record and the file is on
    disk; at the end of the run [total_attachments] is 1 while the
    lengths of the emails' attachment sequences add up to 0. *)
Lemma orphan_attachment_record :
  let x := extract_emails Sample.env (Some Sample.orphaned) (VStr [])
                          (Sample.opened Sample.orphaned) in
  let run := perform_full_analysis Sample.env (Sample.fresh "5") in
  let corpus := analysis_results (state_of run) in
  result_of x = Ok []
  /\ List.map ad_name (attachments (analysis_results (state_of x)))
     = [VStr (lit "report.pdf")]
  /\ fs (state_of x)
       !! [lit "out"; lit "attachments"; lit "e55a80ce08c61774";
           lit "report.pdf"]
     = Some (File (Data [1; 2; 3]))
  /\ result_of run = Ok true
  /\ emails corpus = []
  /\ attachments corpus <> concat (List.map e_attachments (emails corpus))
  /\ (total_attachments <$> stats corpus) = Some 1%nat
  /\ list_sum (List.map (fun e => length (e_attachments e)) (emails corpus))
     = 0%nat.
Proof.
  cbv zeta.
  split; [vm_compute; reflexivity|]. split; [vm_compute; reflexivity|].
  split; [vm_compute; reflexivity|]. split; [vm_compute; reflexivity|].
  assert (He : emails (analysis_results (state_of
                 (perform_full_analysis Sample.env (Sample.fresh "5")))) = []).
  { vm_compute. reflexivity. }
  split; [exact He|]. rewrite He.
  split; [vm_compute; discriminate|].
  split; vm_compute; reflexivity.
Qed.

(** * Further properties of the engine *)

(** ** The order of text *)

Lemma pystr_ltb_irrefl a : pystr_ltb a a = false.
Proof.
  induction a as [|x a IH]; simpl; [reflexivity|].
  rewrite N.ltb_irrefl. exact IH.
Qed.

Lemma pystr_ltb_trans a : forall b c,
  pystr_ltb a b = true -> pystr_ltb b c = true -> pystr_ltb a c = true.
Proof.
  induction a as [|x a IH]; intros [|y b] [|z c]; simpl; try congruence.
  destruct (N.ltb_spec x y), (N.ltb_spec y x), (N.ltb_spec y z),
    (N.ltb_spec z y), (N.ltb_spec x z), (N.ltb_spec z x);
    try congruence; try lia.
  apply IH.
Qed.

Lemma pystr_ltb_cotrans a : forall b c,
  pystr_ltb a c = true -> pystr_ltb a b = true \/ pystr_ltb b c = true.
Proof.
  induction a as [|x a IH]; intros [|y b] [|z c]; simpl; try congruence;
    try tauto.
  destruct (N.ltb_spec x y), (N.ltb_spec y x), (N.ltb_spec y z),
    (N.ltb_spec z y), (N.ltb_spec x z), (N.ltb_spec z x);
    try congruence; try lia; try tauto.
  apply IH.
Qed.

Lemma str_min_spec ds : forall d,
  str_min d ds ∈ d :: ds
  /\ forall x, x ∈ d :: ds -> pystr_ltb x (str_min d ds) = false.
Proof.
  unfold str_min. induction ds as [|y ds IH]; intros d; simpl.
  - split; [left|]. intros x Hx. apply list_elem_of_singleton in Hx as ->.
    apply pystr_ltb_irrefl.
  - destruct (pystr_ltb y d) eqn:Hy.
    + destruct (IH y) as [Hin Hlow]. split; [right; exact Hin|].
      intros x Hx. apply elem_of_cons in Hx as [->|Hx]; [|apply Hlow, Hx].
      match goal with |- ?t = false => destruct t eqn:Hd end; [|reflexivity].
      rewrite <- (Hlow y (ltac:(left))).
      symmetry. eapply pystr_ltb_trans; [exact Hy | exact Hd].
    + destruct (IH d) as [Hin Hlow]. split.
      * apply elem_of_cons in Hin as [->|Hin]; [left | right; right; exact Hin].
      * intros x Hx. apply elem_of_cons in Hx as [->|Hx];
          [apply Hlow; left|].
        apply elem_of_cons in Hx as [->|Hx]; [|apply Hlow; right; exact Hx].
        match goal with |- ?t = false => destruct t eqn:Hd end; [|reflexivity].
        destruct (pystr_ltb_cotrans _ d _ Hd) as [H|H]; [congruence|].
        rewrite (Hlow d (ltac:(left))) in H. discriminate.
Qed.

Lemma str_max_spec ds : forall d,
  str_max d ds ∈ d :: ds
  /\ forall x, x ∈ d :: ds -> pystr_ltb (str_max d ds) x = false.
Proof.
  unfold str_max. induction ds as [|y ds IH]; intros d; simpl.
  - split; [left|]. intros x Hx. apply list_elem_of_singleton in Hx as ->.
    apply pystr_ltb_irrefl.
  - destruct (pystr_ltb d y) eqn:Hy.
    + destruct (IH y) as [Hin Hup]. split; [right; exact Hin|].
      intros x Hx. apply elem_of_cons in Hx as [->|Hx]; [|apply Hup, Hx].
      match goal with |- ?t = false => destruct t eqn:Hd end; [|reflexivity].
      rewrite <- (Hup y (ltac:(left))).
      symmetry. eapply pystr_ltb_trans; [exact Hd | exact Hy].
    + destruct (IH d) as [Hin Hup]. split.
      * apply elem_of_cons in Hin as [->|Hin]; [left | right; right; exact Hin].
      * intros x Hx. apply elem_of_cons in Hx as [->|Hx];
          [apply Hup; left|].
        apply elem_of_cons in Hx as [->|Hx]; [|apply Hup; right; exact Hx].
        match goal with |- ?t = false => destruct t eqn:Hd end; [|reflexivity].
        destruct (pystr_ltb_cotrans _ d _ Hd) as [H|H]; [|congruence].
        rewrite (Hup d (ltac:(left))) in H. discriminate.
Qed.

(** ** Counting senders *)

Lemma py_eqb_refl a : py_eqb a a = true.
Proof.
  destruct a; simpl;
    first [reflexivity | apply bool_decide_eq_true_2; reflexivity].
Qed.

Lemma py_eqb_sym a b : py_eqb a b = py_eqb b a.
Proof.
  destruct a, b; simpl; try reflexivity;
    apply bool_decide_ext; split; congruence.
Qed.

Lemma py_eqb_trans a b c :
  py_eqb a b = true -> py_eqb b c = true -> py_eqb a c = true.
Proof.
  destruct a, b, c; simpl; intros H1 H2;
    try (apply bool_decide_eq_true_1 in H1; try discriminate H1);
    try (apply bool_decide_eq_true_1 in H2; try discriminate H2);
    try (apply bool_decide_eq_true_2);
    repeat match goal with
           | b : bool |- _ => destruct b
           | H : (_ =? _)%Z = true |- _ => apply Z.eqb_eq in H
           | |- (_ =? _)%Z = true => apply Z.eqb_eq
           end;
    congruence || lia.
Qed.

Lemma py_eqb_left a b c :
  py_eqb a b = true -> py_eqb a c = py_eqb b c.
Proof.
  intros H. destruct (py_eqb b c) eqn:Hbc.
  - eapply py_eqb_trans; eassumption.
  - destruct (py_eqb a c) eqn:Hac; [|reflexivity].
    rewrite <- Hbc. symmetry. eapply py_eqb_trans; [|exact Hac].
    rewrite py_eqb_sym. exact H.
Qed.

Lemma sender_count_bump s k l :
  sender_count k (bump s l)
  = if py_eqb s k then Some (S (default 0%nat (sender_count k l)))
    else sender_count k l.
Proof.
  induction l as [|[k' n] l IH]; simpl.
  - destruct (py_eqb s k); reflexivity.
  - destruct (py_eqb k' s) eqn:Hs; simpl.
    + rewrite (py_eqb_left _ _ k Hs).
      destruct (py_eqb s k); reflexivity.
    + destruct (py_eqb k' k) eqn:Hk.
      * destruct (py_eqb s k) eqn:Hsk; [|reflexivity].
        exfalso. rewrite py_eqb_sym in Hsk.
        rewrite (py_eqb_trans _ _ _ Hk Hsk) in Hs. discriminate.
      * exact IH.
Qed.

Lemma sent_count_snoc k es e :
  sent_count k (es ++ [e])
  = (sent_count k es + if py_eqb k (e_sender_email e) then 1 else 0)%nat.
Proof.
  unfold sent_count. rewrite List.filter_app, length_app. simpl.
  destruct (py_eqb k (e_sender_email e)); reflexivity.
Qed.

Lemma count_senders_snoc es e :
  count_senders (es ++ [e]) = bump (e_sender_email e) (count_senders es).
Proof. unfold count_senders. rewrite fold_left_app. reflexivity. Qed.

Lemma sender_count_exact es : forall k,
  sender_count k (count_senders es)
  = match sent_count k es with
    | O => None
    | n => Some n
    end.
Proof.
  induction es as [|e es IH] using rev_ind; intros k; [reflexivity|].
  rewrite count_senders_snoc, sender_count_bump, sent_count_snoc, IH.
  rewrite (py_eqb_sym k). destruct (py_eqb (e_sender_email e) k).
  - destruct (sent_count k es); simpl; f_equal; lia.
  - rewrite Nat.add_0_r. reflexivity.
Qed.


Lemma bump_keys (P : pyval -> Prop) s l :
  P s -> Forall (fun kn => P (fst kn)) l ->
  Forall (fun kn => P (fst kn)) (bump s l).
Proof.
  intros Hs. induction 1 as [|[k n] l Hk Hl IH]; simpl.
  - repeat constructor. exact Hs.
  - destruct (py_eqb k s); constructor; simpl in *; assumption.
Qed.

Lemma bump_distinct s l : distinct_keys l -> distinct_keys (bump s l).
Proof.
  induction l as [|[k n] l IH]; simpl; [intros _; split; [constructor|exact I]|].
  intros [Hk Hl]. destruct (py_eqb k s) eqn:Hs; simpl.
  - split; assumption.
  - split; [|apply IH, Hl].
    apply (bump_keys (fun x => py_eqb k x = false)); assumption.
Qed.

Lemma count_senders_distinct es : distinct_keys (count_senders es).
Proof.
  induction es as [|e es IH] using rev_ind; [exact I|].
  rewrite count_senders_snoc. apply bump_distinct, IH.
Qed.

Lemma distinct_member l : forall k n,
  distinct_keys l -> (k, n) ∈ l -> sender_count k l = Some n.
Proof.
  induction l as [|[k' n'] l IH]; intros k n Hd Hin;
    [apply elem_of_nil in Hin; contradiction|].
  destruct Hd as [Hk Hl]. simpl.
  apply elem_of_cons in Hin as [Heq|Hin].
  - injection Heq as -> ->. rewrite py_eqb_refl. reflexivity.
  - rewrite Forall_forall in Hk. specialize (Hk _ Hin). simpl in Hk.
    rewrite Hk. apply IH; assumption.
Qed.

Lemma distinct_same_key l : forall a b,
  distinct_keys l -> a ∈ l -> b ∈ l ->
  py_eqb (fst a) (fst b) = true -> a = b.
Proof.
  induction l as [|[k n] l IH]; intros a b Hd Ha Hb Hab;
    [apply elem_of_nil in Ha; contradiction|].
  destruct Hd as [Hk Hl]. rewrite Forall_forall in Hk.
  apply elem_of_cons in Ha as [->|Ha]; apply elem_of_cons in Hb as [->|Hb].
  - reflexivity.
  - simpl in Hab. rewrite (Hk _ Hb) in Hab. discriminate.
  - simpl in Hab. rewrite py_eqb_sym, (Hk _ Ha) in Hab. discriminate.
  - apply IH; assumption.
Qed.

Lemma distinct_NoDup l : distinct_keys l -> NoDup l.
Proof.
  induction l as [|[k n] l IH]; [constructor|]. intros [Hk Hl].
  constructor; [|apply IH, Hl]. intros Hin.
  rewrite Forall_forall in Hk. specialize (Hk _ Hin). simpl in Hk.
  rewrite py_eqb_refl in Hk. discriminate.
Qed.

Lemma sender_count_member l : forall k n,
  sender_count k l = Some n ->
  exists k', (k', n) ∈ l /\ py_eqb k' k = true.
Proof.
  induction l as [|[k' n'] l IH]; intros k n; simpl; [discriminate|].
  destruct (py_eqb k' k) eqn:Hk.
  - intros [= ->]. exists k'. split; [left | exact Hk].
  - intros H. destruct (IH _ _ H) as (k'' & Hin & Hk'').
    exists k''. split; [right; exact Hin | exact Hk''].
Qed.

Lemma insert_desc_perm x l : insert_desc x l ≡ₚ x :: l.
Proof.
  induction l as [|y l IH]; simpl; [reflexivity|].
  destruct (snd y <=? snd x)%nat; [reflexivity|].
  rewrite IH. apply Permutation_swap.
Qed.

Lemma sorted_desc_perm l : sorted_desc l ≡ₚ l.
Proof.
  unfold sorted_desc. induction l as [|x l IH]; simpl; [reflexivity|].
  rewrite insert_desc_perm, IH. reflexivity.
Qed.

Lemma elem_of_take_list {A} (x : A) n l : x ∈ take n l -> x ∈ l.
Proof.
  intros H. rewrite <- (take_drop n l). apply elem_of_app. left. exact H.
Qed.

Lemma top_senders_exact r t p size :
  match top_senders (make_statistics r t p size) with
  | Some l =>
      let es := emails r in
      Forall (fun kn => snd kn = sent_count (fst kn) es /\ (0 < snd kn)%nat) l
      /\ (forall i j a b,
            l !! i = Some a -> l !! j = Some b ->
            py_eqb (fst a) (fst b) = true -> i = j)
      /\ ((length l < 10)%nat ->
          Forall (fun e =>
                    exists k, (k, sent_count k es) ∈ l
                              /\ py_eqb k (e_sender_email e) = true)
                 es)
  | None => True
  end.
Proof.
  cbn [top_senders make_statistics].
  pose proof (count_senders_distinct (emails r)) as Hd.
  assert (Hexact : forall k n, (k, n) ∈ count_senders (emails r) ->
                     n = sent_count k (emails r) /\ (0 < n)%nat).
  { intros k n Hin. pose proof (distinct_member _ _ _ Hd Hin) as Hc.
    rewrite sender_count_exact in Hc.
    destruct (sent_count k (emails r)); [discriminate|]. injection Hc as <-.
    split; [reflexivity | lia]. }
  assert (Hsub : forall x, x ∈ take 10 (sorted_desc (count_senders (emails r)))
                           -> x ∈ count_senders (emails r)).
  { intros x Hx. apply elem_of_take_list in Hx.
    rewrite sorted_desc_perm in Hx. exact Hx. }
  destruct (emails r) as [|e0 es0] eqn:Hes; [exact I|]. rewrite <- Hes in *.
  destruct (count_senders (emails r)) as [|x0 l0] eqn:Hse; [exact I|].
  rewrite <- Hse in *. cbv zeta.
  split; [|split].
  - apply Forall_forall. intros [k n] Hin. apply Hexact, Hsub, Hin.
  - intros i j a b Ha Hb Hab.
    assert (a = b) as <-.
    { apply (distinct_same_key (count_senders (emails r))); try assumption;
        apply Hsub; eapply list_elem_of_lookup_2; eassumption. }
    eapply NoDup_lookup; [|exact Ha|exact Hb].
    eapply sublist_NoDup; [|apply sublist_take].
    rewrite sorted_desc_perm. apply distinct_NoDup, Hd.
  - intros Hlen. apply Forall_forall. intros e He.
    assert (Hall : take 10 (sorted_desc (count_senders (emails r)))
                   = sorted_desc (count_senders (emails r))).
    { apply take_ge. rewrite length_take in Hlen. lia. }
    rewrite Hall.
    assert (Hpos : sent_count (e_sender_email e) (emails r) <> 0%nat).
    { unfold sent_count. apply list_elem_of_In in He.
      pose proof (proj2 (filter_In (fun e' => py_eqb (e_sender_email e)
                                                    (e_sender_email e'))
                                   e (emails r))
                        (conj He (py_eqb_refl _))) as Hf.
      destruct (List.filter _ (emails r)); [contradiction | discriminate]. }
    pose proof (sender_count_exact (emails r) (e_sender_email e)) as Hc.
    destruct (sent_count (e_sender_email e) (emails r)) as [|n] eqn:Hn;
      [congruence|].
    destruct (sender_count_member _ _ _ Hc) as (k & Hin & Hk).
    exists k. split; [|exact Hk].
    rewrite sorted_desc_perm. destruct (Hexact _ _ Hin) as [<- _]. exact Hin.
Qed.

Section Senders.
Context (E : environment).

(** X1.  The sender table of the statistics counts exactly.  Every entry
    [(sender, n)] of [top_senders] has [n] equal to the number of emails
    of the corpus with that sender, which is at least one; no sender is
    listed twice; and when fewer than ten senders are listed, every
    sender of the corpus is among them. *)
Theorem top_senders_counts_are_exact s :
  exists st,
    stats (analysis_results (state_of (generate_statistics E s))) = Some st
    /\ match top_senders st with
       | Some l =>
           let es := emails (analysis_results s) in
           Forall (fun kn => snd kn = sent_count (fst kn) es
                             /\ (0 < snd kn)%nat) l
           /\ (forall i j a b,
                 l !! i = Some a -> l !! j = Some b ->
                 py_eqb (fst a) (fst b) = true -> i = j)
           /\ ((length l < 10)%nat ->
               Forall (fun e =>
                         exists k, (k, sent_count k es) ∈ l
                                   /\ py_eqb k (e_sender_email e) = true)
                      es)
       | None => True
       end.
Proof.
  destruct (generate_statistics_run E s) as [size ->]. prj.
  eexists. split; [reflexivity|]. apply top_senders_exact.
Qed.

End Senders.

(** ** The range of delivery dates *)

Lemma date_range_spec r t p size :
  let dates := delivery_dates (emails r) in
  match email_date_range (make_statistics r t p size) with
  | Some (lo, hi) =>
      lo ∈ dates /\ hi ∈ dates
      /\ Forall (fun d => pystr_ltb d lo = false /\ pystr_ltb hi d = false)
                dates
  | None => dates = []
  end.
Proof.
  cbn [email_date_range make_statistics]. unfold delivery_dates.
  destruct (emails r) as [|e es] eqn:Hes; [reflexivity|]. rewrite <- Hes.
  destruct (List.filter _ (List.map e_delivery_time (emails r)))
    as [|d ds]; [reflexivity|].
  cbv zeta. destruct (str_min_spec ds d) as [Hmin Hlow].
  destruct (str_max_spec ds d) as [Hmax Hup].
  split; [exact Hmin|]. split; [exact Hmax|].
  apply Forall_forall. intros x Hx. auto.
Qed.

Section Dates.
Context (E : environment).

(** X2.  The date range of the statistics.  [email_date_range] is present
    exactly when some email has a delivery time; [earliest] and [latest]
    are then delivery times of the corpus, no delivery time is below
    [earliest] and none is above [latest] in the order of text. *)
Theorem email_date_range_bounds s :
  exists st,
    stats (analysis_results (state_of (generate_statistics E s))) = Some st
    /\ let dates := delivery_dates (emails (analysis_results s)) in
       match email_date_range st with
       | Some (earliest, latest) =>
           earliest ∈ dates /\ latest ∈ dates
           /\ Forall (fun d => pystr_ltb d earliest = false
                               /\ pystr_ltb latest d = false) dates
       | None => dates = []
       end.
Proof.
  destruct (generate_statistics_run E s) as [size ->]. prj.
  eexists. split; [reflexivity|]. apply date_range_spec.
Qed.

End Dates.

(** ** Cleaning for the JSON writer *)

Lemma obj_tree_ind (P : obj -> Prop) :
  (forall v, P (Leaf v)) ->
  (forall xs, P (Tuple xs)) ->
  (forall xs, Forall P xs -> P (List xs)) ->
  (forall kvs, Forall (fun kv => P (snd kv)) kvs -> P (Dict kvs)) ->
  forall data, P data.
Proof.
  intros HL HT HS HD. fix IH 1. intros [v|xs|xs|kvs].
  - apply HL.
  - apply HT.
  - apply HS. induction xs as [|x xs IHxs]; constructor; [apply IH | exact IHxs].
  - apply HD. induction kvs as [|[k v] kvs IHkvs]; constructor;
      [apply IH | exact IHkvs].
Qed.

Lemma clean_with_no_bytes decode data : no_bytes (clean_with decode data) = true.
Proof.
  induction data as [v|xs|xs IH|kvs IH] using obj_tree_ind.
  - destruct v; reflexivity.
  - reflexivity.
  - simpl. rewrite forallb_forall. intros x Hx.
    apply in_map_iff in Hx as (y & <- & Hy).
    rewrite Forall_forall in IH. apply IH, list_elem_of_In, Hy.
  - simpl. rewrite forallb_forall. intros [k v] Hx.
    apply in_map_iff in Hx as ([k' v'] & [= <- <-] & Hy).
    rewrite Forall_forall in IH. apply (IH (k', v')), list_elem_of_In, Hy.
Qed.

Lemma clean_with_fixed decode data :
  no_bytes data = true -> clean_with decode data = data.
Proof.
  induction data as [v|xs|xs IH|kvs IH] using obj_tree_ind; intros H.
  - destruct v; try reflexivity. discriminate.
  - reflexivity.
  - simpl in *. f_equal. rewrite forallb_forall in H.
    rewrite Forall_forall in IH. rewrite <- (map_id xs) at 2.
    apply map_ext_in. intros x Hx.
    apply IH; [apply list_elem_of_In, Hx | apply H, Hx].
  - simpl in *. f_equal. rewrite forallb_forall in H.
    rewrite Forall_forall in IH. rewrite <- (map_id kvs) at 2.
    apply map_ext_in. intros [k v] Hx. f_equal.
    apply (IH (k, v)); [apply list_elem_of_In, Hx | apply (H (k, v)), Hx].
Qed.

Section Cleaning.
Context (E : environment).

(** X3.  What [_clean_for_json] guarantees.  In the cleaned data no
    [bytes] value is left in a dictionary or list position; data without
    such values comes back unchanged, so cleaning twice is cleaning
    once; and a tuple is handed on as it is, [bytes] inside it
    included. *)
Theorem clean_for_json_removes_bytes data :
  no_bytes (_clean_for_json E data) = true
  /\ _clean_for_json E (_clean_for_json E data) = _clean_for_json E data
  /\ (no_bytes data = true -> _clean_for_json E data = data)
  /\ forall xs, _clean_for_json E (Tuple xs) = Tuple xs.
Proof.
  unfold _clean_for_json. split; [apply clean_with_no_bytes|].
  split; [apply clean_with_fixed, clean_with_no_bytes|].
  split; [apply clean_with_fixed | reflexivity].
Qed.

End Cleaning.

(** ** Loops that only read *)

Lemma for_acc_gathered {A B} (f : A -> outcome B)
    (body : list B -> A -> M (list B)) stop xs :
  (forall acc x s,
     body acc x s = (match f x with
                     | Ok b => Ok (acc ++ [b])
                     | Raise e => Raise e
                     end, s, [])) ->
  forall acc s,
    exists err,
      for_acc body stop xs acc s = (Ok (acc ++ gathered f xs, err), s, [])
      /\ (err = None ->
          stop = None /\ gathered f xs = readable f xs
          /\ length (gathered f xs) = length xs).
Proof.
  intros Hb. induction xs as [|x xs IH]; intros acc s; cbn [for_acc gathered].
  - exists stop. rewrite app_nil_r. split; [reflexivity|].
    intros ->. repeat split.
  - rewrite run_attempt, Hb. prj. destruct (f x) as [b|e] eqn:Hx.
    + destruct (IH (acc ++ [b]) s) as (err & -> & Herr). prj.
      exists err. rewrite <- app_assoc. split; [reflexivity|].
      intros Hn. destruct (Herr Hn) as (H1 & H2 & H3).
      split; [exact H1|]. unfold readable in *. simpl. rewrite Hx.
      simpl. split; [f_equal; exact H2 | f_equal; exact H3].
    + exists (Some e). cbv beta iota. rewrite ret_run. prj.
      rewrite !app_nil_r. split; [reflexivity|]. discriminate.
Qed.

Lemma gathered_length {A B} (f : A -> outcome B) xs :
  (length (gathered f xs) <= length xs)%nat.
Proof.
  induction xs as [|x xs IH]; simpl; [lia|]. destruct (f x); simpl; lia.
Qed.

Lemma gathered_all {A B} (f : A -> outcome B) (g : A -> B) xs :
  Forall (fun x => f x = Ok (g x)) xs -> gathered f xs = List.map g xs.
Proof.
  induction 1 as [|x xs Hx _ IH]; simpl; [reflexivity|].
  rewrite Hx, IH. reflexivity.
Qed.

(** ** Recipients *)

Lemma recipient_body_run recipients recipient s :
  (n ← lift (getattr (rcp_name recipient) (VStr []));
   a ← lift (getattr (rcp_email_address recipient) (VStr []));
   t ← lift (getattr (rcp_type recipient) (VStr []));
   mret (recipients ++ [{| rd_name := n; rd_email := a; rd_type := t |}])) s
  = (match recipient_record recipient with
     | Ok b => Ok (recipients ++ [b])
     | Raise e => Raise e
     end, s, []).
Proof.
  unfold recipient_record.
  destruct (getattr (rcp_name recipient) _) as [n|e];
    [rewrite run_lift_ok | rewrite run_lift_raise; reflexivity].
  destruct (getattr (rcp_email_address recipient) _) as [a|e];
    [rewrite run_lift_ok | rewrite run_lift_raise; reflexivity].
  destruct (getattr (rcp_type recipient) _) as [t|e];
    [rewrite run_lift_ok | rewrite run_lift_raise; reflexivity].
  reflexivity.
Qed.

Lemma extract_recipients_run message s :
  result_of (_extract_recipients message s)
  = Ok (gathered recipient_record (listed (msg_recipients message)))
  /\ state_of (_extract_recipients message s) = s.
Proof.
  unfold _extract_recipients. rewrite run_attempt.
  destruct (msg_recipients message) as [it| |e]; cbn [hasattr listed].
  - rewrite run_lift_ok. cbn [read]. rewrite run_lift_ok.
    match goal with
    | |- context [for_acc ?b ?st ?xs [] s] =>
        destruct (for_acc_gathered recipient_record b st xs
                    recipient_body_run [] s) as (err & -> & _)
    end.
    prj. destruct err; [rewrite run_logger|]; prj; split; reflexivity.
  - rewrite run_lift_ok. rewrite ret_run. prj. split; reflexivity.
  - destruct e; first [ rewrite run_lift_ok, ret_run; prj
                      | rewrite run_lift_raise; prj; rewrite run_logger; prj ];
      split; reflexivity.
Qed.

(** X4.  [_extract_recipients] never raises and changes nothing.  It
    returns the records of the recipients the message lists, in order,
    up to the first recipient on which an attribute read raises; a
    message without a readable recipient list gives the empty list.
    When every recipient can be read, there is one record for each. *)
Theorem extract_recipients_gathers message s :
  let listed_recipients := listed (msg_recipients message) in
  result_of (_extract_recipients message s)
  = Ok (gathered recipient_record listed_recipients)
  /\ state_of (_extract_recipients message s) = s
  /\ (length (gathered recipient_record listed_recipients)
      <= length listed_recipients)%nat
  /\ forall record,
       Forall (fun r => recipient_record r = Ok (record r))
              listed_recipients ->
       result_of (_extract_recipients message s)
       = Ok (List.map record listed_recipients).
Proof.
  cbv zeta. destruct (extract_recipients_run message s) as [Hr Hs].
  split; [exact Hr|]. split; [exact Hs|].
  split; [apply gathered_length|].
  intros record Hall. rewrite Hr. f_equal. apply gathered_all, Hall.
Qed.

(** ** Finding a folder by its name *)

Section Finding.
Context (E : environment).

Lemma find_folder_unfold folder_name folder :
  _find_folder_by_name E folder_name folder
  = match name_matches E folder_name folder with
    | Raise e => Raise e
    | Ok true => Ok (Some folder)
    | Ok false =>
        swallow
          match sub_folders folder with
          | Absent => Raise AttributeError
          | Faulty e => Raise e
          | Present subs =>
              search_in (_find_folder_by_name E folder_name)
                        (fault subs) (items subs)
          end None
    end.
Proof.
  destruct folder as [nm subs msgs]. cbn [_find_folder_by_name sub_folders].
  destruct (name_matches E folder_name _) as [[]|e]; try reflexivity.
  destruct subs as [[its flt]| |e]; try reflexivity.
  cbn [items fault]. f_equal.
  induction its as [|x its IH]; [reflexivity|]. cbn [search_in].
  destruct (_find_folder_by_name E folder_name x) as [[f|]|e];
    try reflexivity. exact IH.
Qed.

Lemma find_app {A} (p : A -> bool) l1 l2 :
  List.find p (l1 ++ l2)
  = match List.find p l1 with
    | Some x => Some x
    | None => List.find p l2
    end.
Proof.
  induction l1 as [|x l1 IH]; simpl; [reflexivity|].
  destruct (p x); [reflexivity | exact IH].
Qed.

Lemma name_matches_present folder_name folder v :
  name folder = Present v ->
  exists b, name_matches E folder_name folder = Ok b.
Proof.
  intros H. unfold name_matches. rewrite H. cbn [getattr mbind outcome_bind].
  destruct (truthy v); [|eexists; reflexivity].
  destruct v; eexists; reflexivity.
Qed.

Lemma search_in_sound folder_name stop subs found :
  Forall (fun sub => forall f,
            _find_folder_by_name E folder_name sub = Ok (Some f) ->
            f ∈ folders_preorder sub /\ named E folder_name f = true) subs ->
  search_in (_find_folder_by_name E folder_name) stop subs = Ok (Some found) ->
  found ∈ flat_map folders_preorder subs /\ named E folder_name found = true.
Proof.
  induction 1 as [|sub subs Hsub _ IH]; cbn [search_in flat_map].
  - destruct stop; discriminate.
  - destruct (_find_folder_by_name E folder_name sub) as [[f|]|e] eqn:Hf;
      [| |discriminate].
    + intros [= <-]. destruct (Hsub _ eq_refl) as [H1 H2].
      split; [apply elem_of_app; left; exact H1 | exact H2].
    + intros H. destruct (IH H) as [H1 H2].
      split; [apply elem_of_app; right; exact H1 | exact H2].
Qed.

Lemma find_folder_sound folder_name folder : forall found,
  _find_folder_by_name E folder_name folder = Ok (Some found) ->
  found ∈ folders_preorder folder /\ named E folder_name found = true.
Proof.
  induction folder as [folder IH] using Folder_tree_ind. intros found.
  rewrite find_folder_unfold.
  destruct (name_matches E folder_name folder) as [[]|e] eqn:Hn;
    [| |discriminate].
  - intros [= <-]. split; [destruct folder; left|].
    unfold named. rewrite Hn. reflexivity.
  - destruct folder as [nm subs msgs]. cbn [sub_folders listed] in *.
    cbn [folders_preorder sub_folders].
    destruct subs as [[its flt]| |e]; cbn [swallow items fault listed] in *.
    + intros H.
      assert (Hs : search_in (_find_folder_by_name E folder_name) flt its
                   = Ok (Some found)).
      { destruct (search_in _ flt its) as [o|[]]; simpl in H;
          try discriminate; exact H. }
      destruct (search_in_sound _ _ _ _ IH Hs) as [H1 H2].
      split; [right; exact H1 | exact H2].
    + discriminate.
    + destruct e; discriminate.
Qed.

Lemma search_in_first folder_name subs :
  Forall (fun sub =>
            _find_folder_by_name E folder_name sub
            = Ok (List.find (named E folder_name) (folders_preorder sub)))
         subs ->
  search_in (_find_folder_by_name E folder_name) None subs
  = Ok (List.find (named E folder_name) (flat_map folders_preorder subs)).
Proof.
  induction 1 as [|sub subs Hsub _ IH]; cbn [search_in flat_map];
    [reflexivity|].
  rewrite Hsub, find_app.
  destruct (List.find _ (folders_preorder sub)); [reflexivity | exact IH].
Qed.

Lemma find_folder_first folder_name folder :
  well_listed folder = true ->
  (exists b, name_matches E folder_name folder = Ok b) ->
  _find_folder_by_name E folder_name folder
  = Ok (List.find (named E folder_name) (folders_preorder folder)).
Proof.
  induction folder as [folder IH] using Folder_tree_ind.
  intros Hwl [b Hb]. rewrite find_folder_unfold, Hb.
  destruct folder as [nm subs msgs].
  cbn [folders_preorder sub_folders List.find]. unfold named at 1.
  rewrite Hb. destruct b; [reflexivity|].
  cbn [well_listed sub_folders sub_messages] in Hwl.
  destruct subs as [[its [|]]| |]; try discriminate.
  destruct msgs as [[ms [|]]| |]; try discriminate.
  cbn [listed items fault] in *.
  rewrite search_in_first; [reflexivity|].
  rewrite forallb_forall in Hwl. rewrite Forall_forall in IH |- *.
  intros sub Hin. specialize (Hwl sub (proj1 (list_elem_of_In _ _) Hin)).
  destruct (name sub) as [v| |] eqn:Hv; try discriminate.
  apply IH; [exact Hin | exact Hwl |].
  eapply name_matches_present. exact Hv.
Qed.

Lemma named_text folder_name folder s :
  name folder = Present (VStr s) ->
  named E folder_name folder
  = negb (bool_decide (s = []))
    && bool_decide (lower E s = lower E folder_name).
Proof.
  intros H. unfold named, name_matches. rewrite H.
  cbn [getattr mbind outcome_bind truthy].
  destruct (bool_decide (s = [])); cbn [negb andb swallow]; [reflexivity|].
  destruct (bool_decide (lower E s = lower E folder_name)); reflexivity.
Qed.

(** X5.  [_find_folder_by_name] searches the tree folder first.  What it
    finds is a folder of the tree that passes the name test; in a store
    presented as a tree whose root name can be tested, it returns the
    first folder that passes the test, in the order a folder, then its
    sub-folders' trees, and [None] when no folder passes.  A folder
    with a text name passes when the name is not empty and equals the
    wanted name once both are put in lower case. *)
Theorem find_folder_by_name_first_match folder_name folder :
  (forall found,
     _find_folder_by_name E folder_name folder = Ok (Some found) ->
     found ∈ folders_preorder folder /\ named E folder_name found = true)
  /\ (well_listed folder = true ->
      (exists b, name_matches E folder_name folder = Ok b) ->
      _find_folder_by_name E folder_name folder
      = Ok (List.find (named E folder_name) (folders_preorder folder)))
  /\ (forall f s,
        name f = Present (VStr s) ->
        named E folder_name f
        = negb (bool_decide (s = []))
          && bool_decide (lower E s = lower E folder_name)).
Proof.
  split; [apply find_folder_sound|].
  split; [apply find_folder_first | intros f s; apply named_text].
Qed.

End Finding.

(** ** Contacts, calendar, tasks, notes and journal *)

Lemma readable_snoc {A B} (f : A -> outcome B) xs x :
  readable f (xs ++ [x])
  = readable f xs ++ match f x with Ok b => [b] | Raise _ => [] end.
Proof.
  unfold readable. rewrite omap_app. simpl. destruct (f x); reflexivity.
Qed.

Lemma for_acc_readable {A B} (f : A -> outcome B)
    (body : list B -> A -> M (list B)) stop xs :
  (forall acc x s,
     result_of (body acc x s)
     = Ok (acc ++ match f x with Ok b => [b] | Raise _ => [] end)
     /\ state_of (body acc x s) = s) ->
  forall acc s,
    result_of (for_acc body stop xs acc s) = Ok (acc ++ readable f xs, stop)
    /\ state_of (for_acc body stop xs acc s) = s.
Proof.
  intros Hb. induction xs as [|x xs IH]; intros acc s; cbn [for_acc].
  - rewrite app_nil_r. split; reflexivity.
  - rewrite run_attempt. destruct (Hb acc x s) as [Hr Hs]. rewrite Hr, Hs.
    prj. cbv beta iota.
    destruct (IH (acc ++ match f x with
                         | Ok b => [b]
                         | Raise _ => []
                         end) s) as [Hr' Hs'].
    split; [|exact Hs']. etransitivity; [exact Hr'|].
    do 2 f_equal. rewrite <- app_assoc. f_equal.
    unfold readable. simpl. destruct (f x); reflexivity.
Qed.

Section Secondary.
Context (E : environment).

Lemma the_root_folder_state s : state_of (the_root_folder s) = s.
Proof.
  unfold the_root_folder. rewrite run_gets.
  destruct (pst_file s); reflexivity.
Qed.

Lemma extract_named_spec {R} a b c d e (make : Message -> outcome R) s :
  result_of (extract_named E a b c d e make s)
  = Ok (readable make (found_messages E b s))
  /\ state_of (extract_named E a b c d e make s) = s.
Proof.
  unfold extract_named, found_messages. rewrite run_logger. prj.
  rewrite run_attempt, run_bind.
  pose proof (the_root_folder_state s) as Hst.
  destruct (the_root_folder s) as [[[root|x] s0] l0]; prj;
    cbn [state_of fst snd] in Hst; subst s0.
  2:{ rewrite run_logger. prj. split; reflexivity. }
  destruct (_find_folder_by_name E (lit b) root) as [[folder|]|x].
  - rewrite run_lift_ok.
    destruct (sub_messages folder) as [msgs| |x]; cbn [read listed].
    + rewrite run_lift_ok.
      match goal with
      | |- context [for_acc ?body ?st ?xs [] s] =>
          destruct (for_acc_readable make body st xs) with (acc := @nil R) (s := s)
            as [Hr Hs]
      end.
      { intros acc x s1. destruct (make x) as [r|x0].
        - rewrite ret_run. split; reflexivity.
        - rewrite run_logger. prj. rewrite app_nil_r. split; reflexivity. }
      match goal with
      | |- context [for_acc ?body ?st ?xs [] s] =>
          destruct (for_acc body st xs [] s) as [[r1 s1] l1]
      end.
      cbn [result_of state_of fst snd] in Hr, Hs. subst r1 s1. prj.
      destruct (fault msgs); [rewrite run_logger|]; prj; split; reflexivity.
    + rewrite run_lift_raise. prj. rewrite run_logger. prj. split; reflexivity.
    + rewrite run_lift_raise. prj. rewrite run_logger. prj. split; reflexivity.
  - rewrite run_lift_ok, run_logger. prj. split; reflexivity.
  - rewrite run_lift_raise. prj. rewrite run_logger. prj. split; reflexivity.
Qed.

(** X6.  The extractors of contacts, calendar events, tasks, notes and
    journal entries never raise and change neither the analyzer nor the
    disk.  Each returns the records of the messages of the first folder
    with its name, in order, leaving out the messages that cannot be
    read; without an open store, without such a folder or without a
    readable message list the result is the empty list. *)
Theorem secondary_extractors_keep_readable_items s :
  (result_of (extract_contacts E s)
   = Ok (readable (contact_of) (found_messages E "Contacts" s))
   /\ state_of (extract_contacts E s) = s)
  /\ (result_of (extract_calendar E s)
      = Ok (readable (event_of) (found_messages E "Calendar" s))
      /\ state_of (extract_calendar E s) = s)
  /\ (result_of (extract_tasks E s)
      = Ok (readable (task_of) (found_messages E "Tasks" s))
      /\ state_of (extract_tasks E s) = s)
  /\ (result_of (extract_notes E s)
      = Ok (readable (note_of) (found_messages E "Notes" s))
      /\ state_of (extract_notes E s) = s)
  /\ (result_of (extract_journal E s)
      = Ok (readable (journal_of) (found_messages E "Journal" s))
      /\ state_of (extract_journal E s) = s).
Proof.
  unfold extract_contacts, extract_calendar, extract_tasks, extract_notes,
    extract_journal.
  repeat split; apply extract_named_spec.
Qed.

End Secondary.

(** ** Extraction without an open store *)

Section Unopened.
Context (E : environment).

Lemma found_messages_unopened nm s :
  pst_file s = None -> found_messages E nm s = [].
Proof.
  intros H. unfold found_messages, the_root_folder.
  rewrite run_gets, H. reflexivity.
Qed.

(** X7.  On an analyzer whose store has not been opened, every
    extractor returns the empty list instead of raising, and leaves the
    analyzer, the disk and the clock as they were; [extract_emails]
    logs the [AttributeError] of the missing store as an error. *)
Theorem unopened_analyzer_extracts_nothing s parent_path :
  pst_file s = None ->
  extract_emails E None parent_path s
  = (Ok [], s, [Log ERROR "E-posta çıkarma hatası: {}" (ExnArg AttributeError)])
  /\ (result_of (extract_contacts E s) = Ok []
      /\ state_of (extract_contacts E s) = s)
  /\ (result_of (extract_calendar E s) = Ok []
      /\ state_of (extract_calendar E s) = s)
  /\ (result_of (extract_tasks E s) = Ok []
      /\ state_of (extract_tasks E s) = s)
  /\ (result_of (extract_notes E s) = Ok []
      /\ state_of (extract_notes E s) = s)
  /\ (result_of (extract_journal E s) = Ok []
      /\ state_of (extract_journal E s) = s).
Proof.
  intros H. split.
  - unfold extract_emails, the_root_folder.
    rewrite run_attempt, run_gets, H. reflexivity.
  - unfold extract_contacts, extract_calendar, extract_tasks, extract_notes,
      extract_journal.
    repeat split;
      first [ apply extract_named_spec
            | match goal with
              | |- result_of (extract_named E ?a ?b ?c ?d ?e ?mk s) = _ =>
                  rewrite (proj1 (extract_named_spec E a b c d e mk s)),
                    (found_messages_unopened b s H); reflexivity
              end ].
Qed.

End Unopened.

Lemma unopened_analyzer_extracts_nothing_witness :
  pst_file (Sample.fresh "1") = None
  /\ result_of (extract_emails Sample.env None (VStr []) (Sample.fresh "1"))
     = Ok []
  /\ result_of (extract_contacts Sample.env (Sample.fresh "1")) = Ok [].
Proof.
  split; [reflexivity|].
  destruct (unopened_analyzer_extracts_nothing
              Sample.env (Sample.fresh "1") (VStr []) eq_refl)
    as (H1 & (H2 & _) & _).
  split; [rewrite H1; reflexivity | exact H2].
Defined.

(** ** Opening the store *)

Section Opening.
Context (E : environment).

Lemma path_exists_eq p s :
  path_exists E p s
  = (Ok match walk (fs s) (origin E p) (parts p) with
        | Ok k => entry_exists (fs s) k
        | Raise _ => false
        end, s, []).
Proof.
  unfold path_exists. rewrite run_gets.
  destruct (walk (fs s) (origin E p) (parts p)); reflexivity.
Qed.

Lemma pypff_open_eq p s :
  pypff_open E p s
  = (match walk (fs s) (origin E p) (parts p) with
     | Ok k =>
         match fs s !! k with
         | Some (File (Data b)) =>
             match decode_store E b with
             | inl e => Raise e
             | inr store => Ok store
             end
         | _ => Raise (OtherError "OSError")
         end
     | Raise e => Raise e
     end, s, []).
Proof.
  unfold pypff_open. rewrite run_gets.
  destruct (walk (fs s) (origin E p) (parts p)) as [k|e];
    [rewrite run_lift_ok | rewrite run_lift_raise; reflexivity].
  destruct (fs s !! k) as [[|[b| | |]]|]; try reflexivity.
  destruct (decode_store E b); reflexivity.
Qed.

Lemma log_store_info_state store s :
  state_of (log_store_info store s) = s.
Proof.
  assert (H : preserves (fun x => x) (log_store_info store)).
  { unfold log_store_info. frame. }
  apply H.
Qed.

Lemma open_pst_file_eq s :
  let p := pst_file_path s in
  let opened :=
    match walk (fs s) (origin E p) (parts p) with
    | Ok k =>
        match fs s !! k with
        | Some (File (Data b)) =>
            match decode_store E b with
            | inr store => Some store
            | inl _ => None
            end
        | _ => None
        end
    | Raise _ => None
    end in
  result_of (open_pst_file E s) = Ok (bool_decide (opened <> None))
  /\ forall store, opened = Some store ->
       state_of (open_pst_file E s) = set_pst_file (Some store) s.
Proof.
  cbv zeta. unfold open_pst_file. rewrite run_attempt, run_gets, run_bind.
  rewrite path_exists_eq. prj.
  destruct (walk (fs s) (origin E (pst_file_path s)) (parts (pst_file_path s)))
    as [k|e] eqn:Hw.
  2:{ rewrite run_logger. prj. split; [reflexivity | discriminate]. }
  destruct (entry_exists (fs s) k) eqn:Hk.
  2:{ rewrite run_logger. prj.
      assert (fs s !! k = None) as ->.
      { destruct k as [|c k]; [discriminate|]. simpl in Hk.
        destruct (fs s !! (c :: k)); [discriminate | reflexivity]. }
      split; [reflexivity | discriminate]. }
  rewrite run_modify, run_bind, pypff_open_eq.
  cbn [fs pst_file_path set_pst_file]. rewrite Hw.
  destruct (fs s !! k) as [[|[b| | |]]|]; prj;
    try (rewrite run_logger; prj; split; [reflexivity | discriminate]).
  destruct (decode_store E b) as [e|store]; prj.
  { rewrite run_logger. prj. split; [reflexivity | discriminate]. }
  rewrite run_modify, run_logger. prj. rewrite run_attempt.
  rewrite log_store_info_state.
  split.
  - destruct (result_of (log_store_info store _)); [|rewrite run_logger];
      reflexivity.
  - intros ? [= <-].
    destruct (result_of (log_store_info store _)); [|rewrite run_logger];
      reflexivity.
Qed.

(** X8.  When [open_pst_file] succeeds.  It returns [True] exactly when
    the path of the store resolves to a file the decoder accepts; the
    analyzer then holds the decoded store and nothing else has changed.
    What the informational reads of format, type and size do, failing
    ones included, has no part in it. *)
Theorem open_pst_file_succeeds_iff s :
  let p := pst_file_path s in
  (result_of (open_pst_file E s) = Ok true
   <-> exists k b store,
         walk (fs s) (origin E p) (parts p) = Ok k
         /\ fs s !! k = Some (File (Data b))
         /\ decode_store E b = inr store)
  /\ forall k b store,
       walk (fs s) (origin E p) (parts p) = Ok k ->
       fs s !! k = Some (File (Data b)) ->
       decode_store E b = inr store ->
       state_of (open_pst_file E s) = set_pst_file (Some store) s.
Proof.
  cbv zeta. destruct (open_pst_file_eq s) as [Hr Hs]. split; [split|].
  - rewrite Hr. intros [= H]. apply bool_decide_eq_true_1 in H.
    destruct (walk _ _ _) as [k|]; [|congruence].
    destruct (fs s !! k) as [[|[b| | |]]|] eqn:Hk; try congruence.
    destruct (decode_store E b) as [|store] eqn:Hd; [congruence|].
    exists k, b, store. auto.
  - intros (k & b & store & Hw & Hk & Hd). rewrite Hr, Hw, Hk, Hd.
    reflexivity.
  - intros k b store Hw Hk Hd. apply Hs. rewrite Hw, Hk, Hd. reflexivity.
Qed.

End Opening.

Lemma open_pst_file_succeeds_iff_witness :
  result_of (open_pst_file Sample.env (Sample.fresh "1")) = Ok true
  /\ state_of (open_pst_file Sample.env (Sample.fresh "1"))
     = set_pst_file (Some (Sample.store_of Sample.tree)) (Sample.fresh "1").
Proof.
  destruct (open_pst_file_succeeds_iff Sample.env (Sample.fresh "1"))
    as [Hiff Hst].
  split.
  - apply Hiff. exists [lit "data"; lit "1.pst"], [1], (Sample.store_of Sample.tree).
    repeat split; vm_compute; reflexivity.
  - apply (Hst [lit "data"; lit "1.pst"] [1]); vm_compute; reflexivity.
Defined.

(** ** Attachment records *)

Section Records.
Context (E : environment).

Lemma attachments_loop email_id stop xs : forall found s,
  let x :=
    for_acc (fun found '(i, attachment) =>
               n ← lift (getattr (att_name attachment)
                           (VStr (lit "attachment_" ++ str_of_nat i)));
               sz ← lift (getattr (att_size attachment) (VInt 0));
               ty ← lift (getattr (att_attachment_type attachment)
                            (VStr []));
               saved_path ← _save_attachment E attachment email_id i;
               let attachment_data :=
                 {| ad_email_id := email_id; ad_index := i;
                    ad_name := n; ad_size := sz; ad_type := ty;
                    ad_saved_path := path_str <$> saved_path |} in
               modify (append_attachment attachment_data);;
               mret (found ++ [attachment_data]))
            stop xs found s in
  exists more err,
    result_of x = Ok (found ++ more, err)
    /\ List.map unsaved more = gathered (attachment_record email_id) xs
    /\ attachments (analysis_results (state_of x))
       = attachments (analysis_results s) ++ more.
Proof.
  induction xs as [|[i attachment] xs IH]; intros found s; cbv zeta;
    cbn [for_acc gathered].
  - exists [], stop. rewrite !app_nil_r. repeat split.
  - rewrite run_attempt. unfold attachment_record.
    destruct (getattr (att_name attachment) _) as [n|e];
      [rewrite run_lift_ok
      |rewrite run_lift_raise; prj; exists [], (Some e);
       rewrite !app_nil_r; repeat split].
    destruct (getattr (att_size attachment) _) as [sz|e];
      [rewrite run_lift_ok
      |rewrite run_lift_raise; prj; exists [], (Some e);
       rewrite !app_nil_r; repeat split].
    destruct (getattr (att_attachment_type attachment) _) as [ty|e];
      [rewrite run_lift_ok
      |rewrite run_lift_raise; prj; exists [], (Some e);
       rewrite !app_nil_r; repeat split].
    rewrite run_bind.
    pose proof (save_attachment_frame E analysis_results attachment
                  email_id i (fun _ _ => eq_refl) s) as Hfr.
    destruct (total_save_attachment E attachment email_id i s) as [sp Hsp].
    destruct (_save_attachment E attachment email_id i s)
      as [[[sp'|e] s1] l1]; cbn [result_of state_of fst snd] in Hfr, Hsp;
      [|discriminate].
    prj. cbv zeta. rewrite run_modify, ret_run. prj. cbv beta iota.
    set (rec := {| ad_email_id := email_id; ad_index := i; ad_name := n;
                   ad_size := sz; ad_type := ty;
                   ad_saved_path := path_str <$> sp' |}).
    destruct (IH (found ++ [rec]) (append_attachment rec s1))
      as (more & err & Hr & Hm & Ha).
    exists (rec :: more), err. cbv zeta in Hr, Ha.
    split; [|split].
    + etransitivity; [exact Hr|]. rewrite <- app_assoc. reflexivity.
    + cbn [mbind outcome_bind List.map]. rewrite Hm. reflexivity.
    + etransitivity; [exact Ha|]. cbn. rewrite Hfr, <- app_assoc. reflexivity.
Qed.

Lemma gathered_attachment_facts email_id xs : forall start more,
  List.map unsaved more
  = gathered (attachment_record email_id) (zip (seq start (length xs)) xs) ->
  List.map ad_index more = seq start (length more)
  /\ Forall (fun a => ad_email_id a = email_id) more
  /\ (length more <= length xs)%nat.
Proof.
  assert (Hnil : forall start (more : list attachment_data) n,
            List.map unsaved more = [] ->
            List.map ad_index more = seq start (length more)
            /\ Forall (fun a => ad_email_id a = email_id) more
            /\ (length more <= n)%nat).
  { intros start [|a more] n H; [|discriminate].
    split; [reflexivity|]. split; [constructor | simpl; lia]. }
  induction xs as [|x xs IH]; intros start more;
    cbn [length seq zip zip_with gathered]; [apply Hnil|].
  unfold attachment_record at 1.
  destruct (getattr (att_name x) _) as [n|]; [|apply Hnil].
  destruct (getattr (att_size x) _) as [sz|]; [|apply Hnil].
  destruct (getattr (att_attachment_type x) _) as [ty|]; [|apply Hnil].
  cbn [mbind outcome_bind]. destruct more as [|a more]; [discriminate|].
  cbn [List.map]. unfold unsaved at 1. intros [= He Hi _ _ _ H2].
  destruct (IH (S start) more H2) as (I1 & I2 & I3).
  split; [|split].
  - cbn [List.map length seq]. rewrite Hi, I1. reflexivity.
  - constructor; [exact He | exact I2].
  - simpl. lia.
Qed.

Lemma gathered_attachment_all email_id xs : forall start,
  Forall (fun a => forall i, exists r,
            attachment_record email_id (i, a) = Ok r) xs ->
  length (gathered (attachment_record email_id)
                   (zip (seq start (length xs)) xs)) = length xs.
Proof.
  induction xs as [|x xs IH]; intros start Hall; [reflexivity|].
  apply Forall_cons in Hall as [Hx Hall].
  cbn [length seq zip zip_with gathered].
  destruct (Hx start) as [r ->]. simpl. rewrite IH by exact Hall. reflexivity.
Qed.

Lemma extract_attachments_run message email_id s :
  exists found,
    result_of (_extract_attachments E message email_id s) = Ok found
    /\ List.map unsaved found
       = gathered (attachment_record email_id)
                  (enumerate (listed (msg_attachments message)))
    /\ attachments (analysis_results
                      (state_of (_extract_attachments E message
                                                      email_id s)))
       = attachments (analysis_results s) ++ found.
Proof.
  unfold _extract_attachments. rewrite run_attempt.
  destruct (msg_attachments message) as [it| |e]; cbn [hasattr listed].
  - rewrite run_lift_ok. cbn [read]. rewrite run_lift_ok.
    destruct (attachments_loop email_id (fault it)
                (zip (seq 0 (length (items it))) (items it)) [] s)
      as (more & err & Hr & Hm & Ha).
    cbv zeta in Hr, Ha.
    match goal with
    | |- context [for_acc ?body ?st ?xs [] s] =>
        destruct (for_acc body st xs [] s) as [[r1 s1] l1]
    end.
    cbn [result_of state_of fst snd app] in Hr, Ha. subst r1.
    prj. exists more.
    destruct err; [rewrite run_logger|]; prj; repeat split; assumption.
  - rewrite run_lift_ok, ret_run. prj. exists [].
    rewrite app_nil_r. repeat split.
  - exists []. rewrite app_nil_r.
    destruct e; first [ rewrite run_lift_ok, ret_run; prj
                      | rewrite run_lift_raise; prj; rewrite run_logger; prj ];
      repeat split.
Qed.

Lemma attachments_loop_bound message email_id s :
  exists found,
    result_of (_extract_attachments E message email_id s) = Ok found
    /\ (length found <= length (listed (msg_attachments message)))%nat.
Proof.
  destruct (extract_attachments_run message email_id s)
    as (found & Hr & Hm & _).
  exists found. split; [exact Hr|].
  apply (gathered_attachment_facts _ _ _ _ Hm).
Qed.

(** X9.  The records of [_extract_attachments].  The method never
    raises.  It returns one record for each attachment the message
    lists, in order, up to the first attachment whose name, size or
    type cannot be read; whether an attachment could be saved only
    shows in its [saved_path].  The records are numbered from 0, carry
    the id they were given, and are added, in the same order, at the end
    of the corpus-wide list. *)
Theorem extract_attachments_records message email_id s :
  let x := _extract_attachments E message email_id s in
  let listed_attachments := listed (msg_attachments message) in
  exists found,
    result_of x = Ok found
    /\ List.map unsaved found
       = gathered (attachment_record email_id) (enumerate listed_attachments)
    /\ List.map ad_index found = seq 0 (length found)
    /\ Forall (fun a => ad_email_id a = email_id) found
    /\ (length found <= length listed_attachments)%nat
    /\ attachments (analysis_results (state_of x))
       = attachments (analysis_results s) ++ found
    /\ (Forall (fun a => forall i, exists r,
                  attachment_record email_id (i, a) = Ok r)
               listed_attachments ->
        length found = length listed_attachments).
Proof.
  cbv zeta.
  destruct (extract_attachments_run message email_id s)
    as (found & Hr & Hm & Ha). exists found.
  destruct (gathered_attachment_facts _ _ _ _ Hm) as (F1 & F2 & F3).
  split; [exact Hr|]. split; [exact Hm|]. split; [exact F1|].
  split; [exact F2|]. split; [exact F3|]. split; [exact Ha|].
  intros Hall. rewrite <- (length_map unsaved), Hm.
  apply gathered_attachment_all, Hall.
Qed.

End Records.

(** ** The normalised email *)

Lemma decoded_not_bytes E v b : decoded E v <> VBytes b.
Proof. destruct v; discriminate. Qed.

Lemma preview_decoded E v r :
  preview (decoded E v) = Ok r ->
  exists t, r = VStr t /\ (length t <= 1000)%nat.
Proof.
  assert (Hlen : forall t : pystr, (length (take 1000 t) <= 1000)%nat).
  { intros t. rewrite length_take. apply Nat.le_min_l. }
  assert (Hnil : (@length N [] <= 1000)%nat) by apply Nat.le_0_l.
  unfold preview.
  destruct (truthy (decoded E v)); [|intros [= <-]; eauto].
  destruct v; cbn [decoded]; intros [= <-]; eauto.
Qed.

Section Normalised.
Context (E : environment).

(** X10.  The shape of a normalised email.  An email that
    [_extract_single_email] returns carries the folder path it was
    given; its subject, sender name and sender address are never
    [bytes]; its two bodies are text of at most 1000 characters; its
    recipients are the records [_extract_recipients] gathers; and it
    has at most one attachment record for each attachment listed. *)
Theorem extracted_email_shape message folder_path s email :
  result_of (_extract_single_email E message folder_path s)
  = Ok (Some email) ->
  e_folder email = folder_path
  /\ (forall b, e_subject email <> VBytes b
                /\ e_sender_name email <> VBytes b
                /\ e_sender_email email <> VBytes b)
  /\ (exists plain html,
        e_body_plain email = VStr plain /\ e_body_html email = VStr html
        /\ (length plain <= 1000)%nat /\ (length html <= 1000)%nat)
  /\ e_recipients email
     = gathered recipient_record (listed (msg_recipients message))
  /\ (length (e_attachments email)
      <= length (listed (msg_attachments message)))%nat.
Proof.
  unfold _extract_single_email. rewrite run_attempt, run_bind.
  destruct (_generate_email_id E message s) as [[[email_id|x] s0] l0]; prj;
    [|rewrite run_logger; prj; discriminate].
  repeat
    (match goal with
     | |- context [ (lift ?o ≫= _) _ ] =>
         destruct o eqn:?;
         [rewrite run_lift_ok
         |rewrite run_lift_raise; prj; rewrite run_logger; prj; discriminate]
     end).
  rewrite run_bind.
  destruct (extract_recipients_run message s0) as [Hrc Hrs].
  destruct (_extract_recipients message s0) as [[[rc|x] s1] l1];
    cbn [result_of state_of fst snd] in Hrc, Hrs; [|discriminate].
  injection Hrc as ->. subst s1. prj.
  repeat
    (match goal with
     | |- context [ (lift ?o ≫= _) _ ] =>
         destruct o eqn:?;
         [rewrite run_lift_ok
         |rewrite run_lift_raise; prj; rewrite run_logger; prj; discriminate]
     end).
  rewrite run_bind.
  destruct (attachments_loop_bound E message email_id s0) as (found & R & HL).
  destruct (_extract_attachments E message email_id s0) as [[[fd|x] s2] l2];
    cbn [result_of fst] in R; [|discriminate].
  injection R as ->. prj.
  repeat
    (match goal with
     | |- context [ (lift ?o ≫= _) _ ] =>
         destruct o eqn:?;
         [rewrite run_lift_ok
         |rewrite run_lift_raise; prj; rewrite run_logger; prj; discriminate]
     end).
  rewrite ret_run. prj. rewrite ret_run. prj.
  intros H. injection H as <-. cbn.
  split; [reflexivity|].
  split; [intros b; repeat split; apply decoded_not_bytes|].
  split.
  - repeat match goal with
           | H : preview (decoded E _) = Ok _ |- _ =>
               apply preview_decoded in H; destruct H as (? & -> & ?)
           end.
    eexists _, _. repeat split; assumption.
  - split; [reflexivity | exact HL].
Qed.

End Normalised.

(** ** Attachment records of the emails and of the corpus *)

Lemma for_acc_invariant_in {A L} (P : L -> state -> Prop)
    (body : L -> A -> M L) stop xs :
  Forall (fun x => forall acc s, P acc s ->
            match body acc x s with
            | (Ok acc', s', _) => P acc' s'
            | (Raise _, s', _) => P acc s'
            end) xs ->
  forall acc s, P acc s ->
    exists acc' o,
      result_of (for_acc body stop xs acc s) = Ok (acc', o)
      /\ P acc' (state_of (for_acc body stop xs acc s)).
Proof.
  induction 1 as [|x xs Hb _ IH]; intros acc s HP; cbn [for_acc].
  - exists acc, stop. split; [reflexivity | exact HP].
  - rewrite run_attempt. specialize (Hb acc s HP).
    destruct (body acc x s) as [[[acc'|e] s1] l1]; prj; cbv beta iota.
    + destruct (IH acc' s1 Hb) as (a & o & R & Q). exists a, o. auto.
    + exists acc, (Some e). split; [reflexivity | exact Hb].
Qed.

Section Corpus.
Context (E : environment).

Lemma generate_email_id_results message s :
  analysis_results (state_of (_generate_email_id E message s))
  = analysis_results s.
Proof.
  assert (H : preserves analysis_results (_generate_email_id E message)).
  { unfold _generate_email_id. frame; intros ?; reflexivity. }
  apply H.
Qed.

(** What one message adds to the corpus-wide list is what its email,
    if it gives one, carries. *)
Lemma extract_single_email_corpus message path s :
  exists r s' l extra,
    _extract_single_email E message path s = (Ok r, s', l)
    /\ attachments (analysis_results s')
       = attachments (analysis_results s) ++ extra
    /\ forall email, r = Some email -> e_attachments email = extra.
Proof.
  unfold _extract_single_email. rewrite run_attempt, run_bind.
  pose proof (generate_email_id_results message s) as Hid.
  destruct (total_generate_email_id E message s) as [i Hi].
  destruct (_generate_email_id E message s) as [[[email_id|x] s0] l0];
    cbn [result_of state_of fst snd] in Hid, Hi; [|discriminate]. prj.
  repeat
    (match goal with
     | |- context [ (lift ?o ≫= _) _ ] =>
         destruct o;
         [rewrite run_lift_ok
         |rewrite run_lift_raise; prj; rewrite run_logger; prj;
          eexists None, _, _, [];
          (split; [reflexivity|]);
          (split; [rewrite app_nil_r; exact (f_equal attachments Hid)|]);
          intros ? [=]]
     end).
  rewrite run_bind.
  destruct (extract_recipients_run message s0) as [Hrc Hrs].
  destruct (_extract_recipients message s0) as [[[rc|x] s1] l1];
    cbn [result_of state_of fst snd] in Hrc, Hrs; [|discriminate].
  subst s1. prj.
  repeat
    (match goal with
     | |- context [ (lift ?o ≫= _) _ ] =>
         destruct o;
         [rewrite run_lift_ok
         |rewrite run_lift_raise; prj; rewrite run_logger; prj;
          eexists None, _, _, [];
          (split; [reflexivity|]);
          (split; [rewrite app_nil_r; exact (f_equal attachments Hid)|]);
          intros ? [=]]
     end).
  rewrite run_bind.
  destruct (extract_attachments_run E message email_id s0)
    as (found & R & _ & Ha).
  destruct (_extract_attachments E message email_id s0) as [[[fd|x] s2] l2];
    cbn [result_of state_of fst snd] in R, Ha; [|discriminate].
  injection R as ->. prj. rewrite Hid in Ha.
  repeat
    (match goal with
     | |- context [ (lift ?o ≫= _) _ ] =>
         destruct o;
         [rewrite run_lift_ok
         |rewrite run_lift_raise; prj; rewrite run_logger; prj;
          eexists None, _, _, found;
          (split; [reflexivity|]); (split; [exact Ha|]); intros ? [=]]
     end).
  rewrite ret_run. prj. rewrite ret_run. prj.
  eexists _, _, _, found. split; [reflexivity|]. split; [exact Ha|].
  intros email [= <-]. reflexivity.
Qed.

(** The invariant of the two loops of the walk: the corpus-wide list
    has grown by [extra], and the attachment records of the emails
    gathered so far are among [extra], in order. *)
Lemma visit_message_corpus a0 path message acc s :
  (exists extra,
     attachments (analysis_results s) = a0 ++ extra
     /\ concat (List.map e_attachments acc) `sublist_of` extra) ->
  match visit_message E path acc message s with
  | (Ok acc', s', _) =>
      exists extra,
        attachments (analysis_results s') = a0 ++ extra
        /\ concat (List.map e_attachments acc') `sublist_of` extra
  | (Raise _, s', _) =>
      exists extra,
        attachments (analysis_results s') = a0 ++ extra
        /\ concat (List.map e_attachments acc) `sublist_of` extra
  end.
Proof.
  intros (extra & Hx & Hsub). unfold visit_message. rewrite run_attempt.
  destruct (extract_single_email_corpus message path s)
    as (r & s1 & l1 & more & -> & Ha & He). prj.
  destruct r as [email|]; rewrite ret_run; prj.
  - exists (extra ++ more). rewrite Ha, Hx, <- app_assoc.
    split; [reflexivity|].
    rewrite map_app, concat_app. cbn [List.map concat].
    rewrite app_nil_r, (He _ eq_refl).
    apply sublist_app; [exact Hsub | reflexivity].
  - exists (extra ++ more). rewrite Ha, Hx, <- app_assoc.
    split; [reflexivity|]. apply sublist_inserts_r. exact Hsub.
Qed.

Lemma extract_emails_at_corpus folder : forall path s,
  exists emails extra,
    result_of (extract_emails_at E folder path s) = Ok emails
    /\ attachments (analysis_results
                      (state_of (extract_emails_at E folder path s)))
       = attachments (analysis_results s) ++ extra
    /\ concat (List.map e_attachments emails) `sublist_of` extra.
Proof.
  induction folder as [folder IH] using Folder_tree_ind. intros path s.
  set (P := fun (acc : list email_data) (s' : state) =>
              exists extra,
                attachments (analysis_results s')
                = attachments (analysis_results s) ++ extra
                /\ concat (List.map e_attachments acc) `sublist_of` extra).
  assert (P0 : P [] s).
  { exists []. rewrite app_nil_r. split; [reflexivity | constructor]. }
  assert (Hend : forall (r : list email_data * option exn) s',
            P (fst r) s' ->
            exists emails extra,
              result_of (match r with
                         | (emails, None) => mret emails
                         | (emails, Some e) =>
                             logger ERROR "E-posta çıkarma hatası: {}"
                                    (ExnArg e);; mret emails
                         end s') = Ok emails
              /\ attachments (analysis_results
                   (state_of (match r with
                              | (emails, None) => mret emails
                              | (emails, Some e) =>
                                  logger ERROR "E-posta çıkarma hatası: {}"
                                         (ExnArg e);; mret emails
                              end s')))
                 = attachments (analysis_results s) ++ extra
              /\ concat (List.map e_attachments emails) `sublist_of` extra).
  { intros [emails [e|]] s' (extra & H1 & H2); [rewrite run_logger|];
      prj; exists emails, extra; repeat split; assumption. }
  assert (Hfin : forall (r : list email_data * option exn) s' l',
            P (fst r) s' ->
            exists emails extra,
              result_of
                (let x := match r with
                          | (emails, None) => mret emails
                          | (emails, Some e) =>
                              logger ERROR "E-posta çıkarma hatası: {}"
                                     (ExnArg e);; mret emails
                          end s' in
                 (result_of x, state_of x, l' ++ log_of x)) = Ok emails
              /\ attachments (analysis_results
                   (state_of
                      (let x := match r with
                                | (emails, None) => mret emails
                                | (emails, Some e) =>
                                    logger ERROR "E-posta çıkarma hatası: {}"
                                           (ExnArg e);; mret emails
                                end s' in
                       (result_of x, state_of x, l' ++ log_of x))))
                 = attachments (analysis_results s) ++ extra
              /\ concat (List.map e_attachments emails) `sublist_of` extra).
  { intros r s' l' HP. destruct (Hend r s' HP) as (emails & extra & H).
    exists emails, extra. exact H. }
  rewrite extract_emails_at_unfold.
  destruct (sub_folders folder) as [subs| |e] eqn:Hsubs.
  2: rewrite run_pure; exact (Hend ([], Some AttributeError) s P0).
  2: rewrite run_pure; exact (Hend ([], Some e) s P0).
  rewrite run_assoc, run_bind.
  destruct (for_acc_invariant_in P (visit_sub_folder E path) (fault subs)
              (items subs)) with (acc := @nil email_data) (s := s)
    as (walked & err & R & Q); [|exact P0|].
  { cbn [listed] in IH. rewrite Forall_forall in IH |- *.
    intros sub Hin acc s1 (extra & H1 & H2). unfold visit_sub_folder.
    destruct (read (name sub)) as [nm|x];
      [rewrite run_lift_ok | rewrite run_lift_raise; exists extra; auto].
    rewrite run_logger. prj. rewrite run_bind.
    destruct (IH sub Hin (child_path path nm) s1)
      as (more & extra' & Hr & Ha & Hs).
    destruct (extract_emails_at E sub (child_path path nm) s1)
      as [[r1 s2] l2]. cbn [result_of state_of fst snd] in Hr, Ha.
    subst r1. prj. rewrite ret_run. prj.
    exists (extra ++ extra'). rewrite Ha, H1, <- app_assoc.
    split; [reflexivity|]. rewrite map_app, concat_app.
    apply sublist_app; assumption. }
  destruct (for_acc (visit_sub_folder E path) (fault subs) (items subs) [] s)
    as [[r1 s1] l1]. cbn [result_of state_of fst snd] in R, Q. subst r1.
  cbv beta iota.
  destruct err as [e|];
    [rewrite run_pure; exact (Hfin (walked, Some e) s1 l1 Q)|].
  destruct (read (sub_messages folder)) as [msgs|e];
    [|rewrite run_pure; exact (Hfin (walked, Some e) s1 l1 Q)].
  rewrite run_bind.
  destruct (for_acc_invariant P (visit_message E path) (fault msgs)
              (items msgs)) with (acc := walked) (s := s1)
    as (found & err & R' & Q'); [|exact Q|].
  { intros acc x s2 HP. apply visit_message_corpus, HP. }
  destruct (for_acc (visit_message E path) (fault msgs) (items msgs) walked s1)
    as [[r2 s2] l2]. cbn [result_of state_of fst snd] in R', Q'. subst r2.
  destruct (Hend (found, err) s2 Q') as (emails & extra & H1 & H2 & H3).
  exists emails, extra. split; [exact H1|]. split; [exact H2 | exact H3].
Qed.

(** X11.  The corpus-wide attachment list holds the attachment records
    of every email.  Whatever the store does, [extract_emails] only
    adds to the corpus-wide list, and the attachment records of the
    emails it returns, taken email after email, are among the records
    it has added, in the same order.  The corpus can hold more: the
    records of a message that was dropped after its attachments were
    read stay in it. *)
Theorem email_attachments_within_corpus folder parent_path s :
  let x := extract_emails E folder parent_path s in
  exists emails added,
    result_of x = Ok emails
    /\ attachments (analysis_results (state_of x))
       = attachments (analysis_results s) ++ added
    /\ concat (List.map e_attachments emails) `sublist_of` added
    /\ (list_sum (List.map (fun e => length (e_attachments e)) emails)
        <= length added)%nat.
Proof.
  cbv zeta.
  assert (H : exists emails added,
            result_of (extract_emails E folder parent_path s) = Ok emails
            /\ attachments (analysis_results
                 (state_of (extract_emails E folder parent_path s)))
               = attachments (analysis_results s) ++ added
            /\ concat (List.map e_attachments emails) `sublist_of` added).
  { destruct folder as [f|]; cbn [extract_emails];
      [apply extract_emails_at_corpus|].
    rewrite run_attempt.
    pose proof (the_root_folder_state s) as Hst.
    destruct (the_root_folder s) as [[[root|e] s'] l];
      cbn [state_of fst snd] in Hst; subst s'; prj.
    - rewrite run_logger. prj.
      destruct (extract_emails_at_corpus root parent_path s)
        as (emails & added & H1 & H2 & H3).
      exists emails, added. split; [exact H1|]. split; [exact H2 | exact H3].
    - rewrite run_logger. prj. exists [], []. rewrite app_nil_r.
      split; [reflexivity|]. split; [reflexivity | constructor]. }
  destruct H as (emails & added & H1 & H2 & H3).
  exists emails, added. repeat split; try assumption.
  apply sublist_length in H3. rewrite <- H3.
  clear. induction emails as [|e es IH]; simpl; [lia|].
  rewrite length_app. lia.
Qed.

End Corpus.

(** ** A folder whose sub-folders cannot be listed *)

Lemma for_acc_stopped {A L} (body : L -> A -> M L) e xs : forall acc s,
  exists acc' e',
    result_of (for_acc body (Some e) xs acc s) = Ok (acc', Some e').
Proof.
  induction xs as [|x xs IH]; intros acc s; cbn [for_acc].
  - exists acc, e. reflexivity.
  - rewrite run_attempt.
    destruct (body acc x s) as [[[acc'|e0] s1] l1]; prj; cbv beta iota.
    + destruct (IH acc' s1) as (a & e' & H). exists a, e'. exact H.
    + exists acc, e0. reflexivity.
Qed.

Section Listing.
Context (E : environment).

(** X12.  When the sub-folders of a folder cannot be listed to the end
    (the attribute is missing, reading it raises, or the listing ends
    with an error), the folder's own messages are never looked at: the
    walk gives the same emails, state and log whatever the messages of
    the folder are.  The emails of the sub-folders walked before the
    failure are kept. *)
Theorem unlisted_sub_folders_hide_messages folder other_messages path s :
  (forall subs, sub_folders folder = Present subs -> fault subs <> None) ->
  extract_emails_at E (MkFolder (name folder) (sub_folders folder)
                                other_messages) path s
  = extract_emails_at E folder path s.
Proof.
  intros Hf. rewrite !extract_emails_at_unfold. cbn [sub_folders sub_messages].
  destruct (sub_folders folder) as [subs| |e]; try reflexivity.
  rewrite !run_assoc, !run_bind.
  destruct (fault subs) as [e|] eqn:He; [|exfalso; eapply Hf; eauto].
  destruct (for_acc_stopped (visit_sub_folder E path) e (items subs) [] s)
    as (acc' & e' & H).
  destruct (for_acc (visit_sub_folder E path) (Some e) (items subs) [] s)
    as [[r1 s1] l1]. cbn [result_of fst] in H. subst r1.
  reflexivity.
Qed.

End Listing.

(** ** No more emails than messages *)

Lemma for_acc_bounded {A L} (size : L -> nat) (w : A -> nat)
    (body : L -> A -> M L) stop xs :
  Forall (fun x => forall acc s,
            match result_of (body acc x s) with
            | Ok acc' => (size acc' <= size acc + w x)%nat
            | Raise _ => True
            end) xs ->
  forall acc s,
    exists acc' o,
      result_of (for_acc body stop xs acc s) = Ok (acc', o)
      /\ (size acc' <= size acc + list_sum (List.map w xs))%nat.
Proof.
  induction 1 as [|x xs Hb _ IH]; intros acc s; cbn [for_acc].
  - exists acc, stop. split; [reflexivity | simpl; lia].
  - rewrite run_attempt. specialize (Hb acc s).
    destruct (body acc x s) as [[[acc'|e] s1] l1]; prj; cbv beta iota;
      cbn [result_of fst] in Hb.
    + destruct (IH acc' s1) as (a & o & R & Q). exists a, o.
      split; [exact R|]. simpl. lia.
    + exists acc, (Some e). split; [reflexivity | simpl; lia].
Qed.

Lemma list_sum_flat_map {A B} (f : A -> list B) (g : B -> nat) xs :
  list_sum (List.map g (flat_map f xs))
  = list_sum (List.map (fun x => list_sum (List.map g (f x))) xs).
Proof.
  induction xs as [|x xs IH]; simpl; [reflexivity|].
  rewrite map_app, list_sum_app, IH. reflexivity.
Qed.

Section Bounded.
Context (E : environment).

Lemma visit_message_bounded path acc message s :
  match result_of (visit_message E path acc message s) with
  | Ok acc' => (length acc' <= length acc + 1)%nat
  | Raise _ => True
  end.
Proof.
  unfold visit_message. rewrite run_attempt.
  destruct (result_of (_extract_single_email E message path _))
    as [[email|]|e].
  - rewrite ret_run. prj. rewrite length_app. simpl. reflexivity.
  - rewrite ret_run. prj. apply Nat.le_add_r.
  - rewrite run_logger. prj. apply Nat.le_add_r.
Qed.

Lemma extract_emails_at_bounded folder : forall path s,
  exists emails,
    result_of (extract_emails_at E folder path s) = Ok emails
    /\ (length emails <= message_count folder)%nat.
Proof.
  induction folder as [folder IH] using Folder_tree_ind. intros path s.
  assert (Hend : forall (r : list email_data * option exn) s' l' n,
            (length (fst r) <= n)%nat ->
            exists emails,
              result_of
                (let x := match r with
                          | (emails, None) => mret emails
                          | (emails, Some e) =>
                              logger ERROR "E-posta çıkarma hatası: {}"
                                     (ExnArg e);; mret emails
                          end s' in
                 (result_of x, state_of x, l' ++ log_of x)) = Ok emails
              /\ (length emails <= n)%nat).
  { intros [emails [e|]] s' l' n H; [rewrite run_logger|]; prj;
      exists emails; split; [reflexivity | exact H | reflexivity | exact H]. }
  assert (Hcount : message_count folder
                   = (length (listed (sub_messages folder))
                      + list_sum (List.map message_count
                                    (listed (sub_folders folder))))%nat).
  { unfold message_count. destruct folder as [nm subs msgs].
    cbn [folders_preorder sub_folders sub_messages List.map].
    match goal with
    | |- list_sum (?a :: ?l) = _ => change (list_sum (a :: l))
                                     with (a + list_sum l)%nat
    end.
    f_equal. destruct subs as [subs| |]; try reflexivity.
    cbn [listed].
    apply (list_sum_flat_map folders_preorder
             (fun f => length (listed (sub_messages f)))). }
  rewrite extract_emails_at_unfold, Hcount.
  destruct (sub_folders folder) as [subs| |e] eqn:Hsubs.
  2: rewrite run_bind, ret_run; prj;
     apply (Hend ([], Some AttributeError) s [] _); simpl; lia.
  2: rewrite run_bind, ret_run; prj;
     apply (Hend ([], Some e) s [] _); simpl; lia.
  cbn [listed] in IH |- *. rewrite run_assoc, run_bind.
  destruct (for_acc_bounded (@length email_data) message_count
              (visit_sub_folder E path) (fault subs) (items subs))
    with (acc := @nil email_data) (s := s) as (walked & err & R & Q).
  { rewrite Forall_forall in IH |- *.
    intros sub Hin acc s1. unfold visit_sub_folder.
    destruct (read (name sub)) as [nm|x];
      [rewrite run_lift_ok | rewrite run_lift_raise; exact I].
    rewrite run_logger. prj. rewrite run_bind.
    destruct (IH sub Hin (child_path path nm) s1) as (more & Hr & Hl).
    destruct (extract_emails_at E sub (child_path path nm) s1)
      as [[r1 s2] l2]. cbn [result_of fst] in Hr. subst r1. prj.
    rewrite ret_run. prj. rewrite length_app. lia. }
  destruct (for_acc (visit_sub_folder E path) (fault subs) (items subs) [] s)
    as [[r1 s1] l1]. cbn [result_of fst] in R. subst r1. cbv beta iota.
  simpl in Q.
  destruct err as [e|];
    [rewrite run_pure; apply (Hend (walked, Some e) s1 l1); simpl; lia|].
  destruct (sub_messages folder) as [msgs| |e]; cbn [read listed].
  2: rewrite run_pure;
     apply (Hend (walked, Some AttributeError) s1 l1); simpl; lia.
  2: rewrite run_pure; apply (Hend (walked, Some e) s1 l1); simpl; lia.
  rewrite run_bind.
  destruct (for_acc_bounded (@length email_data) (fun _ => 1%nat)
              (visit_message E path) (fault msgs) (items msgs))
    with (acc := walked) (s := s1) as (found & err & R' & Q').
  { apply Forall_forall. intros m _ acc s2. apply visit_message_bounded. }
  destruct (for_acc (visit_message E path) (fault msgs) (items msgs) walked s1)
    as [[r2 s2] l2]. cbn [result_of fst] in R'. subst r2.
  assert (Hones : list_sum (List.map (fun _ : Message => 1%nat) (items msgs))
                  = length (items msgs)).
  { clear. induction (items msgs); simpl; [reflexivity | f_equal; assumption]. }
  rewrite Hones in Q'.
  destruct (Hend (found, err) s2 [] (length (items msgs)
              + list_sum (List.map message_count (items subs)))%nat)
    as (emails & H1 & H2); [simpl; lia|].
  exists emails. split; [|exact H2]. rewrite <- H1.
  destruct err; reflexivity.
Qed.

(** X13.  [extract_emails] never raises and never returns more emails
    than the folders below its starting point list messages: every
    message gives one email or none. *)
Theorem extract_emails_bounded_by_messages folder parent_path s :
  exists emails,
    result_of (extract_emails E folder parent_path s) = Ok emails
    /\ (length emails
        <= match folder, result_of (the_root_folder s) with
           | Some f, _ => message_count f
           | None, Ok root => message_count root
           | None, Raise _ => 0
           end)%nat.
Proof.
  destruct folder as [f|]; cbn [extract_emails];
    [apply extract_emails_at_bounded|].
  rewrite run_attempt.
  destruct (the_root_folder s) as [[[root|e] s'] l]; prj.
  - rewrite run_logger. prj.
    destruct (extract_emails_at_bounded root parent_path s')
      as (emails & H1 & H2).
    exists emails. split; [exact H1 | exact H2].
  - rewrite run_logger. prj. exists []. split; [reflexivity | simpl; lia].
Qed.

End Bounded.

(** ** The statistics pass and the report of a run *)

Section Report.
Context (E : environment).

Lemma st_size_eq p s :
  st_size E p s
  = (match walk (fs s) (origin E p) (parts p) with
     | Ok k =>
         match k, fs s !! k with
         | [], _ => Ok (other_size E Dir)
         | _, Some (File (Data b)) => Ok (length b)
         | _, Some n => Ok (other_size E n)
         | _, None => Raise FileNotFoundError
         end
     | Raise e => Raise e
     end, s, []).
Proof.
  unfold st_size. rewrite run_gets.
  destruct (walk (fs s) (origin E p) (parts p)) as [k|e];
    [rewrite run_lift_ok | rewrite run_lift_raise; reflexivity].
  destruct k as [|c k]; [reflexivity|].
  destruct (fs s !! (c :: k)) as [[|[b| | |]]|]; reflexivity.
Qed.

Lemma generate_statistics_eq s :
  let p := pst_file_path s in
  let size :=
    match walk (fs s) (origin E p) (parts p) with
    | Ok [] => other_size E Dir
    | Ok k => match fs s !! k with
              | Some (File (Data b)) => length b
              | Some n => other_size E n
              | None => 0%nat
              end
    | Raise _ => 0%nat
    end in
  generate_statistics E s
  = (Ok tt,
     set_results
       (let r := analysis_results s in
        {| emails := emails r; contacts := contacts r;
           calendar := calendar r; tasks := tasks r; notes := notes r;
           journal := journal r; attachments := attachments r;
           stats := Some (make_statistics r (now (clock E (ticks s)))
                                          p size) |})
       (set_ticks (S (ticks s)) s),
     []).
Proof.
  cbv zeta. unfold generate_statistics. rewrite run_gets, run_bind.
  rewrite datetime_now_run. prj. rewrite run_gets, run_bind.
  rewrite path_exists_eq. prj. cbn [pst_file_path fs set_ticks].
  destruct (walk (fs s) (origin E (pst_file_path s))
                 (parts (pst_file_path s))) as [k|e] eqn:Hw.
  2:{ rewrite run_pure. reflexivity. }
  destruct k as [|c k].
  - cbn [entry_exists]. rewrite run_bind, st_size_eq.
    cbn [pst_file_path fs set_ticks]. rewrite Hw. reflexivity.
  - cbn [entry_exists].
    destruct (fs s !! (c :: k)) as [n|] eqn:Hk.
    + rewrite run_bind, st_size_eq. cbn [pst_file_path fs set_ticks].
      rewrite Hw, Hk. destruct n as [|[b| | |]]; reflexivity.
    + rewrite run_pure. reflexivity.
Qed.


Lemma save_results_frame {X} (f : state -> X) format_type :
  (forall g s, f (set_fs g s) = f s) ->
  (forall n s, f (set_ticks n s) = f s) ->
  preserves f (save_results E format_type).
Proof.
  intros Hf Ht.
  assert (Hnow : preserves f (datetime_now E)).
  { intros s. cbn. apply Ht. }
  unfold save_results, _save_csv_results, open_for_writing, write_file.
  apply preserves_bind; [exact Hnow|]. intros t.
  frame; rewrite ?Hf; reflexivity.
Qed.

(** X15.  The report of a finished run agrees with itself.  A run never
    raises; when it returns [True] the store was opened, the analyzer
    holds statistics, and each of the seven totals is the length of the
    collection the analyzer holds at the end. *)
Theorem finished_run_totals_agree s :
  let x := perform_full_analysis E s in
  (exists done, result_of x = Ok done)
  /\ (result_of x = Ok true ->
      result_of (open_pst_file E s) = Ok true
      /\ exists st,
           let r := analysis_results (state_of x) in
           stats r = Some st
           /\ total_emails st = length (emails r)
           /\ total_contacts st = length (contacts r)
           /\ total_calendar_events st = length (calendar r)
           /\ total_tasks st = length (tasks r)
           /\ total_notes st = length (notes r)
           /\ total_journal_entries st = length (journal r)
           /\ total_attachments st = length (attachments r)).
Proof.
  cbv zeta. destruct (total_open_pst_file E s) as [opened Ho].
  destruct opened.
  2:{ destruct (perform_open_failed E s Ho) as [Hr _]. rewrite Hr.
      split; [eexists; reflexivity | discriminate]. }
  destruct (perform_after_open E s Ho)
    as (agg & W1 & W2 & W3 & Hs & Hr).
  split; [rewrite Hr; eexists; reflexivity|]. intros _.
  split; [exact Ho|]. rewrite Hs.
  rewrite (save_results_frame analysis_results (lit "json")
             (fun _ _ => eq_refl) (fun _ _ => eq_refl) agg).
  revert W1 W2 W3. rewrite run_bind.
  destruct (extract_everything E (state_of (open_pst_file E s)))
    as [[[[]|e] s1] l1]; prj; [|intros [=]].
  rewrite generate_statistics_eq. prj. intros _ <- _.
  eexists. cbn. repeat split.
Qed.

End Report.

(** ** What the writers leave on the disk *)

Lemma is_dir_insert_file (f : filesystem) k c cur :
  is_dir f k = false -> is_dir (<[k := File c]> f) cur = is_dir f cur.
Proof.
  intros Hk. destruct cur as [|x cur]; [reflexivity|]. cbn [is_dir].
  destruct (decide (k = x :: cur)) as [->|Hne].
  - rewrite lookup_insert_eq. cbn [is_dir] in Hk.
    destruct (f !! (x :: cur)) as [[|]|]; congruence.
  - rewrite lookup_insert_ne by exact Hne. reflexivity.
Qed.

Lemma walk_insert_file (f : filesystem) k c comps : forall cur d,
  is_dir f k = false ->
  walk (<[k := File c]> f) cur comps = Ok d <-> walk f cur comps = Ok d.
Proof.
  induction comps as [|x comps IH]; intros cur d Hk; cbn [walk];
    [reflexivity|].
  destruct (is_blank_part x); [apply IH, Hk|].
  rewrite (is_dir_insert_file f k c cur Hk).
  destruct (is_dir f cur); [|split; discriminate].
  destruct (bool_decide (x = dotdot)); apply IH, Hk.
Qed.

Lemma removelast_snoc {A} (l : list A) x : removelast (l ++ [x]) = l.
Proof. apply removelast_last. Qed.

(** Where a file with a plain name is written under a directory. *)
Lemma writable_plain (f : filesystem) o a base name k :
  plain_component name ->
  writable_at f o (MkPath a (base ++ [name])) = Ok k ->
  exists d, walk f o base = Ok d /\ is_dir f d = true
            /\ k = d ++ [name] /\ is_dir f k = false.
Proof.
  intros Hp. unfold writable_at. cbn [parts]. rewrite walk_app.
  destruct (walk f o base) as [d|e]; [|discriminate]. cbn [walk].
  rewrite (is_blank_plain _ Hp).
  destruct (is_dir f d) eqn:Hd; [|discriminate].
  rewrite (not_dotdot_plain _ Hp).
  destruct (is_dir f (d ++ [name])) eqn:Hk; [discriminate|].
  intros H. assert (k = d ++ [name]) as ->.
  { destruct (f !! (d ++ [name])); [congruence|].
    destruct (is_dir f (removelast (d ++ [name]))); congruence. }
  exists d. auto.
Qed.

Lemma compact_chars d :
  Forall (fun c => 48 <= c <= 57 \/ c = 95) (strftime_compact d).
Proof.
  assert (Hz : forall w n, Forall (fun c => 48 <= c <= 57 \/ c = 95)
                                  (zero_pad w n)).
  { intros w n. unfold zero_pad. apply Forall_app. split.
    - apply Forall_forall. intros c Hc.
      apply list_elem_of_In, repeat_spec in Hc. subst c. left. lia.
    - eapply Forall_impl; [apply str_of_nat_digits|]. intros c Hc. left.
      exact Hc. }
  unfold strftime_compact.
  repeat (apply Forall_app; split; [apply Hz|]).
  apply Forall_app. split; [repeat constructor; right; reflexivity|].
  repeat (apply Forall_app; split; [apply Hz|]). apply Hz.
Qed.

Lemma stamped_name_plain (before after : pystr) d x rest :
  before = x :: rest -> x <> 46 ->
  47 ∉ before -> 47 ∉ after ->
  plain_component (before ++ strftime_compact d ++ after).
Proof.
  intros -> Hx Hb Ha. unfold plain_component.
  change dot with [46]. change dotdot with [46; 46].
  split; [discriminate|]. split; [intros [= H _]; exact (Hx H)|].
  split; [intros [= H _]; exact (Hx H)|].
  intros Hin. apply elem_of_app in Hin as [Hin|Hin]; [exact (Hb Hin)|].
  apply elem_of_app in Hin as [Hin|Hin]; [|exact (Ha Hin)].
  pose proof (compact_chars d) as Hc. rewrite Forall_forall in Hc.
  specialize (Hc _ Hin). lia.
Qed.

Lemma json_name_plain d :
  plain_component (lit "pst_analysis_" ++ strftime_compact d ++ lit ".json").
Proof.
  eapply stamped_name_plain; [reflexivity | discriminate | |].
  - apply (bool_decide_unpack (47 ∉ lit "pst_analysis_")). vm_compute. exact I.
  - apply (bool_decide_unpack (47 ∉ lit ".json")). vm_compute. exact I.
Qed.

Lemma csv_name_plain d :
  plain_component (lit "emails_" ++ strftime_compact d ++ lit ".csv").
Proof.
  eapply stamped_name_plain; [reflexivity | discriminate | |].
  - apply (bool_decide_unpack (47 ∉ lit "emails_")). vm_compute. exact I.
  - apply (bool_decide_unpack (47 ∉ lit ".csv")). vm_compute. exact I.
Qed.

Lemma path_div_plain p c :
  plain_component c -> path_div p c = MkPath (absolute p) (parts p ++ [c]).
Proof. intros (H1 & H2 & _ & H4). apply path_div_one; assumption. Qed.

Section Saving.
Context (E : environment).

Lemma save_csv_eq ts s :
  _save_csv_results E ts s
  = match emails (analysis_results s) with
    | [] => (Ok tt, s, [])
    | _ =>
        let csv_file :=
          path_div (output_dir s) (lit "emails_" ++ ts ++ lit ".csv") in
        let rows := List.map csv_row_of (emails (analysis_results s)) in
        match writable_at (fs s) (origin E csv_file) csv_file with
        | Raise e => (Raise e, s, [])
        | Ok k =>
            if forallb row_encodable rows
            then (Ok tt,
                  set_fs (<[k := File (CsvDocument fieldnames_of_emails rows)]>
                            (<[k := File Unfinished]> (fs s))) s,
                  [Log INFO "E-posta CSV kaydedildi: {}"
                       (TextArg (path_str csv_file))])
            else (Raise UnicodeEncodeError,
                  set_fs (<[k := File Unfinished]> (fs s)) s, [])
        end
    end.
Proof.
  unfold _save_csv_results. rewrite run_gets.
  destruct (emails (analysis_results s)) as [|e es] eqn:He; [reflexivity|].
  rewrite run_gets, run_bind, open_for_writing_run. cbv zeta.
  destruct (writable_at (fs s) _ _) as [k|x]; [|reflexivity].
  prj. rewrite run_bind.
  destruct (forallb row_encodable (List.map csv_row_of (e :: es))).
  - rewrite write_file_run. prj. reflexivity.
  - rewrite raise_run. prj. reflexivity.
Qed.

Lemma save_results_json_eq format_type s :
  lower E format_type = lit "json" ->
  let s1 := set_ticks (S (ticks s)) s in
  let ts := strftime_compact (now (clock E (ticks s))) in
  let json :=
    path_div (output_dir s) (lit "pst_analysis_" ++ ts ++ lit ".json") in
  let clean := _clean_for_json E (results_obj (analysis_results s)) in
  save_results E format_type s
  = match writable_at (fs s) (origin E json) json with
    | Raise e => (Raise e, s1, [])
    | Ok k =>
        match dump_error clean with
        | Some e =>
            (Raise e, set_fs (<[k := File Unfinished]> (fs s)) s1, [])
        | None =>
            let s2 :=
              set_fs (<[k := File (JsonDocument clean)]>
                        (<[k := File Unfinished]> (fs s))) s1 in
            let x := _save_csv_results E ts s2 in
            (match result_of x with
             | Ok _ => Ok (Some json)
             | Raise e => Raise e
             end, state_of x,
             Log INFO "JSON sonuçları kaydedildi: {}" (TextArg (path_str json))
               :: log_of x)
        end
    end.
Proof.
  intros Hfmt. cbv zeta. unfold save_results.
  rewrite run_bind, datetime_now_run. prj.
  rewrite Hfmt, (bool_decide_eq_true_2 _ eq_refl).
  rewrite run_assoc, run_gets, run_assoc, run_gets.
  cbn [output_dir analysis_results set_ticks].
  rewrite run_assoc, run_bind, open_for_writing_run.
  cbn [fs set_ticks].
  destruct (writable_at (fs s) _ _) as [k|x]; [|reflexivity].
  prj. rewrite run_assoc.
  destruct (dump_error _) as [e|].
  - rewrite run_raise. reflexivity.
  - rewrite run_bind, write_file_run. prj. rewrite run_assoc, run_logger.
    prj. rewrite run_pure, run_bind.
    destruct (_save_csv_results E _ _) as [[[[]|e] s3] l3]; prj;
      cbn [app]; rewrite ?app_nil_r; reflexivity.
Qed.

Lemma save_results_other_eq format_type s :
  lower E format_type <> lit "json" ->
  let x := _save_csv_results E (strftime_compact (now (clock E (ticks s))))
                             (set_ticks (S (ticks s)) s) in
  save_results E format_type s
  = (match result_of x with
     | Ok _ => Ok None
     | Raise e => Raise e
     end, state_of x, log_of x).
Proof.
  intros Hfmt. cbv zeta. unfold save_results.
  rewrite run_bind, datetime_now_run. prj.
  rewrite (bool_decide_eq_false_2 _ Hfmt). rewrite run_pure, run_bind.
  destruct (_save_csv_results E _ _) as [[[[]|e] s3] l3]; prj;
    cbn [app]; rewrite ?app_nil_r; reflexivity.
Qed.

End Saving.

Lemma stamped_names_differ ts :
  lit "pst_analysis_" ++ ts ++ lit ".json" <> lit "emails_" ++ ts ++ lit ".csv".
Proof.
  change (lit "pst_analysis_") with (112 :: lit "st_analysis_").
  change (lit "emails_") with (101 :: lit "mails_").
  intros H. discriminate H.
Qed.

Lemma snoc_differ {A} (d : list A) a b : a <> b -> d ++ [a] <> d ++ [b].
Proof. intros H Heq. apply app_inv_head in Heq. congruence. Qed.

Section Saved.
Context (E : environment).

(** X16.  What [save_results] leaves when it returns a path.  The format
    was [json], whatever the case of its letters; the path is
    [pst_analysis_<timestamp>.json] in the output directory; the file
    there holds the cleaned corpus; when the corpus has emails, the
    file [emails_<timestamp>.csv] beside it, with the same timestamp,
    holds one row for each email, in order, and otherwise no such file
    is written; no other entry of the disk has changed, and neither has
    the corpus. *)
Theorem save_results_leaves_both_documents format_type s p :
  let x := save_results E format_type s in
  let final := fs (state_of x) in
  let out := output_dir s in
  let ts := strftime_compact (now (clock E (ticks s))) in
  let json_name := lit "pst_analysis_" ++ ts ++ lit ".json" in
  let csv_name := lit "emails_" ++ ts ++ lit ".csv" in
  let r := analysis_results s in
  result_of x = Ok (Some p) ->
  lower E format_type = lit "json"
  /\ p = MkPath (absolute out) (parts out ++ [json_name])
  /\ analysis_results (state_of x) = r
  /\ exists d,
       walk final (origin E out) (parts out) = Ok d
       /\ final !! (d ++ [json_name])
          = Some (File (JsonDocument (_clean_for_json E (results_obj r))))
       /\ final !! (d ++ [csv_name])
          = match emails r with
            | [] => fs s !! (d ++ [csv_name])
            | _ => Some (File (CsvDocument fieldnames_of_emails
                                 (List.map csv_row_of (emails r))))
            end
       /\ forall k, k <> d ++ [json_name] -> k <> d ++ [csv_name] ->
                    final !! k = fs s !! k.
Proof.
  cbv zeta. intros H.
  destruct (decide (lower E format_type = lit "json")) as [Hf|Hf].
  2:{ rewrite (save_results_other_eq E _ _ Hf) in H. cbv zeta in H.
      cbn [result_of fst] in H.
      match type of H with
      | match ?c with _ => _ end = _ => destruct c; discriminate
      end. }
  split; [exact Hf|]. revert H.
  rewrite (save_results_json_eq E _ _ Hf). cbv zeta.
  set (ts := strftime_compact (now (clock E (ticks s)))).
  pose proof (json_name_plain (now (clock E (ticks s)))) as Pj.
  pose proof (csv_name_plain (now (clock E (ticks s)))) as Pc.
  pose proof (stamped_names_differ ts) as Hne. fold ts in Pj, Pc.
  rewrite (path_div_plain _ _ Pj).
  change (origin E (MkPath (absolute (output_dir s)) _))
    with (origin E (output_dir s)).
  destruct (writable_at (fs s) _ _) as [k|e] eqn:Hw; [|discriminate].
  destruct (dump_error _) as [e|]; [discriminate|].
  destruct (writable_plain _ _ _ _ _ _ Pj Hw) as (d & Wd & Dd & -> & Dk).
  set (kj := d ++ [lit "pst_analysis_" ++ ts ++ lit ".json"]) in *.
  set (doc := File (JsonDocument _)).
  set (f2 := <[kj := doc]> (<[kj := File Unfinished]> (fs s))).
  assert (Dk1 : is_dir (<[kj := File Unfinished]> (fs s)) kj = false).
  { rewrite is_dir_insert_file; assumption. }
  assert (W2 : forall d', walk f2 (origin E (output_dir s))
                               (parts (output_dir s)) = Ok d'
                          <-> walk (fs s) (origin E (output_dir s))
                                   (parts (output_dir s)) = Ok d').
  { intros d'. unfold f2, doc. rewrite walk_insert_file by exact Dk1.
    apply walk_insert_file, Dk. }
  rewrite save_csv_eq. cbn [analysis_results output_dir fs set_fs set_ticks].
  fold ts. rewrite (path_div_plain _ _ Pc).
  change (origin E (MkPath (absolute (output_dir s)) _))
    with (origin E (output_dir s)).
  destruct (emails (analysis_results s)) as [|e0 es] eqn:He.
  - prj. intros [= <-]. split; [reflexivity|]. split; [reflexivity|].
    cbn [fs set_fs]. exists d. split; [apply W2, Wd|].
    split; [apply lookup_insert_eq|]. split.
    + unfold f2. rewrite !lookup_insert_ne; [reflexivity|..];
        apply snoc_differ; exact Hne.
    + intros k' H1 _. unfold f2.
      rewrite !lookup_insert_ne
        by (intros Heq; apply H1; symmetry; exact Heq).
      reflexivity.
  - cbv zeta. rewrite <- He.
    destruct (writable_at f2 _ _) as [kc|e] eqn:Hwc; [|discriminate].
    destruct (forallb row_encodable _); [|discriminate].
    prj. intros [= <-]. split; [reflexivity|]. split; [reflexivity|].
    destruct (writable_plain _ _ _ _ _ _ Pc Hwc) as (d' & Wd' & Dd' & -> & Dkc).
    apply W2 in Wd'. rewrite Wd in Wd'. injection Wd' as <-.
    set (kc := d ++ [lit "emails_" ++ ts ++ lit ".csv"]) in *.
    assert (Hk : kj <> kc) by (apply snoc_differ; exact Hne).
    assert (Dkc1 : is_dir (<[kc := File Unfinished]> f2) kc = false).
    { rewrite is_dir_insert_file; assumption. }
    cbn [fs set_fs]. exists d. split.
    { rewrite walk_insert_file by exact Dkc1.
      rewrite walk_insert_file by exact Dkc. apply W2, Wd. }
    split.
    { rewrite !lookup_insert_ne
        by (intros Heq; apply Hk; symmetry; exact Heq).
      apply lookup_insert_eq. }
    split.
    { rewrite lookup_insert_eq. rewrite He at 1. rewrite <- He. reflexivity. }
    intros k' H1 H2. unfold f2.
    rewrite !lookup_insert_ne
      by (intros Heq; first [ apply H1; symmetry; exact Heq
                            | apply H2; symmetry; exact Heq ]).
    reflexivity.
Qed.

End Saved.

Section Unserialisable.
Context (E : environment).

(** X17.  A corpus the JSON writer cannot serialise.  When the cleaned
    corpus holds a value without a JSON form or a text that cannot be
    written as UTF-8, [save_results] raises what the writer raises
    after the JSON file has been created: the file is left unfinished,
    no CSV export is written, no other entry of the disk changes, and
    the corpus is as it was. *)
Theorem save_results_unserialisable format_type s k e :
  let out := output_dir s in
  let ts := strftime_compact (now (clock E (ticks s))) in
  let json := path_div out (lit "pst_analysis_" ++ ts ++ lit ".json") in
  let x := save_results E format_type s in
  lower E format_type = lit "json" ->
  writable_at (fs s) (origin E json) json = Ok k ->
  dump_error (_clean_for_json E (results_obj (analysis_results s))) = Some e ->
  result_of x = Raise e
  /\ fs (state_of x) = <[k := File Unfinished]> (fs s)
  /\ analysis_results (state_of x) = analysis_results s
  /\ (exists d, walk (fs s) (origin E out) (parts out) = Ok d
                /\ k = d ++ [lit "pst_analysis_" ++ ts ++ lit ".json"])
  /\ forall k' n, fs (state_of x) !! k' = Some n -> is_csv n = true ->
                  fs s !! k' = Some n.
Proof.
  cbv zeta. intros Hf Hw He.
  rewrite (save_results_json_eq E _ _ Hf). cbv zeta. rewrite Hw, He. prj.
  cbn [fs analysis_results set_fs set_ticks].
  split; [reflexivity|]. split; [reflexivity|]. split; [reflexivity|].
  split.
  - pose proof (json_name_plain (now (clock E (ticks s)))) as Pj.
    rewrite (path_div_plain _ _ Pj) in Hw.
    destruct (writable_plain _ _ _ _ _ _ Pj Hw) as (d & Wd & _ & -> & _).
    exists d. split; [exact Wd | reflexivity].
  - intros k' n Hn Hc. destruct (decide (k = k')) as [->|Hne].
    + rewrite lookup_insert_eq in Hn. injection Hn as <-. discriminate.
    + rewrite lookup_insert_ne in Hn by exact Hne. exact Hn.
Qed.

End Unserialisable.

(** ** Folder paths *)

Lemma join_snoc sep (l : list pystr) x :
  l <> [] -> join sep (l ++ [x]) = join sep l ++ sep ++ x.
Proof.
  induction l as [|a l IH]; [congruence|]. intros _.
  destruct l as [|b l]; [reflexivity|].
  change (join sep ((a :: b :: l) ++ [x]))
    with (a ++ sep ++ join sep ((b :: l) ++ [x])).
  rewrite IH by discriminate.
  change (join sep (a :: b :: l)) with (a ++ sep ++ join sep (b :: l)).
  rewrite <- !app_assoc. reflexivity.
Qed.

Lemma join_nonempty sep (l : list pystr) :
  l <> [] -> Forall (fun n => n <> []) l -> join sep l <> [].
Proof.
  destruct l as [|a l]; [congruence|]. intros _ H.
  apply Forall_cons in H as [Ha _].
  destruct l; cbn [join]; [exact Ha|].
  destruct a; [congruence | discriminate].
Qed.

(** X18.  The folder path of an email is the chain of folder names
    joined by slashes.  Going down from an empty path through folders
    with non-empty text names gives the names joined by ["/"]: a
    folder directly under the root has its bare name as path, without
    a leading slash, and each level below adds a slash and a name. *)
Theorem folder_path_joins_names (names : list pystr) :
  Forall (fun n => n <> []) names ->
  fold_left child_path (List.map VStr names) (VStr [])
  = VStr (join (lit "/") names).
Proof.
  induction names as [|n names IH] using rev_ind; intros H; [reflexivity|].
  apply Forall_app in H as [Hn Hl]. apply Forall_cons in Hl as [Hx _].
  rewrite map_app, fold_left_app, (IH Hn). cbn [List.map fold_left].
  unfold child_path. cbn [truthy py_str].
  destruct names as [|a names].
  - cbn [join]. rewrite bool_decide_eq_true_2 by reflexivity. reflexivity.
  - rewrite bool_decide_eq_false_2
      by (apply join_nonempty; [discriminate | exact Hn]).
    cbn [negb]. rewrite join_snoc by discriminate. reflexivity.
Qed.

Lemma folder_path_joins_names_witness :
  Forall (fun n : pystr => n <> []) [lit "Inbox"; lit "Projects"; lit "A"]
  /\ child_path (child_path (child_path (VStr []) (VStr (lit "Inbox")))
                            (VStr (lit "Projects")))
                (VStr (lit "A"))
     = VStr (lit "Inbox/Projects/A").
Proof.
  assert (H : Forall (fun n : pystr => n <> [])
                     [lit "Inbox"; lit "Projects"; lit "A"]).
  { repeat constructor; discriminate. }
  split; [exact H|].
  exact (folder_path_joins_names [lit "Inbox"; lit "Projects"; lit "A"] H).
Defined.

(** ** Dates as text *)

Lemma digits_length w : forall n, length (digits w n) = w.
Proof.
  induction w as [|w IH]; intros n; cbn [digits]; [reflexivity|].
  rewrite length_app, IH. simpl. lia.
Qed.

Lemma pystr_ltb_app a : forall a' b b',
  length a = length a' ->
  pystr_ltb (a ++ b) (a' ++ b')
  = if pystr_ltb a a' then true
    else if pystr_ltb a' a then false
    else pystr_ltb b b'.
Proof.
  induction a as [|x a IH]; intros [|y a'] b b' Hl; try discriminate;
    [reflexivity|].
  cbn [app pystr_ltb]. injection Hl as Hl.
  destruct (N.ltb_spec x y); [reflexivity|].
  destruct (N.ltb_spec y x); [reflexivity|].
  apply IH, Hl.
Qed.

Lemma digits_ltb w : forall x y,
  (x < 10 ^ w)%nat -> (y < 10 ^ w)%nat ->
  pystr_ltb (digits w x) (digits w y) = (x <? y)%nat.
Proof.
  induction w as [|w IH]; intros x y Hx Hy.
  - simpl in Hx, Hy. assert (x = 0%nat) as -> by lia.
    assert (y = 0%nat) as -> by lia. reflexivity.
  - cbn [digits]. rewrite pystr_ltb_app by (rewrite !digits_length; reflexivity).
    rewrite Nat.pow_succ_r' in Hx, Hy.
    pose proof (Nat.div_mod_eq x 10) as Ex.
    pose proof (Nat.div_mod_eq y 10) as Ey.
    pose proof (Nat.mod_upper_bound x 10 ltac:(lia)) as Bx.
    pose proof (Nat.mod_upper_bound y 10 ltac:(lia)) as By.
    assert (Dx : (x / 10 < 10 ^ w)%nat) by (apply Nat.Div0.div_lt_upper_bound; lia).
    assert (Dy : (y / 10 < 10 ^ w)%nat) by (apply Nat.Div0.div_lt_upper_bound; lia).
    rewrite !IH by assumption.
    destruct (Nat.ltb_spec (x / 10) (y / 10)).
    { symmetry. apply Nat.ltb_lt. lia. }
    destruct (Nat.ltb_spec (y / 10) (x / 10)).
    { symmetry. apply Nat.ltb_ge. lia. }
    cbn [pystr_ltb].
    destruct (N.ltb_spec (N.of_nat (48 + x mod 10)) (N.of_nat (48 + y mod 10))).
    { symmetry. apply Nat.ltb_lt. lia. }
    destruct (N.ltb_spec (N.of_nat (48 + y mod 10)) (N.of_nat (48 + x mod 10)));
      symmetry; apply Nat.ltb_ge; lia.
Qed.

Lemma zero_pad_2 n : (n < 100)%nat -> zero_pad 2 n = digits 2 n.
Proof.
  intros H.
  assert (Hall : forallb (fun n => bool_decide (zero_pad 2 n = digits 2 n))
                         (seq 0 100) = true) by (vm_compute; reflexivity).
  rewrite forallb_forall in Hall.
  specialize (Hall n (proj2 (in_seq _ _ _) (conj (Nat.le_0_l n) H))).
  apply bool_decide_eq_true_1 in Hall. exact Hall.
Qed.

Lemma zero_pad_4 n : (n < 100 * 100)%nat -> zero_pad 4 n = digits 4 n.
Proof.
  intros H.
  assert (Hall : forallb (fun n => bool_decide (zero_pad 4 n = digits 4 n))
                         (seq 0 (100 * 100)) = true)
    by (vm_compute; reflexivity).
  rewrite forallb_forall in Hall.
  specialize (Hall n (proj2 (in_seq _ _ _) (conj (Nat.le_0_l n) H))).
  apply bool_decide_eq_true_1 in Hall. exact Hall.
Qed.

Lemma canonical_digits d :
  calendar_datetime d ->
  strftime_canonical d
  = digits 4 (year d) ++ [45] ++ digits 2 (month d) ++ [45]
      ++ digits 2 (day d) ++ [32] ++ digits 2 (hour d) ++ [58]
      ++ digits 2 (minute d) ++ [58] ++ digits 2 (second d).
Proof.
  intros (Hy & Hm & Hd & Hh & Hmi & Hs). unfold strftime_canonical.
  rewrite zero_pad_4 by lia. rewrite !zero_pad_2 by lia. reflexivity.
Qed.

Lemma pystr_ltb_same c a b :
  pystr_ltb ([c] ++ a) ([c] ++ b) = pystr_ltb a b.
Proof. cbn [app pystr_ltb]. rewrite N.ltb_irrefl. reflexivity. Qed.

(** X19.  Formatted dates order as the dates do.  For two dates of the
    calendar from the year 1000 on, the text [_format_datetime] gives
    has 19 characters, and the text of one is below the text of the
    other, in the order of text that [min] and [max] use for the date
    range of the statistics, exactly when the one date is before the
    other, to the second. *)
Theorem formatted_dates_order_chronologically a b :
  calendar_datetime a -> calendar_datetime b ->
  pystr_ltb (_format_datetime (VDatetime a)) (_format_datetime (VDatetime b))
  = before a b
  /\ length (_format_datetime (VDatetime a)) = 19%nat.
Proof.
  intros Ha Hb. cbn [_format_datetime].
  rewrite (canonical_digits a Ha), (canonical_digits b Hb).
  destruct Ha as (Hy & Hm & Hd & Hh & Hmi & Hs).
  destruct Hb as (Hy' & Hm' & Hd' & Hh' & Hmi' & Hs').
  assert (P4 : (10 ^ 4)%nat = (100 * 100)%nat) by reflexivity.
  assert (P2 : (10 ^ 2)%nat = 100%nat) by reflexivity.
  split.
  - unfold before.
    repeat (rewrite pystr_ltb_app by (rewrite !digits_length; reflexivity);
            rewrite !digits_ltb by (rewrite ?P4, ?P2; lia);
            rewrite pystr_ltb_same).
    rewrite digits_ltb by (rewrite P2; lia). reflexivity.
  - rewrite !length_app, !digits_length. reflexivity.
Qed.

Lemma formatted_dates_order_chronologically_witness :
  calendar_datetime (Datetime 2023 12 31 23 59 59 0)
  /\ calendar_datetime (Datetime 2024 1 2 3 4 5 0)
  /\ pystr_ltb (lit "2023-12-31 23:59:59") (lit "2024-01-02 03:04:05") = true.
Proof.
  assert (Ha : calendar_datetime (Datetime 2023 12 31 23 59 59 0)).
  { unfold calendar_datetime. simpl. lia. }
  assert (Hb : calendar_datetime (Datetime 2024 1 2 3 4 5 0)).
  { unfold calendar_datetime. simpl. lia. }
  split; [exact Ha|]. split; [exact Hb|].
  exact (proj1 (formatted_dates_order_chronologically _ _ Ha Hb)).
Defined.

(** ** What a saved attachment holds *)

Ltac prj_in H := cbn [fst snd result_of state_of log_of] in H.

Lemma writable_at_walk (f : filesystem) o p k :
  writable_at f o p = Ok k ->
  walk f o (parts p) = Ok k /\ is_dir f k = false.
Proof.
  unfold writable_at. destruct (walk f o (parts p)) as [k'|e]; [|discriminate].
  destruct (is_dir f k') eqn:Hd; [discriminate|].
  destruct (f !! k'); [intros [= <-]; auto|].
  destruct (is_dir f (removelast k')); [intros [= <-]; auto | discriminate].
Qed.

Section Saved_data.
Context (E : environment).

(** X20.  A saved attachment can be read back.  When [_save_attachment]
    returns a path, the attachment has data, the data is [bytes] and
    is not empty, and the file the path leads to holds exactly these
    bytes. *)
Theorem saved_attachment_holds_data attachment email_id index s p :
  let x := _save_attachment E attachment email_id index s in
  result_of x = Ok (Some p) ->
  exists b k,
    att_data attachment = Present (VBytes b) /\ b <> []
    /\ walk (fs (state_of x)) (origin E p) (parts p) = Ok k
    /\ fs (state_of x) !! k = Some (File (Data b)).
Proof.
  cbv zeta.
  destruct (_save_attachment E attachment email_id index s)
    as [[r sf] lf] eqn:Hrun.
  cbn [result_of state_of fst snd]. intros ->.
  unfold _save_attachment in Hrun.
  rewrite run_attempt, run_gets, run_bind, mkdir_parents_run in Hrun.
  destruct (mkdirs (fs s) _ _) as [f'|e];
    [|prj_in Hrun; rewrite run_logger in Hrun; discriminate Hrun].
  prj_in Hrun.
  destruct (getattr (att_name attachment) _) as [declared|e];
    [rewrite run_lift_ok in Hrun
    |rewrite run_lift_raise in Hrun; prj_in Hrun;
     rewrite run_logger in Hrun; discriminate Hrun].
  destruct (filename_chars declared) as [chars|e];
    [rewrite run_lift_ok in Hrun
    |rewrite run_lift_raise in Hrun; prj_in Hrun;
     rewrite run_logger in Hrun; discriminate Hrun].
  destruct (att_data attachment) as [data| |e] eqn:Hdata;
    cbn [hasattr read] in Hrun.
  2:{ rewrite run_lift_ok, ret_run in Hrun. discriminate Hrun. }
  2:{ destruct e;
        first [ rewrite run_lift_ok, ret_run in Hrun; discriminate Hrun
              | rewrite run_lift_raise in Hrun; prj_in Hrun;
                rewrite run_logger in Hrun; discriminate Hrun ]. }
  rewrite !run_lift_ok in Hrun.
  destruct (truthy data) eqn:Ht; [|rewrite ret_run in Hrun; discriminate Hrun].
  rewrite run_bind, open_for_writing_run in Hrun. cbn [fs set_fs] in Hrun.
  match type of Hrun with
  | context [writable_at f' ?o ?q] =>
      destruct (writable_at f' o q) as [k|e] eqn:Hw;
        [|prj_in Hrun; rewrite run_logger in Hrun; discriminate Hrun]
  end.
  prj_in Hrun.
  destruct data as [| | | |b|];
    try (rewrite raise_run in Hrun; prj_in Hrun;
         rewrite run_logger in Hrun; discriminate Hrun).
  rewrite run_bind, write_file_run in Hrun. prj_in Hrun.
  rewrite ret_run in Hrun. prj_in Hrun. rewrite ret_run in Hrun.
  injection Hrun as Hp <- _. subst p.
  destruct (writable_at_walk _ _ _ _ Hw) as [Hk Dk].
  exists b, k. split; [reflexivity|]. split.
  { intros ->. discriminate Ht. }
  cbn [fs set_fs]. rewrite insert_insert_eq.
  split; [apply walk_insert_file; assumption | apply lookup_insert_eq].
Qed.

End Saved_data.

Lemma saved_attachment_holds_data_witness :
  let x := _save_attachment Sample.env (Sample.file "a:b*c.txt")
                            (lit "a1266062141ed6f7") 0
                            (Sample.opened Sample.tree) in
  exists p,
    result_of x = Ok (Some p)
    /\ fs (state_of x)
         !! [lit "out"; lit "attachments"; lit "a1266062141ed6f7";
             lit "abc.txt"]
       = Some (File (Data [1; 2; 3])).
Proof.
  cbv zeta.
  assert (H : { p |
                result_of (_save_attachment Sample.env
                             (Sample.file "a:b*c.txt")
                             (lit "a1266062141ed6f7") 0
                             (Sample.opened Sample.tree))
                = Ok (Some p) }).
  { eexists. vm_compute. reflexivity. }
  destruct H as [p H]. exists p. split; [exact H|].
  destruct (saved_attachment_holds_data Sample.env _ _ _ _ _ H)
    as (b & k & Hb & _ & Hk & Hf).
  injection Hb as <-.
  assert (Hwalk : walk (fs (state_of
                              (_save_attachment Sample.env
                                 (Sample.file "a:b*c.txt")
                                 (lit "a1266062141ed6f7") 0
                                 (Sample.opened Sample.tree))))
                       (origin Sample.env p) (parts p)
                  = Ok [lit "out"; lit "attachments";
                        lit "a1266062141ed6f7"; lit "abc.txt"]).
  { injection H as <-. vm_compute. reflexivity. }
  rewrite Hwalk in Hk. injection Hk as <-. exact Hf.
Defined.

(** ** Making an analyzer *)

Lemma mkdirs_walk comps : forall (f : filesystem) cur f',
  dotdot ∉ comps -> is_dir f cur = true ->
  mkdirs f cur comps = Ok f' ->
  exists d, walk f' cur comps = Ok d /\ is_dir f' d = true.
Proof.
  induction comps as [|c rest IH]; intros f cur f' Hdd Hcur H.
  - cbn [mkdirs] in H. injection H as <-. exists cur. auto.
  - apply not_elem_of_cons in Hdd as [Hc Hrest].
    pose proof (mkdirs_grows _ _ _ _ H) as G.
    cbn [mkdirs walk] in H |- *.
    destruct (is_blank_part c); [apply (IH f); assumption|].
    rewrite Hcur in H. rewrite (grows_is_dir _ _ _ G Hcur).
    rewrite bool_decide_eq_false_2 in H |- * by congruence.
    destruct (f !! (cur ++ [c])) as [[|x]|] eqn:Hl; [|discriminate|].
    + apply (IH f); [exact Hrest | | exact H].
      apply is_dir_spec. right. exact Hl.
    + apply (IH (<[cur ++ [c] := Dir]> f)); [exact Hrest | | exact H].
      apply is_dir_spec. right. apply lookup_insert_eq.
Qed.

Lemma log_name_plain d :
  plain_component (lit "pst_analysis_" ++ strftime_compact d ++ lit ".log").
Proof.
  eapply stamped_name_plain; [reflexivity | discriminate | |].
  - apply (bool_decide_unpack (47 ∉ lit "pst_analysis_")). vm_compute. exact I.
  - apply (bool_decide_unpack (47 ∉ lit ".log")). vm_compute. exact I.
Qed.

Section Construction.
Context (E : environment).

(** X21.  What constructing an analyzer does.  Without an output
    directory, or with an empty one, the output goes to [pst_analysis]
    beside the store file.  The new analyzer has no open store and
    empty collections.  Nothing that was on the disk is changed or
    removed; when the output path has no [..] step, it leads to a
    directory afterwards, which holds the log file named after the
    time of construction.  Once the analyzer is made,
    [analyze_pst_file] returns a flag: it raises only when the
    analyzer cannot be made. *)
Theorem analyzer_construction pst_path out_dir f n a :
  new_analyzer E pst_path out_dir f n = Ok a ->
  let beside :=
    path_div (path_parent (path_of pst_path)) (lit "pst_analysis") in
  let out := output_dir a in
  let log_name :=
    lit "pst_analysis_" ++ strftime_compact (now (clock E n)) ++ lit ".log" in
  pst_file_path a = path_of pst_path
  /\ out = match out_dir with
           | Some (c :: d) => path_of (c :: d)
           | _ => beside
           end
  /\ pst_file a = None /\ analysis_results a = empty_results
  /\ (forall k node, f !! k = Some node -> fs a !! k = Some node)
  /\ (is_dir f (origin E out) = true -> dotdot ∉ parts out ->
      exists d, walk (fs a) (origin E out) (parts out) = Ok d
                /\ is_dir (fs a) d = true
                /\ exists log, fs a !! (d ++ [log_name]) = Some (File log))
  /\ exists x done,
       analyze_pst_file E pst_path out_dir f n = Ok x
       /\ result_of x = Ok done.
Proof.
  intros H. cbv zeta. unfold analyze_pst_file. rewrite H.
  unfold new_analyzer in H. cbv zeta in H.
  set (out := match out_dir with
              | Some d => if bool_decide (d = []) then _ else path_of d
              | None => _
              end) in H.
  assert (Hout : out = match out_dir with
                       | Some (c :: d) => path_of (c :: d)
                       | _ => path_div (path_parent (path_of pst_path))
                                       (lit "pst_analysis")
                       end).
  { unfold out. destruct out_dir as [[|c d]|]; reflexivity. }
  destruct (mkdirs f (origin E out) (parts out)) as [f'|e] eqn:Hmk;
    [|discriminate].
  cbn [mbind outcome_bind] in H. unfold _setup_logging in H.
  pose proof (log_name_plain (now (clock E n))) as Pl.
  rewrite (path_div_plain _ _ Pl) in H.
  change (origin E (MkPath (absolute out) _)) with (origin E out) in H.
  destruct (writable_at f' _ _) as [k|e] eqn:Hw; [|discriminate].
  cbn [mbind outcome_bind] in H. injection H as <-.
  cbn [pst_file_path output_dir pst_file analysis_results fs].
  pose proof (mkdirs_grows _ _ _ _ Hmk) as G.
  destruct (writable_at_walk _ _ _ _ Hw) as [_ Dk].
  split; [reflexivity|]. split; [exact Hout|].
  split; [reflexivity|]. split; [reflexivity|]. split; [|split].
  - intros k0 node Hn.
    assert (Hn' : f' !! k0 = Some node).
    { destruct (G k0) as [Hs|[Hs _]]; congruence. }
    destruct (f' !! k) eqn:Hk; [exact Hn'|].
    rewrite lookup_insert_ne; [exact Hn' | congruence].
  - intros Ho Hdd.
    destruct (mkdirs_walk _ _ _ _ Hdd Ho Hmk) as (d & Wd & Dd).
    destruct (writable_plain _ _ _ _ _ _ Pl Hw) as (d' & Wd' & _ & -> & _).
    rewrite Wd in Wd'. injection Wd' as <-.
    exists d. destruct (f' !! (d ++ [_])) as [node|] eqn:Hk.
    + split; [exact Wd|]. split; [exact Dd|].
      destruct node as [|c]; [|exists c; exact Hk].
      exfalso. rewrite (proj2 (is_dir_spec _ _) (or_intror Hk)) in Dk.
      discriminate.
    + split; [apply walk_insert_file; assumption|].
      split; [rewrite is_dir_insert_file; assumption|].
      exists Unfinished. apply lookup_insert_eq.
  - destruct (total_open_pst_file E
                {| pst_file_path := path_of pst_path; output_dir := out;
                   pst_file := None; analysis_results := empty_results;
                   fs := match f' !! k with
                         | Some _ => f'
                         | None => <[k := File Unfinished]> f'
                         end;
                   ticks := S n |}) as [opened Ho].
    eexists. destruct opened.
    + destruct (perform_after_open E _ Ho) as (agg & _ & _ & _ & _ & Hr).
      eexists. split; [reflexivity | exact Hr].
    + destruct (perform_open_failed E _ Ho) as [Hr _].
      eexists. split; [reflexivity | exact Hr].
Qed.

End Construction.

Lemma analyzer_construction_witness :
  exists a,
    new_analyzer Sample.env (lit "/data/1.pst") None Sample.disk 0 = Ok a
    /\ output_dir a = MkPath true [lit "data"; lit "pst_analysis"]
    /\ pst_file a = None /\ analysis_results a = empty_results
    /\ is_dir Sample.disk [lit "data"; lit "pst_analysis"] = false
    /\ exists d log,
         walk (fs a) (origin Sample.env (output_dir a)) (parts (output_dir a))
         = Ok d
         /\ is_dir (fs a) d = true
         /\ fs a !! (d ++ [lit "pst_analysis_"
                             ++ strftime_compact (now (clock Sample.env 0))
                             ++ lit ".log"])
            = Some (File log).
Proof.
  assert (Hok : match new_analyzer Sample.env (lit "/data/1.pst") None
                                   Sample.disk 0 with
                | Ok _ => true
                | Raise _ => false
                end = true) by (vm_compute; reflexivity).
  destruct (new_analyzer Sample.env (lit "/data/1.pst") None Sample.disk 0)
    as [a|e] eqn:H; [|discriminate Hok].
  exists a. split; [reflexivity|].
  destruct (analyzer_construction Sample.env _ _ _ _ _ H)
    as (_ & Hout & Hp & Hr & _ & Hdir & _).
  assert (Ho : output_dir a = MkPath true [lit "data"; lit "pst_analysis"]).
  { rewrite Hout. vm_compute. reflexivity. }
  split; [exact Ho|]. split; [exact Hp|]. split; [exact Hr|].
  split; [vm_compute; reflexivity|].
  cbv zeta in Hdir. destruct Hdir as (d & Wd & Dd & log & Hlog).
  - rewrite Ho. vm_compute. reflexivity.
  - rewrite Ho.
    apply (bool_decide_unpack (dotdot ∉ [lit "data"; lit "pst_analysis"])).
    vm_compute. exact I.
  - exists d, log. split; [exact Wd|]. split; [exact Dd | exact Hlog].
Defined.

(** ** The properties at work on the sample stores *)

Lemma extracted_email_shape_witness :
  exists email,
    result_of (_extract_single_email Sample.env (Sample.mail "a1" [])
                 (VStr (lit "A/A1")) (Sample.opened Sample.tree))
    = Ok (Some email)
    /\ e_folder email = VStr (lit "A/A1")
    /\ exists plain, e_body_plain email = VStr plain
                     /\ (length plain <= 1000)%nat.
Proof.
  assert (H : { email |
                result_of (_extract_single_email Sample.env
                             (Sample.mail "a1" []) (VStr (lit "A/A1"))
                             (Sample.opened Sample.tree))
                = Ok (Some email) }).
  { eexists. vm_compute. reflexivity. }
  destruct H as [email H]. exists email. split; [exact H|].
  destruct (extracted_email_shape Sample.env _ _ _ _ H)
    as (Hf & _ & (plain & html & Hp & _ & Hl & _) & _).
  split; [exact Hf|]. exists plain. split; [exact Hp | exact Hl].
Defined.

Lemma unlisted_sub_folders_hide_messages_witness :
  let unlisted :=
    Present (Iter [Sample.folder "A" [] [Sample.mail "a" []]]
                  (Some Sample.oserror)) in
  let folder :=
    MkFolder (Present (VStr [])) unlisted
             (Present (Iter [Sample.mail "own" []] None)) in
  (forall subs, sub_folders folder = Present subs -> fault subs <> None)
  /\ extract_emails_at Sample.env
       (MkFolder (Present (VStr [])) unlisted (Present (Iter [] None)))
       (VStr []) (Sample.opened Sample.nothing)
     = extract_emails_at Sample.env folder (VStr [])
                         (Sample.opened Sample.nothing)
  /\ exists emails,
       result_of (extract_emails_at Sample.env folder (VStr [])
                                    (Sample.opened Sample.nothing))
       = Ok emails
       /\ List.map e_subject emails = [VStr (lit "a")].
Proof.
  cbv zeta.
  assert (H : forall subs,
            sub_folders
              (MkFolder (Present (VStr []))
                 (Present (Iter [Sample.folder "A" [] [Sample.mail "a" []]]
                                (Some Sample.oserror)))
                 (Present (Iter [Sample.mail "own" []] None)))
            = Present subs -> fault subs <> None).
  { intros subs [= <-]. discriminate. }
  split; [exact H|]. split.
  - exact (unlisted_sub_folders_hide_messages Sample.env _
             (Present (Iter [] None)) (VStr [])
             (Sample.opened Sample.nothing) H).
  - eexists. split; vm_compute; reflexivity.
Defined.

Lemma save_results_leaves_both_documents_witness :
  let s :=
    state_of ((extract_everything Sample.env;; generate_statistics Sample.env)
                (Sample.opened Sample.twins)) in
  exists p,
    result_of (save_results Sample.env (lit "JSON") s) = Ok (Some p)
    /\ lower Sample.env (lit "JSON") = lit "json"
    /\ p = MkPath true
             [lit "out";
              lit "pst_analysis_"
                ++ strftime_compact (now (clock Sample.env (ticks s)))
                ++ lit ".json"].
Proof.
  cbv zeta.
  assert (H : { p |
                result_of
                  (save_results Sample.env (lit "JSON")
                     (state_of ((extract_everything Sample.env;;
                                 generate_statistics Sample.env)
                                  (Sample.opened Sample.twins))))
                = Ok (Some p) }).
  { eexists. vm_compute. reflexivity. }
  destruct H as [p H]. exists p. split; [exact H|].
  destruct (save_results_leaves_both_documents Sample.env _ _ _ H)
    as (Hf & Hp & _).
  split; [exact Hf | exact Hp].
Defined.

Lemma save_results_unserialisable_witness :
  let s :=
    state_of ((extract_everything Sample.env;; generate_statistics Sample.env)
                (Sample.opened
                   (Sample.folder "" [] [Sample.unencodable]))) in
  let json :=
    path_div (output_dir s)
             (lit "pst_analysis_"
                ++ strftime_compact (now (clock Sample.env (ticks s)))
                ++ lit ".json") in
  exists k,
    writable_at (fs s) (origin Sample.env json) json = Ok k
    /\ dump_error (_clean_for_json Sample.env
                     (results_obj (analysis_results s)))
       = Some UnicodeEncodeError
    /\ result_of (save_results Sample.env (lit "json") s)
       = Raise UnicodeEncodeError
    /\ fs (state_of (save_results Sample.env (lit "json") s))
       = <[k := File Unfinished]> (fs s).
Proof.
  cbv zeta.
  set (s := state_of ((extract_everything Sample.env;;
                       generate_statistics Sample.env)
                        (Sample.opened
                           (Sample.folder "" [] [Sample.unencodable])))).
  assert (Hw : { k |
                 writable_at (fs s)
                   (origin Sample.env
                      (path_div (output_dir s)
                         (lit "pst_analysis_"
                            ++ strftime_compact
                                 (now (clock Sample.env (ticks s)))
                            ++ lit ".json")))
                   (path_div (output_dir s)
                      (lit "pst_analysis_"
                         ++ strftime_compact
                              (now (clock Sample.env (ticks s)))
                         ++ lit ".json")) = Ok k }).
  { eexists. vm_compute. reflexivity. }
  destruct Hw as [k Hw]. exists k.
  assert (Hd : dump_error (_clean_for_json Sample.env
                             (results_obj (analysis_results s)))
               = Some UnicodeEncodeError).
  { vm_compute. reflexivity. }
  destruct (save_results_unserialisable Sample.env (lit "json") s k
              UnicodeEncodeError eq_refl Hw Hd) as (H1 & H2 & _).
  split; [exact Hw|]. split; [exact Hd|]. split; [exact H1 | exact H2].
Defined.

Lemma find_folder_by_name_first_match_witness :
  well_listed Sample.tree = true
  /\ _find_folder_by_name Sample.env (lit "a1") Sample.tree
     = Ok (Some (Sample.folder "A1" [] [Sample.mail "a1" []]))
  /\ _find_folder_by_name Sample.env (lit "Contacts") Sample.tree = Ok None.
Proof.
  split; [reflexivity|].
  destruct (find_folder_by_name_first_match Sample.env (lit "a1") Sample.tree)
    as (_ & H1 & _).
  destruct (find_folder_by_name_first_match Sample.env (lit "Contacts")
              Sample.tree) as (_ & H2 & _).
  split.
  - rewrite H1; [reflexivity | reflexivity | eexists; reflexivity].
  - rewrite H2; [reflexivity | reflexivity | eexists; reflexivity].
Defined.

Lemma finished_run_totals_agree_witness :
  result_of (perform_full_analysis Sample.env (Sample.fresh "3")) = Ok true
  /\ exists st,
       let r := analysis_results
                  (state_of (perform_full_analysis Sample.env
                                                   (Sample.fresh "3"))) in
       stats r = Some st
       /\ total_emails st = 2%nat /\ total_attachments st = 2%nat.
Proof.
  assert (H : result_of (perform_full_analysis Sample.env (Sample.fresh "3"))
              = Ok true) by (vm_compute; reflexivity).
  split; [exact H|].
  destruct (finished_run_totals_agree Sample.env (Sample.fresh "3"))
    as (_ & Hrun).
  destruct (Hrun H) as (_ & st & Hst & He & _ & _ & _ & _ & _ & Ha).
  exists st. cbv zeta. split; [exact Hst|]. rewrite He, Ha.
  split; vm_compute; reflexivity.
Defined.

(** * The run on a store without emails *)

(** ** Steps that write no tabular export *)

Lemma csv_kept_refl f : csv_kept f f.
Proof. intros k n H _. exact H. Qed.

Lemma csv_kept_trans f g h : csv_kept f g -> csv_kept g h -> csv_kept f h.
Proof. intros H1 H2 k n Hk Hn. apply H1; [apply H2|]; assumption. Qed.

Lemma csv_kept_grows f f' : grows f f' -> csv_kept f f'.
Proof.
  intros H k n Hk Hn. destruct (H k) as [Heq|[_ Hd]].
  - rewrite <- Heq. exact Hk.
  - rewrite Hd in Hk. injection Hk as <-. discriminate.
Qed.

Lemma csv_kept_insert f k c :
  is_csv (File c) = false -> csv_kept f (<[k := File c]> f).
Proof.
  intros Hc k' n Hk Hn. destruct (decide (k = k')) as [->|Hne].
  - rewrite lookup_insert_eq in Hk. injection Hk as <-. congruence.
  - rewrite lookup_insert_ne in Hk by exact Hne. exact Hk.
Qed.

Lemma quiet_refl s : quiet s s.
Proof. split; [reflexivity | apply csv_kept_refl]. Qed.

Lemma quiet_trans s1 s2 s3 : quiet s1 s2 -> quiet s2 s3 -> quiet s1 s3.
Proof.
  intros [O1 C1] [O2 C2]. split; [congruence|].
  eapply csv_kept_trans; eassumption.
Qed.

Lemma quiet_same s s' :
  output_dir s' = output_dir s -> fs s' = fs s -> quiet s s'.
Proof. intros Ho Hf. split; [exact Ho|]. rewrite Hf. apply csv_kept_refl. Qed.

Lemma writes_no_csv_bind {A B} (m : M A) (k : A -> M B) :
  writes_no_csv m -> (forall a, writes_no_csv (k a)) ->
  writes_no_csv (m ≫= k).
Proof.
  intros Hm Hk s. rewrite run_bind. specialize (Hm s).
  destruct (m s) as [[[a|e] s1] l1]; prj; cbn [state_of fst snd] in Hm.
  - eapply quiet_trans; [exact Hm | apply Hk].
  - exact Hm.
Qed.

Lemma writes_no_csv_ret {A} (a : A) : writes_no_csv (mret a).
Proof. intros s. apply quiet_refl. Qed.

Lemma writes_no_csv_lift {A} (o : outcome A) : writes_no_csv (lift o).
Proof. intros s. apply quiet_refl. Qed.

Lemma writes_no_csv_raise {A} e : writes_no_csv (@raise A e).
Proof. intros s. apply quiet_refl. Qed.

Lemma writes_no_csv_logger l t a : writes_no_csv (logger l t a).
Proof. intros s. apply quiet_refl. Qed.

Lemma writes_no_csv_gets {A} (g : state -> A) : writes_no_csv (gets g).
Proof. intros s. apply quiet_refl. Qed.

Lemma writes_no_csv_modify g :
  (forall s, output_dir (g s) = output_dir s) ->
  (forall s, fs (g s) = fs s) ->
  writes_no_csv (modify g).
Proof. intros Ho Hf s. apply quiet_same; [apply Ho | apply Hf]. Qed.

Lemma writes_no_csv_attempt {A} (m : M A) :
  writes_no_csv m -> writes_no_csv (attempt m).
Proof.
  intros H s. specialize (H s). unfold attempt.
  destruct (m s) as [[r s1] l1]. exact H.
Qed.

Lemma writes_no_csv_for_acc_in {A L} (body : L -> A -> M L) stop xs :
  Forall (fun x => forall acc, writes_no_csv (body acc x)) xs ->
  forall acc, writes_no_csv (for_acc body stop xs acc).
Proof.
  induction 1 as [|x xs Hb _ IH]; intros acc; cbn [for_acc].
  - apply writes_no_csv_ret.
  - apply writes_no_csv_bind; [apply writes_no_csv_attempt, Hb|].
    intros [acc'|e]; [apply IH | apply writes_no_csv_ret].
Qed.

Lemma writes_no_csv_for_acc {A L} (body : L -> A -> M L) stop xs :
  (forall acc x, writes_no_csv (body acc x)) ->
  forall acc, writes_no_csv (for_acc body stop xs acc).
Proof.
  intros Hb. apply writes_no_csv_for_acc_in, Forall_forall.
  intros x _ acc. apply Hb.
Qed.

Lemma writes_no_csv_unchanged {A} (m : M A) :
  (forall s, state_of (m s) = s) -> writes_no_csv m.
Proof. intros H s. rewrite H. apply quiet_refl. Qed.

Section Quiet.
Context (E : environment).

Lemma writes_no_csv_mkdir_parents p : writes_no_csv (mkdir_parents E p).
Proof.
  intros s. rewrite mkdir_parents_run.
  destruct (mkdirs (fs s) (origin E p) (parts p)) as [f'|e] eqn:Hm; prj;
    [|apply quiet_refl].
  split; [reflexivity|]. apply csv_kept_grows, (mkdirs_grows _ _ _ _ Hm).
Qed.

Lemma writes_no_csv_open_for_writing p c :
  is_csv (File c) = false -> writes_no_csv (open_for_writing E p c).
Proof.
  intros Hc s. rewrite open_for_writing_run.
  destruct (writable_at (fs s) (origin E p) p) as [k|e]; prj;
    [|apply quiet_refl].
  split; [reflexivity|]. apply csv_kept_insert, Hc.
Qed.

Lemma writes_no_csv_write_file k c :
  is_csv (File c) = false -> writes_no_csv (write_file k c).
Proof.
  intros Hc s. rewrite write_file_run. prj.
  split; [reflexivity|]. apply csv_kept_insert, Hc.
Qed.

Lemma writes_no_csv_datetime_now : writes_no_csv (datetime_now E).
Proof. intros s. apply quiet_same; reflexivity. Qed.

End Quiet.

Ltac quiet_step :=
  lazymatch goal with
  | |- writes_no_csv (mret _) => apply writes_no_csv_ret
  | |- writes_no_csv (lift _) => apply writes_no_csv_lift
  | |- writes_no_csv (raise _) => apply writes_no_csv_raise
  | |- writes_no_csv (logger _ _ _) => apply writes_no_csv_logger
  | |- writes_no_csv (gets _) => apply writes_no_csv_gets
  | |- writes_no_csv (attempt _) => apply writes_no_csv_attempt
  | |- writes_no_csv (datetime_now _) => apply writes_no_csv_datetime_now
  | |- writes_no_csv (mkdir_parents _ _) => apply writes_no_csv_mkdir_parents
  | |- writes_no_csv (open_for_writing _ _ _) =>
      apply writes_no_csv_open_for_writing; reflexivity
  | |- writes_no_csv (write_file _ _) =>
      apply writes_no_csv_write_file; reflexivity
  | |- writes_no_csv (for_acc _ _ _ _) =>
      apply writes_no_csv_for_acc; intros ? ?
  | |- writes_no_csv (modify _) =>
      apply writes_no_csv_modify; intros ?; reflexivity
  | |- writes_no_csv (mbind _ _) => apply writes_no_csv_bind; [|intros ?]
  | |- writes_no_csv (match ?x with _ => _ end) => destruct x
  end.

Section Quiet_extraction.
Context (E : environment).

Lemma writes_no_csv_save_attachment attachment email_id index :
  writes_no_csv (_save_attachment E attachment email_id index).
Proof. unfold _save_attachment. repeat quiet_step. Qed.

Lemma writes_no_csv_extract_attachments message email_id :
  writes_no_csv (_extract_attachments E message email_id).
Proof.
  unfold _extract_attachments.
  repeat first [ apply writes_no_csv_save_attachment | quiet_step ].
Qed.

Lemma writes_no_csv_extract_single_email message path :
  writes_no_csv (_extract_single_email E message path).
Proof.
  unfold _extract_single_email, _generate_email_id.
  repeat first [ apply writes_no_csv_extract_attachments
               | apply writes_no_csv_unchanged;
                 intros ?; apply extract_recipients_run
               | quiet_step ].
Qed.

Lemma writes_no_csv_visit_message path acc message :
  writes_no_csv (visit_message E path acc message).
Proof.
  unfold visit_message.
  repeat first [ apply writes_no_csv_extract_single_email | quiet_step ].
Qed.

Lemma writes_no_csv_extract_emails_at folder : forall path,
  writes_no_csv (extract_emails_at E folder path).
Proof.
  induction folder as [folder IH] using Folder_tree_ind. intros path.
  rewrite extract_emails_at_unfold. apply writes_no_csv_bind.
  - destruct (sub_folders folder) as [subs| |e]; try apply writes_no_csv_ret.
    apply writes_no_csv_bind.
    + apply writes_no_csv_for_acc_in. cbn [listed] in IH.
      rewrite Forall_forall in IH |- *. intros sub Hin acc.
      unfold visit_sub_folder.
      repeat first [ apply (IH sub Hin) | quiet_step ].
    + intros [emails [e|]]; [apply writes_no_csv_ret|].
      destruct (read (sub_messages folder));
        [|apply writes_no_csv_ret].
      apply writes_no_csv_for_acc. intros acc x.
      apply writes_no_csv_visit_message.
  - intros [emails [e|]]; repeat quiet_step.
Qed.

Lemma writes_no_csv_extract_emails folder path :
  writes_no_csv (extract_emails E folder path).
Proof.
  destruct folder as [f|]; cbn [extract_emails];
    [apply writes_no_csv_extract_emails_at|].
  unfold the_root_folder.
  repeat first [ apply writes_no_csv_extract_emails_at | quiet_step ].
Qed.

Lemma writes_no_csv_extract_everything :
  writes_no_csv (extract_everything E).
Proof.
  unfold extract_everything, extract_contacts, extract_calendar,
    extract_tasks, extract_notes, extract_journal, update_results.
  repeat first [ apply writes_no_csv_extract_emails
               | apply writes_no_csv_unchanged;
                 intros ?; apply extract_named_spec
               | quiet_step ].
Qed.

End Quiet_extraction.

(** ** A tree that lists no message *)

Lemma list_sum_zero l : list_sum l = 0%nat -> Forall (fun n => n = 0%nat) l.
Proof.
  induction l as [|a l IH]; [constructor|].
  change (list_sum (a :: l)) with (a + list_sum l)%nat. intros H.
  apply Nat.eq_add_0 in H. destruct H as [Ha Hl].
  constructor; [exact Ha | exact (IH Hl)].
Qed.

Lemma message_count_eq folder :
  message_count folder
  = (length (listed (sub_messages folder))
     + list_sum (List.map message_count (listed (sub_folders folder))))%nat.
Proof.
  unfold message_count. destruct folder as [nm subs msgs].
  cbn [folders_preorder sub_folders sub_messages List.map].
  match goal with
  | |- list_sum (?a :: ?l) = _ => change (list_sum (a :: l))
                                   with (a + list_sum l)%nat
  end.
  f_equal. destruct subs as [subs| |]; try reflexivity.
  cbn [listed].
  apply (list_sum_flat_map folders_preorder
           (fun f => length (listed (sub_messages f)))).
Qed.

Lemma message_count_zero folder :
  message_count folder = 0%nat ->
  listed (sub_messages folder) = []
  /\ Forall (fun sub => message_count sub = 0%nat)
            (listed (sub_folders folder)).
Proof.
  rewrite message_count_eq. intros H. apply Nat.eq_add_0 in H.
  destruct H as [Hm Hs]. split; [apply length_zero_iff_nil, Hm|].
  apply list_sum_zero in Hs. rewrite Forall_map in Hs. exact Hs.
Qed.

Lemma no_messages_below folder found :
  message_count folder = 0%nat -> found ∈ folders_preorder folder ->
  listed (sub_messages found) = [].
Proof.
  unfold message_count. intros H Hin. apply list_sum_zero in H.
  rewrite Forall_map, Forall_forall in H.
  apply length_zero_iff_nil, H, Hin.
Qed.

Lemma preserves_for_acc_in {A L X} (f : state -> X) (body : L -> A -> M L)
    stop xs :
  Forall (fun x => forall acc, preserves f (body acc x)) xs ->
  forall acc, preserves f (for_acc body stop xs acc).
Proof.
  induction 1 as [|x xs Hb _ IH]; intros acc; cbn [for_acc].
  - apply preserves_ret.
  - apply preserves_bind; [apply preserves_attempt, Hb|].
    intros [acc'|e]; [apply IH | apply preserves_ret].
Qed.

Section Nothing_listed.
Context (E : environment).

(** Where no message is listed, the walk leaves the analyzer, the disk
    and the clock as they were. *)
Lemma extract_emails_at_idle folder : forall path,
  message_count folder = 0%nat ->
  preserves (fun s => s) (extract_emails_at E folder path).
Proof.
  induction folder as [folder IH] using Folder_tree_ind. intros path Hz.
  destruct (message_count_zero folder Hz) as [Hm Hs].
  rewrite extract_emails_at_unfold. apply preserves_bind.
  - destruct (sub_folders folder) as [subs| |e]; try apply preserves_ret.
    apply preserves_bind.
    + apply preserves_for_acc_in. cbn [listed] in IH, Hs.
      rewrite Forall_forall in IH, Hs |- *. intros sub Hin acc.
      unfold visit_sub_folder.
      apply preserves_bind; [apply preserves_lift|]. intros nm.
      apply preserves_bind; [apply preserves_logger|]. intros _.
      apply preserves_bind; [|intros ?; apply preserves_ret].
      apply (IH sub Hin), (Hs sub Hin).
    + intros [emails [e|]]; [apply preserves_ret|].
      destruct (sub_messages folder) as [msgs| |e]; cbn [read];
        try apply preserves_ret.
      cbn [listed] in Hm. rewrite Hm. apply preserves_ret.
  - intros [emails [e|]]; frame.
Qed.

Lemma extract_emails_at_none folder path s :
  message_count folder = 0%nat ->
  result_of (extract_emails_at E folder path s) = Ok []
  /\ state_of (extract_emails_at E folder path s) = s.
Proof.
  intros Hz. split; [|apply (extract_emails_at_idle folder path Hz)].
  destruct (extract_emails_at_bounded E folder path s) as (emails & R & B).
  rewrite Hz in B. rewrite R. f_equal.
  apply length_zero_iff_nil. apply Nat.le_0_r, B.
Qed.

Variables (s1 : state) (store : PffFile).
Hypothesis Hstore : pst_file s1 = Some store.
Hypothesis Hempty : empty_store store.

Lemma extract_emails_none path :
  result_of (extract_emails E None path s1) = Ok []
  /\ state_of (extract_emails E None path s1) = s1.
Proof.
  cbn [extract_emails]. rewrite run_attempt.
  unfold the_root_folder. rewrite run_gets, Hstore.
  destruct (root_folder store) as [root| |e] eqn:Hroot; cbn [read];
    unfold lift; prj; cbv beta iota.
  - rewrite run_logger. prj.
    apply extract_emails_at_none, Hempty, Hroot.
  - rewrite run_logger. prj. split; reflexivity.
  - rewrite run_logger. prj. split; reflexivity.
Qed.

Lemma found_messages_none nm : found_messages E nm s1 = [].
Proof.
  unfold found_messages, the_root_folder. rewrite run_gets, Hstore.
  destruct (root_folder store) as [root| |e] eqn:Hroot; cbn [read];
    unfold lift; prj; cbv beta iota; try reflexivity.
  destruct (_find_folder_by_name E (lit nm) root) as [[found|]|x] eqn:Hf;
    try reflexivity.
  apply (find_folder_sound E) in Hf. destruct Hf as [Hin _].
  apply (no_messages_below root found); [apply Hempty, Hroot | exact Hin].
Qed.

Lemma extract_named_none {R} a b c d e (make : Message -> outcome R) :
  exists l, extract_named E a b c d e make s1 = (Ok [], s1, l).
Proof.
  destruct (extract_named_spec E a b c d e make s1) as [Hr Hs].
  rewrite found_messages_none in Hr.
  destruct (extract_named E a b c d e make s1) as [[r s'] l].
  cbn [result_of state_of fst snd] in Hr, Hs. subst r s'.
  exists l. reflexivity.
Qed.

Hypothesis Hfresh : analysis_results s1 = empty_results.

(** On a new analyzer, extraction from such a store changes nothing. *)
Lemma extract_everything_none : state_of (extract_everything E s1) = s1.
Proof.
  assert (Hup : forall f, f empty_results = empty_results ->
                update_results f s1 = (Ok tt, s1, [])).
  { intros f Hf. unfold update_results, modify. rewrite Hfresh, Hf, <- Hfresh.
    rewrite set_results_same. reflexivity. }
  unfold extract_everything, extract_contacts, extract_calendar,
    extract_tasks, extract_notes, extract_journal.
  destruct (extract_emails_none (VStr [])) as [H0 H0'].
  rewrite run_bind.
  destruct (extract_emails E None (VStr []) s1) as [[r0 s0] l0].
  cbn [result_of state_of fst snd] in H0, H0'. subst r0 s0. prj.
  rewrite run_bind, Hup by reflexivity. prj.
  repeat
    (match goal with
     | |- context [ (extract_named E ?a ?b ?c ?d ?e ?mk ≫= _) s1 ] =>
         let l := fresh "l" in
         let H := fresh "H" in
         destruct (extract_named_none a b c d e mk) as [l H];
         rewrite run_bind, H; prj;
         first [rewrite run_bind, Hup by reflexivity; prj
               | rewrite Hup by reflexivity; prj]
     end).
  reflexivity.
Qed.

End Nothing_listed.

(** ** The corpus after extraction *)

Section Extracted.
Context (E : environment).

Lemma run_update_results {B} f (k : unit -> M B) s :
  (update_results f ≫= k) s = k tt (set_results (f (analysis_results s)) s).
Proof. unfold update_results. rewrite run_modify. reflexivity. Qed.

Lemma extract_named_idle {R} a b c d e (make : Message -> outcome R) :
  preserves (fun s => s) (extract_named E a b c d e make).
Proof. intros s. apply extract_named_spec. Qed.

(** The emails of the corpus are those the walk from the root gives. *)
Lemma extract_everything_emails s es :
  result_of (extract_emails E None (VStr []) s) = Ok es ->
  emails (analysis_results (state_of (extract_everything E s))) = es.
Proof.
  intros Hes. unfold extract_everything. rewrite run_bind.
  destruct (extract_emails E None (VStr []) s) as [[r0 s0] l0].
  cbn [result_of fst] in Hes. subst r0. prj.
  rewrite run_update_results. cbv beta.
  match goal with
  | |- emails (analysis_results (snd (fst (mbind ?m ?k ?s')))) = _ =>
      assert (Hrest : preserves (fun s => emails (analysis_results s))
                                (mbind m k))
  end.
  { unfold extract_contacts, extract_calendar, extract_tasks, extract_notes,
      extract_journal, update_results.
    repeat
      lazymatch goal with
      | |- preserves ?f (extract_named _ ?a ?b ?c ?d ?e ?mk) =>
          let s' := fresh "s" in
          intros s';
          exact (f_equal f (proj2 (extract_named_spec E a b c d e mk s')))
      | |- preserves _ (modify _) =>
          apply preserves_modify; intros ?; reflexivity
      | |- preserves _ (mbind _ _) => apply preserves_bind; [|intros ?]
      end. }
  etransitivity; [apply Hrest | reflexivity].
Qed.

End Extracted.

(** ** The run *)

Section Empty_store.
Context (E : environment).

Lemma dump_empty_corpus_iff t p size :
  dump_error (_clean_for_json E
                (results_obj (with_stats (make_statistics empty_results
                                                          t p size))))
  = None
  <-> encodable (path_str p) = true.
Proof.
  split; [|apply dump_empty_corpus].
  cbn. rewrite (encodable_ascii _ (ascii_text_isoformat t)).
  destruct (encodable (path_str p)); [reflexivity | discriminate].
Qed.

(** C2, as amended.  Take a run that opens its store.  When the walk
    from the root extracts no email, the run ends without raising, the
    emails of the corpus are empty, [total_emails] is 0, the statistics
    have no [top_senders] entry at all and no [email_date_range], and
    no tabular export is written: every CSV file on the disk afterwards
    was there before.  The run returns [True], having written the JSON
    document of the cleaned corpus to [pst_analysis_<timestamp>.json]
    in the output directory, exactly when that file can be created and
    the document can be serialised; in every other case it returns
    [False].  A store none of whose folders lists a message is such a
    store; analysed by a new analyzer, all its collections stay empty,
    the writers start from the disk as it was, after one reading of
    the clock, and the document can be serialised exactly when the
    path of the store file is text that UTF-8 can encode. *)
Theorem empty_store_run s :
  result_of (open_pst_file E s) = Ok true ->
  let opened := state_of (open_pst_file E s) in
  let aggregated :=
    state_of ((extract_everything E;; generate_statistics E) opened) in
  let x := perform_full_analysis E s in
  let r := analysis_results (state_of x) in
  let document := _clean_for_json E (results_obj r) in
  let json_path :=
    path_div (output_dir s)
             (lit "pst_analysis_"
                ++ strftime_compact (now (clock E (ticks aggregated)))
                ++ lit ".json") in
  (result_of (extract_emails E None (VStr []) opened) = Ok [] ->
   exists st,
     emails r = [] /\ stats r = Some st
     /\ total_emails st = 0%nat /\ top_senders st = None
     /\ email_date_range st = None
     /\ match writable_at (fs aggregated) (origin E json_path) json_path,
              dump_error document with
        | Ok k, None =>
            result_of x = Ok true
            /\ fs (state_of x)
               = <[k := File (JsonDocument document)]> (fs aggregated)
        | _, _ => result_of x = Ok false
        end
     /\ csv_kept (fs s) (fs (state_of x)))
  /\ (forall store,
        pst_file opened = Some store -> empty_store store ->
        result_of (extract_emails E None (VStr []) opened) = Ok []
        /\ (analysis_results s = empty_results ->
            (exists st, r = with_stats st)
            /\ fs aggregated = fs s /\ ticks aggregated = S (ticks s)
            /\ (dump_error document = None
                <-> encodable (path_str (pst_file_path s)) = true))).
Proof.
  intros Hopen opened aggregated x r document json_path.
  assert (F1 : fs opened = fs s)
    by apply (open_pst_file_frame E fs (fun _ _ => eq_refl)).
  assert (F2 : ticks opened = ticks s)
    by apply (open_pst_file_frame E ticks (fun _ _ => eq_refl)).
  assert (F3 : analysis_results opened = analysis_results s)
    by apply (open_pst_file_frame E analysis_results (fun _ _ => eq_refl)).
  assert (F4 : output_dir opened = output_dir s)
    by apply (open_pst_file_frame E output_dir (fun _ _ => eq_refl)).
  assert (F5 : pst_file_path opened = pst_file_path s)
    by apply (open_pst_file_frame E pst_file_path (fun _ _ => eq_refl)).
  (* the state in which the writers start *)
  set (sx := state_of (extract_everything E opened)).
  assert (HA : exists size,
             aggregated
             = set_results
                 (let rx := analysis_results sx in
                  {| emails := emails rx; contacts := contacts rx;
                     calendar := calendar rx; tasks := tasks rx;
                     notes := notes rx; journal := journal rx;
                     attachments := attachments rx;
                     stats := Some (make_statistics rx
                                      (now (clock E (ticks sx)))
                                      (pst_file_path sx) size) |})
                 (set_ticks (S (ticks sx)) sx)).
  { unfold aggregated, sx. rewrite run_bind.
    destruct (total_extract_everything E opened) as [[] Hx].
    destruct (extract_everything E opened) as [[[[]|e] s1] l1];
      cbn [result_of fst] in Hx; [|discriminate]. prj.
    destruct (generate_statistics_run E s1) as [size ->]. prj.
    exists size. reflexivity. }
  destruct HA as [size HA].
  destruct (writes_no_csv_extract_everything E opened) as [Qo Qc].
  fold sx in Qo, Qc.
  destruct (perform_after_open E s Hopen) as (agg & _ & W2 & _ & P1 & P2).
  change (state_of ((extract_everything E;; generate_statistics E)
                      (state_of (open_pst_file E s))))
    with aggregated in W2.
  subst agg. fold x in P1, P2.
  assert (Hr : r = analysis_results aggregated).
  { unfold r. rewrite P1.
    apply (save_results_frame E analysis_results (lit "json")
             (fun _ _ => eq_refl) (fun _ _ => eq_refl)). }
  assert (Hout : output_dir aggregated = output_dir s).
  { rewrite HA. cbn [output_dir set_results set_ticks]. congruence. }
  assert (Hfs : fs aggregated = fs sx) by (rewrite HA; reflexivity).
  split.
  - intros Hno.
    pose proof (extract_everything_emails E opened [] Hno) as Hem.
    fold sx in Hem.
    exists (make_statistics (analysis_results sx) (now (clock E (ticks sx)))
                            (pst_file_path sx) size).
    assert (He : emails (analysis_results aggregated) = []).
    { rewrite HA. cbn [analysis_results set_results emails]. exact Hem. }
    split; [rewrite Hr; exact He|].
    split; [rewrite Hr, HA; reflexivity|].
    split; [cbn [total_emails make_statistics]; rewrite Hem; reflexivity|].
    split; [cbn [top_senders make_statistics]; rewrite Hem; reflexivity|].
    split; [cbn [email_date_range make_statistics]; rewrite Hem; reflexivity|].
    assert (Hbase : csv_kept (fs s) (fs aggregated)).
    { rewrite Hfs, <- F1. exact Qc. }
    pose proof (save_results_json_eq E (lit "json") aggregated (lower_json E))
      as Hs.
    cbv zeta in Hs. rewrite Hout in Hs. fold json_path in Hs.
    rewrite <- Hr in Hs. fold document in Hs.
    destruct (writable_at (fs aggregated) (origin E json_path) json_path)
      as [k|e].
    2:{ rewrite Hs in P1, P2. cbn [result_of state_of fst snd] in P1, P2.
        split; [exact P2|]. prj. rewrite P1. exact Hbase. }
    destruct (dump_error document) as [e|].
    { rewrite Hs in P1, P2. cbn [result_of state_of fst snd] in P1, P2.
      split; [exact P2|]. prj. rewrite P1. cbn [fs set_fs set_ticks].
      eapply csv_kept_trans; [exact Hbase|].
      apply csv_kept_insert. reflexivity. }
    rewrite save_csv_eq in Hs. cbn [analysis_results set_fs set_ticks] in Hs.
    rewrite He in Hs. cbn [result_of state_of log_of fst snd] in Hs.
    rewrite Hs in P1, P2. cbn [result_of state_of fst snd] in P1, P2.
    assert (Hfinal : fs (state_of x)
                     = <[k := File (JsonDocument document)]> (fs aggregated)).
    { prj. rewrite P1. cbn [fs set_fs set_ticks]. apply insert_insert_eq. }
    split; [split; [exact P2 | exact Hfinal]|].
    rewrite Hfinal. eapply csv_kept_trans; [exact Hbase|].
    apply csv_kept_insert. reflexivity.
  - intros store Hst Hemp.
    split; [apply (extract_emails_none E opened store Hst Hemp)|].
    intros Hfresh.
    assert (Hfresh' : analysis_results opened = empty_results)
      by (rewrite F3; exact Hfresh).
    pose proof (extract_everything_none E opened store Hst Hemp Hfresh')
      as Hsame.
    fold sx in Hsame.
    rewrite Hsame in HA. rewrite Hfresh' in HA.
    split.
    { eexists. rewrite Hr, HA. reflexivity. }
    split; [rewrite Hfs, Hsame; exact F1|].
    split; [rewrite HA; cbn [ticks set_results set_ticks]; congruence|].
    unfold document. rewrite Hr, HA. cbn [analysis_results set_results].
    rewrite F5.
    apply (dump_empty_corpus_iff (now (clock E (ticks opened)))
                                 (pst_file_path s) size).
Qed.

End Empty_store.

(** The run on the sample store of empty folders. *)
Lemma empty_store_run_witness :
  let E := Hollow.env in
  let s := Sample.fresh "2" in
  let x := perform_full_analysis E s in
  result_of (open_pst_file E s) = Ok true
  /\ empty_store (Sample.store_of Hollow.tree)
  /\ message_count Hollow.tree = 0%nat
  /\ length (folders_preorder Hollow.tree) = 4%nat
  /\ result_of x = Ok true
  /\ (exists st,
        analysis_results (state_of x) = with_stats st
        /\ total_emails st = 0%nat /\ top_senders st = None)
  /\ csv_kept Sample.disk (fs (state_of x)).
Proof.
  cbv zeta.
  assert (Hopen : result_of (open_pst_file (Hollow.env) (Sample.fresh "2"))
                  = Ok true) by (vm_compute; reflexivity).
  assert (Hempty : empty_store (Sample.store_of Hollow.tree)).
  { intros root [= <-]. reflexivity. }
  split; [exact Hopen|]. split; [exact Hempty|].
  split; [reflexivity|]. split; [reflexivity|].
  destruct (empty_store_run (Hollow.env) (Sample.fresh "2") Hopen)
    as [Ha Hb].
  destruct (Hb (Sample.store_of Hollow.tree)) as [Hno Hnew];
    [vm_compute; reflexivity | exact Hempty |].
  destruct (Hnew eq_refl) as ([st' Hr] & _ & _ & Hd).
  destruct (Ha Hno) as (st & _ & Hst & Ht & Hts & _ & Hm & Hc).
  rewrite Hr in Hst. injection Hst as <-.
  destruct (writable_at _ _ _) as [k|e] eqn:Hw;
    [|exfalso; vm_compute in Hw; discriminate Hw].
  rewrite (proj2 Hd eq_refl) in Hm. destruct Hm as [Hres _].
  split; [exact Hres|]. split; [|exact Hc].
  exists st'. split; [exact Hr|]. split; [exact Ht | exact Hts].
Defined.

(** C2 as stated fails: on the empty sample store the run succeeds and
    [total_emails] is 0, but the statistics have no [top_senders] entry
    (so it is not the empty sequence), and no file on disk is a CSV
    export. *)
Lemma empty_store_no_top_senders_no_csv :
  let x := perform_full_analysis Sample.env (Sample.fresh "2") in
  result_of x = Ok true
  /\ (top_senders <$> stats (analysis_results (state_of x))) = Some None
  /\ (top_senders <$> stats (analysis_results (state_of x))) <> Some (Some [])
  /\ List.filter is_csv (snd <$> map_to_list (fs (state_of x))) = [].
Proof.
  cbv zeta. split; [vm_compute; reflexivity|].
  assert (H : (top_senders <$> stats (analysis_results
                 (state_of (perform_full_analysis Sample.env
                                                  (Sample.fresh "2")))))
              = Some None) by (vm_compute; reflexivity).
  split; [exact H|]. split; [rewrite H; discriminate|].
  vm_compute. reflexivity.
Qed.
